(** * The asynchronous checkout pipeline of system-design-lab

    A shallow embedding of the three services of
    [ecommerce-microservices] that form the event pipeline:

    - Order Intake: [services/order-service/app/main.py] and
      [event_publisher.py];
    - Payment Worker: [services/payment-service/app/event_consumer.py];
    - Email Worker: [services/email-service/app/event_consumer.py].

    Python code becomes functions in a state-and-exception monad over a
    [World] that holds the two stores, the exchange, the acknowledgements,
    the e-mail calls, the log and the answers of the outside (broker,
    gateway, mail server, clock).  The relational store is kept as the
    rows it was given: what the database engine does to a value on the way
    in (the scale of a [Numeric(10, 2)] column) is not part of the model. *)

From Stdlib Require Import String Ascii List ZArith NArith Lia Bool.
From Stdlib Require Import QArith Qpower.
From Stdlib Require Import DecimalN DecimalPos.
Import ListNotations.

Local Open Scope Z_scope.

(** ** Text *)

(** Python [str] values are [string]s; the functions that look at single
    characters work on [chars]. *)
Definition chars := list ascii.

Definition chars_of (s : string) : chars := list_ascii_of_string s.
Definition text_of (s : chars) : string := string_of_list_ascii s.

Definition is_digit (c : ascii) : bool :=
  ((48 <=? nat_of_ascii c) && (nat_of_ascii c <=? 57))%nat.

(** [str.isspace] on the ASCII range. *)
Definition is_space (c : ascii) : bool :=
  let n := nat_of_ascii c in
  (((9 <=? n) && (n <=? 13)) || ((28 <=? n) && (n <=? 32)))%nat.

Definition lower (c : ascii) : ascii :=
  let n := nat_of_ascii c in
  if ((65 <=? n) && (n <=? 90))%nat then ascii_of_nat (n + 32) else c.

Fixpoint lstrip (s : chars) : chars :=
  match s with
  | c :: s' => if is_space c then lstrip s' else s
  | [] => []
  end.

Definition rstrip (s : chars) : chars := rev (lstrip (rev s)).

(** [s.strip()] *)
Definition strip (s : chars) : chars := rstrip (lstrip s).

(** [s.replace("_", "")] *)
Definition drop_underscores (s : chars) : chars :=
  filter (fun c => negb (Ascii.eqb c "_")) s.

Fixpoint chars_eqb (a b : chars) : bool :=
  match a, b with
  | [], [] => true
  | x :: a', y :: b' => Ascii.eqb x y && chars_eqb a' b'
  | _, _ => false
  end.

(** [Some rest] when [s] is [p ++ rest]. *)
Fixpoint strip_prefix (p s : chars) : option chars :=
  match p, s with
  | [], _ => Some s
  | x :: p', y :: s' => if Ascii.eqb x y then strip_prefix p' s' else None
  | _ :: _, [] => None
  end.

(** The longest prefix of digits, and what follows it: the regular
    expression's greedy run of digits. *)
Fixpoint span_digits (s : chars) : chars * chars :=
  match s with
  | c :: s' =>
      if is_digit c then let (d, r) := span_digits s' in (c :: d, r)
      else ([], s)
  | [] => ([], [])
  end.

(** ** Integers as digit strings *)

Fixpoint uint_chars (d : Decimal.uint) : chars :=
  match d with
  | Decimal.Nil => []
  | Decimal.D0 l => "0"%char :: uint_chars l
  | Decimal.D1 l => "1"%char :: uint_chars l
  | Decimal.D2 l => "2"%char :: uint_chars l
  | Decimal.D3 l => "3"%char :: uint_chars l
  | Decimal.D4 l => "4"%char :: uint_chars l
  | Decimal.D5 l => "5"%char :: uint_chars l
  | Decimal.D6 l => "6"%char :: uint_chars l
  | Decimal.D7 l => "7"%char :: uint_chars l
  | Decimal.D8 l => "8"%char :: uint_chars l
  | Decimal.D9 l => "9"%char :: uint_chars l
  end.

(** [str(n)] for an int [n >= 0]. *)
Definition digits (n : N) : chars := uint_chars (N.to_uint n).

Definition digit_val (c : ascii) : N := N.of_nat (nat_of_ascii c - 48).

Definition horner (acc : N) (s : chars) : N :=
  fold_left (fun a c => (10 * a + digit_val c)%N) s acc.

(** [int(s)] for a string of digits; [int] of the empty string does not
    occur, the callers write [int(s or '0')]. *)
Definition int_of_digits (s : chars) : N := horner 0%N s.

(** [str(z)] for an int. *)
Definition str_int (z : Z) : chars :=
  if z <? 0 then "-"%char :: digits (Z.abs_N z) else digits (Z.abs_N z).

(** ["%+d" % z] *)
Definition fmt_plus_d (z : Z) : chars :=
  (if z <? 0 then "-"%char else "+"%char) :: digits (Z.abs_N z).

(** ** decimal.Decimal *)

(** A [Decimal] as CPython keeps it: a sign, a coefficient and an exponent,
    or one of the special values.  The coefficient is the number whose
    digits are [_int]; the payload of a NaN is [0] when [_int] is empty. *)
Inductive Decimal : Type :=
| Finite (sign : bool) (coef : N) (exp : Z)
| Infinity (sign : bool)
| NaN (sign : bool) (signaling : bool) (payload : N).

Definition sign_chars (sign : bool) : chars :=
  if sign then ["-"%char] else [].

Definition zeros (n : Z) : chars := repeat "0"%char (Z.to_nat n).

(** [Decimal.__str__], scientific notation ([eng=False]), [capitals=1]. *)
Definition Decimal_str_chars (d : Decimal) : chars :=
  match d with
  | Infinity sign => sign_chars sign ++ chars_of "Infinity"
  | NaN sign false p =>
      sign_chars sign ++ chars_of "NaN"
        ++ (if (p =? 0)%N then [] else digits p)
  | NaN sign true p =>
      sign_chars sign ++ chars_of "sNaN"
        ++ (if (p =? 0)%N then [] else digits p)
  | Finite sign coef exp =>
      let _int := digits coef in
      let len := Z.of_nat (length _int) in
      let leftdigits := exp + len in
      let dotplace :=
        if (exp <=? 0) && (-6 <? leftdigits) then leftdigits else 1 in
      let intpart :=
        if dotplace <=? 0 then ["0"%char]
        else if len <=? dotplace then _int ++ zeros (dotplace - len)
        else firstn (Z.to_nat dotplace) _int in
      let fracpart :=
        if dotplace <=? 0 then "."%char :: zeros (- dotplace) ++ _int
        else if len <=? dotplace then []
        else "."%char :: skipn (Z.to_nat dotplace) _int in
      let exp_chars :=
        if leftdigits =? dotplace then []
        else "E"%char :: fmt_plus_d (leftdigits - dotplace) in
      sign_chars sign ++ intpart ++ fracpart ++ exp_chars
  end.

(** [str(d)] *)
Definition Decimal_str (d : Decimal) : string := text_of (Decimal_str_chars d).

(** The exponent group: an optional sign and at least one digit, then the
    end of the text. *)
Definition parse_exponent (s : chars) : option Z :=
  let '(neg, body) :=
    match s with
    | c :: s' =>
        if Ascii.eqb c "-" then (true, s')
        else if Ascii.eqb c "+" then (false, s')
        else (false, s)
    | [] => (false, [])
    end in
  match span_digits body with
  | (d :: ds, []) =>
      let n := Z.of_N (int_of_digits (d :: ds)) in
      Some (if neg then - n else n)
  | _ => None
  end.

(** The numeric alternative of [decimal._parser], after the sign: digits,
    an optional point with digits, at least one digit among them, an
    optional exponent ([E] or [e]), then the end of the text. *)
Definition parse_number (sign : bool) (s : chars) : option Decimal :=
  let (intpart, r1) := span_digits s in
  let '(fracpart, r2) :=
    match r1 with
    | c :: r =>
        if Ascii.eqb c "." then span_digits r else ([], r1)
    | [] => ([], [])
    end in
  let exp :=
    match r2 with
    | [] => Some 0
    | c :: r => if Ascii.eqb (lower c) "e" then parse_exponent r else None
    end in
  match intpart ++ fracpart, exp with
  | _ :: _, Some e =>
      Some (Finite sign (int_of_digits (intpart ++ fracpart))
                   (e - Z.of_nat (length fracpart)))
  | _, _ => None
  end.

(** The other two alternatives: [Inf] or [Infinity], and [NaN] or [sNaN]
    with its diagnostic digits, in any letter case. *)
Definition parse_special (sign : bool) (s : chars) : option Decimal :=
  let t := map lower s in
  if chars_eqb t (chars_of "inf") || chars_eqb t (chars_of "infinity")
  then Some (Infinity sign)
  else
    match strip_prefix (chars_of "snan") t with
    | Some diag =>
        if forallb is_digit diag then Some (NaN sign true (int_of_digits diag))
        else None
    | None =>
        match strip_prefix (chars_of "nan") t with
        | Some diag =>
            if forallb is_digit diag
            then Some (NaN sign false (int_of_digits diag))
            else None
        | None => None
        end
    end.

(** [Decimal(value)] for a [str]: [None] stands for
    [decimal.InvalidOperation]. *)
Definition Decimal_of_chars (value : chars) : option Decimal :=
  let s := drop_underscores (strip value) in
  let '(sign, body) :=
    match s with
    | c :: s' =>
        if Ascii.eqb c "-" then (true, s')
        else if Ascii.eqb c "+" then (false, s')
        else (false, s)
    | [] => (false, [])
    end in
  match parse_number sign body with
  | Some d => Some d
  | None => parse_special sign body
  end.

Definition Decimal_of_str (value : string) : option Decimal :=
  Decimal_of_chars (chars_of value).

(** [Decimal(n)] for an int. *)
Definition Decimal_of_int (n : Z) : Decimal :=
  Finite (n <? 0) (Z.abs_N n) 0.

(** What may follow a run of digits without being taken into it. *)
Definition stops_digits (r : chars) : Prop :=
  match r with
  | [] => True
  | c :: _ => is_digit c = false
  end.

(** A character that [strip] and the removal of underscores leave. *)
Definition plain (c : ascii) : bool :=
  negb (is_space c) && negb (Ascii.eqb c "_").

(** *** Arithmetic *)

(** A finite [Decimal]: what pydantic accepts for a [Decimal] field
    ([allow_inf_nan] is off) and what the arithmetic of [checkout] works
    on.  The operations are exact: the default context rounds a result
    only when it has more than 28 significant digits, which the amounts of
    this model (money columns of ten digits) stay clear of. *)
Record FiniteDecimal : Type := finite { fsign : bool; fcoef : N; fexp : Z }.

Definition to_Decimal (a : FiniteDecimal) : Decimal :=
  Finite (fsign a) (fcoef a) (fexp a).

(** [10 ** k] for [k >= 0], the padding of [_rescale] and [_normalize]. *)
Definition pow10 (k : Z) : N := Z.to_N (10 ^ k).

(** [Decimal.__add__] *)
Definition Decimal_add (a b : FiniteDecimal) : FiniteDecimal :=
  let exp := Z.min (fexp a) (fexp b) in
  if ((fcoef a =? 0) && (fcoef b =? 0))%N then
    finite (fsign a && fsign b) 0 exp
  else if (fcoef a =? 0)%N then
    finite (fsign b) (fcoef b * pow10 (fexp b - exp)) exp
  else if (fcoef b =? 0)%N then
    finite (fsign a) (fcoef a * pow10 (fexp a - exp)) exp
  else
    let ca := (fcoef a * pow10 (fexp a - exp))%N in
    let cb := (fcoef b * pow10 (fexp b - exp))%N in
    if Bool.eqb (fsign a) (fsign b) then finite (fsign a) (ca + cb) exp
    else if (ca =? cb)%N then finite false 0 exp
    else if (ca <? cb)%N then finite (fsign b) (cb - ca) exp
    else finite (fsign a) (ca - cb) exp.

(** [Decimal.__mul__] with an int on the right: the int is first made a
    [Decimal] of exponent 0. *)
Definition Decimal_mul_int (a : FiniteDecimal) (n : Z) : FiniteDecimal :=
  finite (xorb (fsign a) (n <? 0)) (fcoef a * Z.abs_N n) (fexp a + 0).

(** The builtin [sum] over decimals: it starts from the int [0], and
    [0 + d] is [d.__radd__(0)], that is [d.__add__(Decimal(0))].  The sum
    of nothing is the int [0], kept here as the decimal of that int. *)
Definition py_sum (l : list FiniteDecimal) : FiniteDecimal :=
  match l with
  | [] => finite false 0 0
  | d :: l' => fold_left Decimal_add l' (Decimal_add d (finite false 0 0))
  end.



(** ** JSON values *)

(** A Python [float], as the number it holds: [m * 2 ** e], or one of the
    two infinities, or a NaN. *)
Inductive pyfloat : Type :=
| FNum (neg : bool) (m : N) (e : Z)
| FInf (neg : bool)
| FNaN.

(** What [json.loads] returns. A [dict] keeps its keys in order; a key is
    looked up by its first occurrence. *)
#[warnings="-register-all"]
Inductive json : Type :=
| JNull
| JBool (b : bool)
| JInt (n : Z)
| JFloat (f : pyfloat)
| JStr (s : string)
| JList (l : list json)
| JDict (d : list (string * json)).

Fixpoint lookup (k : string) (d : list (string * json)) : option json :=
  match d with
  | [] => None
  | (k', v) :: d' => if String.eqb k k' then Some v else lookup k d'
  end.

(** ** Exceptions *)

(** The exceptions of the pipeline; each of them is an [Exception], so
    every [except Exception] of the source catches all of them. *)
Inductive exn : Type :=
| KeyError (key : string)
| TypeError
| AttributeError
| ValueError
| InvalidOperation
| UnboundLocalError (name : string)
| JSONDecodeError
| AMQPError
| GatewayError
| EmailError
| HTTPException (status_code : Z).

Inductive Result (A : Type) : Type :=
| Ok (a : A)
| Raise (e : exn).

Arguments Ok {A} a.
Arguments Raise {A} e.

(** *** Decimal(value) for any JSON value *)

(** [p] without its trailing zero bits, and how many they were: the
    reduction to lowest terms of [float.as_integer_ratio]. *)
Fixpoint odd_part (p : positive) : positive * Z :=
  match p with
  | xO q => let (r, t) := odd_part q in (r, t + 1)
  | _ => (p, 0)
  end.

(** [Decimal.from_float] *)
Definition Decimal_of_float (f : pyfloat) : Decimal :=
  match f with
  | FNaN => NaN false false 0
  | FInf neg => Infinity neg
  | FNum neg 0%N _ => Finite neg 0 0
  | FNum neg (Npos p) e =>
      let (r, t) := odd_part p in
      let e' := e + t in
      if 0 <=? e' then Finite neg (Npos r * Z.to_N (2 ^ e')) 0
      else Finite neg (Npos r * Z.to_N (5 ^ (- e'))) e'
  end.

(** An int of a sequence: [bool] is a subclass of [int]. *)
Definition as_int (v : json) : option Z :=
  match v with
  | JInt n => Some n
  | JBool b => Some (if b then 1 else 0)
  | _ => None
  end.

Fixpoint digits_of_sequence (l : list json) : option chars :=
  match l with
  | [] => Some []
  | v :: l' =>
      match as_int v, digits_of_sequence l' with
      | Some n, Some ds =>
          if (0 <=? n) && (n <=? 9)
          then Some (ascii_of_nat (48 + Z.to_nat n) :: ds)
          else None
      | _, _ => None
      end
  end.

(** [Decimal((sign, digits, exponent))], which CPython also accepts as a
    list: the only shape a JSON array can take. *)
Definition Decimal_of_sequence (l : list json) : Result Decimal :=
  match l with
  | [s; JList ds; e] =>
      match as_int s, digits_of_sequence ds with
      | Some sg, Some cs =>
          if negb ((sg =? 0) || (sg =? 1)) then Raise ValueError
          else
            let sign := sg =? 1 in
            match e with
            | JStr t =>
                if String.eqb t "F" then Ok (Infinity sign)
                else if String.eqb t "n"
                then Ok (NaN sign false (int_of_digits cs))
                else if String.eqb t "N"
                then Ok (NaN sign true (int_of_digits cs))
                else Raise ValueError
            | _ =>
                match as_int e with
                | Some x => Ok (Finite sign (int_of_digits cs) x)
                | None => Raise ValueError
                end
            end
      | _, _ => Raise ValueError
      end
  | _ => Raise ValueError
  end.

(** [Decimal(value)] *)
Definition Decimal_new (value : json) : Result Decimal :=
  match value with
  | JStr s =>
      match Decimal_of_str s with
      | Some d => Ok d
      | None => Raise InvalidOperation
      end
  | JInt n => Ok (Decimal_of_int n)
  | JBool b => Ok (Decimal_of_int (if b then 1 else 0))
  | JFloat f => Ok (Decimal_of_float f)
  | JList l => Decimal_of_sequence l
  | JNull | JDict _ => Raise TypeError
  end.

(** ** The world of the three services *)

(** [services/order-service/app/models.py] *)
Module Order.
Record t : Type := make {
  id : Z;
  user_id : Z;
  user_email : string;
  status : string;
  total_amount : FiniteDecimal;
  items : list json;
  created_at : string;
  processing_duration_ms : option Z
}.
End Order.

(** [services/payment-service/app/models.py].  The object keeps what the
    event handed to it: [order_id] and [user_id] are JSON values. *)
Module Payment.
Record t : Type := make {
  id : Z;
  order_id : json;
  user_id : json;
  amount : Decimal;
  status : string;
  transaction_id : option string
}.
End Payment.

(** The text of a message.  The model keeps of it what [json.loads] makes
    of it: the value it denotes, or the fact that it denotes none. *)
Inductive Body : Type :=
| JsonText (v : json)
| BadText (raw : string).

(** A message as [basic_publish] hands it to the exchange. *)
Record Message : Type := message {
  exchange : string;
  routing_key : string;
  body : Body;
  delivery_mode : Z;
  content_type : string
}.

(** [basic_ack] and [basic_nack], as the channel receives them. *)
Inductive Acknowledgement : Type :=
| Ack (delivery_tag : Z)
| Nack (delivery_tag : Z) (requeue : bool).

(** A call of [send_order_confirmation_email]. *)
Record EmailCall : Type := email_call {
  to : json;
  about_order : json;
  of_amount : json;
  of_transaction : json
}.

(** The records of the logger that the model keeps: those built from
    data, the warnings and the errors.  Lines of constant text at level
    info leave no trace. *)
Inductive LogRecord : Type :=
| Info (msg : string) (arg : json)
| Warning (msg : string)
| Error (msg : string) (e : exn).

(** What the outside will answer, call after call.  A list of faults says
    of each coming call whether it raises: a call takes the head of its
    list, and succeeds once the list is used up.  The other lists are the
    coming readings of the clock (in milliseconds), the coming uuids (as
    their [hex]) and the coming timestamps. *)
Record Outside : Type := outside {
  connect_faults : list bool;
  publish_faults : list bool;
  gateway_faults : list bool;
  email_faults : list bool;
  clock : list Z;
  uuids : list string;
  timestamps : list string
}.

Record World : Type := world {
  orders : list Order.t;
  payments : list Payment.t;
  (** every version of a row that a commit of the Payment Worker wrote,
      oldest first *)
  payment_commits : list Payment.t;
  (** [event_publisher.channel] of Order Intake is set *)
  publisher_channel : bool;
  (** the messages the exchange took, oldest first *)
  published : list Message;
  acknowledgements : list Acknowledgement;
  emails : list EmailCall;
  log : list LogRecord;
  (** the local variable [payment] of the running [process_payment];
      [None] while it is unbound *)
  local_payment : option Payment.t;
  env : Outside
}.

(** *** The monad *)

(** A computation changes the world and returns or raises; what it did to
    the world before raising stays done. *)
Definition M (A : Type) : Type := World -> Result A * World.

Definition ret {A} (a : A) : M A := fun w => (Ok a, w).

Definition raise {A} (e : exn) : M A := fun w => (Raise e, w).

Definition bind {A B} (m : M A) (k : A -> M B) : M B :=
  fun w =>
    match m w with
    | (Ok a, w') => k a w'
    | (Raise e, w') => (Raise e, w')
    end.

Declare Scope py_scope.
Delimit Scope py_scope with py.
Notation "x <- m ;; k" := (bind m (fun x => k))
  (at level 100, m at next level, right associativity) : py_scope.
Notation "m ;; k" := (bind m (fun _ => k))
  (at level 100, right associativity) : py_scope.
Local Open Scope py_scope.

(** [try: m  except Exception as e: handler e] *)
Definition try_except {A} (m : M A) (handler : exn -> M A) : M A :=
  fun w =>
    match m w with
    | (Ok a, w') => (Ok a, w')
    | (Raise e, w') => handler e w'
    end.

(** [try: m  finally: cleanup] *)
Definition try_finally {A} (m : M A) (cleanup : M unit) : M A :=
  fun w =>
    match m w with
    | (r, w') =>
        match cleanup w' with
        | (Ok _, w'') => (r, w'')
        | (Raise e, w'') => (Raise e, w'')
        end
    end.

Definition lift {A} (r : Result A) : M A := fun w => (r, w).

Definition get : M World := fun w => (Ok w, w).

Definition modify (f : World -> World) : M unit := fun w => (Ok tt, f w).

(** *** Updates of the world, field by field *)

Definition set_orders (x : list Order.t) (w : World) : World :=
  world x (payments w) (payment_commits w) (publisher_channel w)
        (published w) (acknowledgements w) (emails w) (log w)
        (local_payment w) (env w).

Definition set_payments (x c : list Payment.t) (w : World) : World :=
  world (orders w) x c (publisher_channel w)
        (published w) (acknowledgements w) (emails w) (log w)
        (local_payment w) (env w).

Definition set_publisher_channel (x : bool) (w : World) : World :=
  world (orders w) (payments w) (payment_commits w) x
        (published w) (acknowledgements w) (emails w) (log w)
        (local_payment w) (env w).

Definition set_published (x : list Message) (w : World) : World :=
  world (orders w) (payments w) (payment_commits w) (publisher_channel w)
        x (acknowledgements w) (emails w) (log w)
        (local_payment w) (env w).

Definition set_acknowledgements (x : list Acknowledgement) (w : World)
    : World :=
  world (orders w) (payments w) (payment_commits w) (publisher_channel w)
        (published w) x (emails w) (log w)
        (local_payment w) (env w).

Definition set_emails (x : list EmailCall) (w : World) : World :=
  world (orders w) (payments w) (payment_commits w) (publisher_channel w)
        (published w) (acknowledgements w) x (log w)
        (local_payment w) (env w).

Definition set_log (x : list LogRecord) (w : World) : World :=
  world (orders w) (payments w) (payment_commits w) (publisher_channel w)
        (published w) (acknowledgements w) (emails w) x
        (local_payment w) (env w).

Definition set_local_payment (x : option Payment.t) (w : World) : World :=
  world (orders w) (payments w) (payment_commits w) (publisher_channel w)
        (published w) (acknowledgements w) (emails w) (log w)
        x (env w).

Definition set_env (x : Outside) (w : World) : World :=
  world (orders w) (payments w) (payment_commits w) (publisher_channel w)
        (published w) (acknowledgements w) (emails w) (log w)
        (local_payment w) x.

(** *** Python on JSON values *)

(** [value[key]] for a [str] key *)
Definition getitem (value : json) (key : string) : M json :=
  match value with
  | JDict d =>
      match lookup key d with
      | Some v => ret v
      | None => raise (KeyError key)
      end
  | _ => raise TypeError
  end.

(** [value.get(key, default)] *)
Definition dict_get (value : json) (key : string) (default : json) : M json :=
  match value with
  | JDict d =>
      match lookup key d with
      | Some v => ret v
      | None => ret default
      end
  | _ => raise AttributeError
  end.

(** [value == text] for a [str] on the right *)
Definition eq_str (value : json) (text : string) : bool :=
  match value with
  | JStr s => String.eqb s text
  | _ => false
  end.

Definition json_loads (b : Body) : M json :=
  match b with
  | JsonText v => ret v
  | BadText _ => raise JSONDecodeError
  end.

(** [json.dumps(value, default=str)] of a value that is JSON already *)
Definition json_dumps (value : json) : Body := JsonText value.

(** *** The logger *)

Definition logger (r : LogRecord) : M unit :=
  modify (fun w => set_log (log w ++ [r]) w).

(** *** The outside *)

Definition set_connect_faults (x : list bool) (o : Outside) : Outside :=
  outside x (publish_faults o) (gateway_faults o) (email_faults o)
          (clock o) (uuids o) (timestamps o).

Definition set_publish_faults (x : list bool) (o : Outside) : Outside :=
  outside (connect_faults o) x (gateway_faults o) (email_faults o)
          (clock o) (uuids o) (timestamps o).

Definition set_gateway_faults (x : list bool) (o : Outside) : Outside :=
  outside (connect_faults o) (publish_faults o) x (email_faults o)
          (clock o) (uuids o) (timestamps o).

Definition set_email_faults (x : list bool) (o : Outside) : Outside :=
  outside (connect_faults o) (publish_faults o) (gateway_faults o) x
          (clock o) (uuids o) (timestamps o).

Definition set_clock (x : list Z) (o : Outside) : Outside :=
  outside (connect_faults o) (publish_faults o) (gateway_faults o)
          (email_faults o) x (uuids o) (timestamps o).

Definition set_uuids (x : list string) (o : Outside) : Outside :=
  outside (connect_faults o) (publish_faults o) (gateway_faults o)
          (email_faults o) (clock o) x (timestamps o).

Definition set_timestamps (x : list string) (o : Outside) : Outside :=
  outside (connect_faults o) (publish_faults o) (gateway_faults o)
          (email_faults o) (clock o) (uuids o) x.

(** [time.time()], in milliseconds *)
Definition time_time : M Z :=
  fun w =>
    (Ok (hd 0 (clock (env w))),
     set_env (set_clock (tl (clock (env w))) (env w)) w).

(** [uuid.uuid4()], as its [hex] *)
Definition uuid4 : M string :=
  fun w =>
    (Ok (hd EmptyString (uuids (env w))),
     set_env (set_uuids (tl (uuids (env w))) (env w)) w).

(** [datetime.now().isoformat()], and the [now()] of the database *)
Definition now_isoformat : M string :=
  fun w =>
    (Ok (hd EmptyString (timestamps (env w))),
     set_env (set_timestamps (tl (timestamps (env w))) (env w)) w).

(** [pika.BlockingConnection(parameters)] with its channel and the
    declaration of the exchange *)
Definition pika_connect : M unit :=
  fun w =>
    let rest := tl (connect_faults (env w)) in
    let w' := set_env (set_connect_faults rest (env w)) w in
    if hd false (connect_faults (env w)) then (Raise AMQPError, w')
    else (Ok tt, w').

(** [channel.basic_publish(...)] with [delivery_mode=2] and
    [content_type='application/json'] *)
Definition basic_publish (exchange_name key : string) (b : Body) : M unit :=
  fun w =>
    let rest := tl (publish_faults (env w)) in
    let w' := set_env (set_publish_faults rest (env w)) w in
    if hd false (publish_faults (env w)) then (Raise AMQPError, w')
    else
      (Ok tt,
       set_published
         (published w' ++ [message exchange_name key b 2 "application/json"])
         w').

(** [time.sleep(1)], the simulated call of the payment gateway *)
Definition payment_gateway : M unit :=
  fun w =>
    let rest := tl (gateway_faults (env w)) in
    let w' := set_env (set_gateway_faults rest (env w)) w in
    if hd false (gateway_faults (env w)) then (Raise GatewayError, w')
    else (Ok tt, w').

(** Modelled from the spec: [send_order_confirmation_email] of
    [email_sender.py], which is not among the sources.  It is the blocking
    send of the confirmation message to the buyer's address, with the
    order id, the amount and the transaction id; it may fail.  The call is
    recorded, then the outside decides whether it raises. *)
Definition send_order_confirmation_email
    (user_email order_id amount transaction_id : json) : M unit :=
  fun w =>
    let rest := tl (email_faults (env w)) in
    let w' := set_env (set_email_faults rest (env w)) w in
    let w'' :=
      set_emails
        (emails w' ++ [email_call user_email order_id amount transaction_id])
        w' in
    if hd false (email_faults (env w)) then (Raise EmailError, w'')
    else (Ok tt, w'').

Definition basic_ack (delivery_tag : Z) : M unit :=
  modify (fun w =>
    set_acknowledgements (acknowledgements w ++ [Ack delivery_tag]) w).

Definition basic_nack (delivery_tag : Z) (requeue : bool) : M unit :=
  modify (fun w =>
    set_acknowledgements (acknowledgements w ++ [Nack delivery_tag requeue]) w).

Definition upper (c : ascii) : ascii :=
  let n := nat_of_ascii c in
  if ((97 <=? n) && (n <=? 122))%nat then ascii_of_nat (n - 32) else c.

(** [str(u)] of a uuid given by its [hex]: the groups of 8, 4, 4, 4 and 12
    digits, with dashes. *)
Definition uuid_str (hex : string) : string :=
  (substring 0 8 hex ++ "-" ++ substring 8 4 hex ++ "-" ++ substring 12 4 hex
     ++ "-" ++ substring 16 4 hex ++ "-" ++ substring 20 12 hex)%string.

(** [1 +] the largest id of the table: the id the database gives the next
    row. *)
Definition fresh_id (ids : list Z) : Z := 1 + fold_right Z.max 0 ids.

(** ** Order Intake: services/order-service *)

Module OrderItemRequest.
Record t : Type := make {
  product_id : Z;
  quantity : Z;
  price : FiniteDecimal
}.

(** [item.model_dump(mode='json')]: a [Decimal] is dumped as its [str] *)
Definition model_dump (item : t) : json :=
  JDict [("product_id"%string, JInt (product_id item));
         ("quantity"%string, JInt (quantity item));
         ("price"%string, JStr (Decimal_str (to_Decimal (price item))))].
End OrderItemRequest.

Module CheckoutRequest.
Record t : Type := make {
  user_id : Z;
  user_email : string;
  items : list OrderItemRequest.t
}.
End CheckoutRequest.

Module OrderResponse.
Record t : Type := make {
  id : Z;
  user_id : Z;
  user_email : string;
  status : string;
  total_amount : FiniteDecimal;
  items : list json;
  processing_duration_ms : Z;
  created_at : string
}.
End OrderResponse.

(** [event_publisher.py] *)
Module EventPublisher.

Definition exchange_name : string := "ecommerce_events".

Definition connect : M unit :=
  try_except
    (pika_connect ;;
     modify (set_publisher_channel true))
    (fun e =>
       logger (Error "Failed to connect to RabbitMQ" e) ;;
       raise e).

Definition publish_event (routing_key : string) (event_data : json) : M unit :=
  w <- get ;;
  (if negb (publisher_channel w) then connect else ret tt) ;;
  try_except
    (let message := json_dumps event_data in
     basic_publish exchange_name routing_key message ;;
     logger (Info "Published event" (JStr routing_key)))
    (fun e =>
       logger (Error "Failed to publish event" e) ;;
       raise e).

End EventPublisher.

(** [main.py] of the order service *)
Module OrderService.

(** [db.add(order); db.commit(); db.refresh(order)]: the row gets its id
    and its [created_at] from the database. *)
Definition db_add
    (user_id : Z) (user_email status : string)
    (total_amount : FiniteDecimal) (items : list json) : M Order.t :=
  created <- now_isoformat ;;
  w <- get ;;
  let order :=
    Order.make (fresh_id (map Order.id (orders w))) user_id user_email
               status total_amount items created None in
  modify (set_orders (orders w ++ [order])) ;;
  ret order.

(** [db.commit()] after a change of [order]: the row of its id is
    written again. *)
Definition db_commit (order : Order.t) : M unit :=
  modify (fun w =>
    set_orders
      (map (fun r => if Order.id r =? Order.id order then order else r)
           (orders w))
      w).

Definition line_total (item : OrderItemRequest.t) : FiniteDecimal :=
  Decimal_mul_int (OrderItemRequest.price item)
                  (OrderItemRequest.quantity item).

Definition checkout (request : CheckoutRequest.t) : M OrderResponse.t :=
  start_time <- time_time ;;
  (* Step 1: Calculate total *)
  let total_amount := py_sum (map line_total (CheckoutRequest.items request)) in
  (* Step 2: Create order in database *)
  order <- db_add (CheckoutRequest.user_id request)
                  (CheckoutRequest.user_email request)
                  "pending"
                  total_amount
                  (map OrderItemRequest.model_dump
                       (CheckoutRequest.items request)) ;;
  logger (Info "Order created in database" (JInt (Order.id order))) ;;
  (* Step 3: Publish event to RabbitMQ *)
  event_id <- uuid4 ;;
  timestamp <- now_isoformat ;;
  let event_data :=
    JDict [("event_type"%string, JStr "order.created");
           ("event_id"%string, JStr (uuid_str event_id));
           ("timestamp"%string, JStr timestamp);
           ("order_id"%string, JInt (Order.id order));
           ("user_id"%string, JInt (Order.user_id order));
           ("user_email"%string, JStr (Order.user_email order));
           ("total_amount"%string,
             JStr (Decimal_str (to_Decimal (Order.total_amount order))));
           ("items"%string, JList (Order.items order))] in
  try_except
    (EventPublisher.publish_event "order.order.created" event_data)
    (fun e => logger (Error "Failed to publish event" e)) ;;
  (* Step 4: Calculate duration and return *)
  end_time <- time_time ;;
  let duration_ms := end_time - start_time in
  let order :=
    Order.make (Order.id order) (Order.user_id order) (Order.user_email order)
               (Order.status order) (Order.total_amount order)
               (Order.items order) (Order.created_at order)
               (Some duration_ms) in
  db_commit order ;;
  ret (OrderResponse.make
         (Order.id order) (Order.user_id order) (Order.user_email order)
         (Order.status order) (Order.total_amount order) (Order.items order)
         duration_ms (Order.created_at order)).

(** [order.processing_duration_ms or 0] *)
Definition or_0 (x : option Z) : Z :=
  match x with
  | Some d => d
  | None => 0
  end.

Definition response_of (order : Order.t) : OrderResponse.t :=
  OrderResponse.make
    (Order.id order) (Order.user_id order) (Order.user_email order)
    (Order.status order) (Order.total_amount order) (Order.items order)
    (or_0 (Order.processing_duration_ms order)) (Order.created_at order).

Definition get_order (order_id : Z) : M OrderResponse.t :=
  w <- get ;;
  match find (fun o => Order.id o =? order_id) (orders w) with
  | None => raise (HTTPException 404)
  | Some order => ret (response_of order)
  end.

Definition get_user_orders (user_id : Z) : M (list OrderResponse.t) :=
  w <- get ;;
  ret (map response_of
           (filter (fun o => Order.user_id o =? user_id) (orders w))).


End OrderService.

(** ** Payment Worker: services/payment-service/app/event_consumer.py *)

Module PaymentEventConsumer.

Definition exchange_name : string := "ecommerce_events".
Definition queue_name : string := "payment_service_queue".
Definition routing_key : string := "order.order.created".

(** [payment = Payment(...); db.add(payment); db.commit();
    db.refresh(payment)]: the row is written, the object gets its id and
    the name [payment] is bound to it. *)
Definition db_add (order_id user_id : json) (amount : Decimal)
    (status : string) : M Payment.t :=
  w <- get ;;
  let payment :=
    Payment.make (fresh_id (map Payment.id (payments w)))
                 order_id user_id amount status None in
  modify (set_payments (payments w ++ [payment])
                       (payment_commits w ++ [payment])) ;;
  modify (set_local_payment (Some payment)) ;;
  ret payment.

(** An assignment to an attribute of [payment], then [db.commit()]: the
    object that the name is bound to changes, and the row of its id is
    written again. *)
Definition db_commit (payment : Payment.t) : M unit :=
  modify (set_local_payment (Some payment)) ;;
  modify (fun w =>
    set_payments
      (map (fun r => if Payment.id r =? Payment.id payment then payment else r)
           (payments w))
      (payment_commits w ++ [payment])
      w).

Definition db_close : M unit := ret tt.

(** A read of the local variable [payment]. *)
Definition read_payment : M Payment.t :=
  w <- get ;;
  match local_payment w with
  | Some payment => ret payment
  | None => raise (UnboundLocalError "payment")
  end.

(** [f"TXN-{uuid.uuid4().hex[:12].upper()}"] *)
Definition transaction_id_of (hex : string) : string :=
  ("TXN-" ++ text_of (map upper (chars_of (substring 0 12 hex))))%string.

Definition publish_payment_event (payment : Payment.t) (order_data : json)
    : M unit :=
  event_id <- uuid4 ;;
  timestamp <- now_isoformat ;;
  user_email <- getitem order_data "user_email" ;;
  let event_data :=
    JDict [("event_type"%string, JStr "payment.processed");
           ("event_id"%string, JStr (uuid_str event_id));
           ("timestamp"%string, JStr timestamp);
           ("payment_id"%string, JInt (Payment.id payment));
           ("order_id"%string, Payment.order_id payment);
           ("user_id"%string, Payment.user_id payment);
           ("user_email"%string, user_email);
           ("amount"%string, JStr (Decimal_str (Payment.amount payment)));
           ("status"%string, JStr (Payment.status payment));
           ("transaction_id"%string,
             match Payment.transaction_id payment with
             | Some t => JStr t
             | None => JNull
             end)] in
  try_except
    (let message := json_dumps event_data in
     basic_publish exchange_name "payment.payment.processed" message)
    (fun e => logger (Error "Failed to publish event" e)).

Definition process_payment (order_data : json) : M unit :=
  (* a new frame: no local variable is bound *)
  modify (set_local_payment None) ;;
  order_id <- getitem order_data "order_id" ;;
  logger (Info "Processing payment for order" order_id) ;;
  total_amount <- getitem order_data "total_amount" ;;
  logger (Info "Amount" total_amount) ;;
  (* db = SessionLocal() *)
  try_finally
    (try_except
       (order_id <- getitem order_data "order_id" ;;
        user_id <- getitem order_data "user_id" ;;
        total_amount <- getitem order_data "total_amount" ;;
        amount <- lift (Decimal_new total_amount) ;;
        payment <- db_add order_id user_id amount "pending" ;;
        (* Simulate payment gateway call *)
        payment_gateway ;;
        (* Update payment status *)
        hex <- uuid4 ;;
        let payment :=
          Payment.make (Payment.id payment) (Payment.order_id payment)
                       (Payment.user_id payment) (Payment.amount payment)
                       "completed" (Some (transaction_id_of hex)) in
        db_commit payment ;;
        (* Publish PaymentProcessed event *)
        publish_payment_event payment order_data)
       (fun e =>
          logger (Error "Payment failed" e) ;;
          (* if payment: an object of the model class is true *)
          payment <- read_payment ;;
          let payment :=
            Payment.make (Payment.id payment) (Payment.order_id payment)
                         (Payment.user_id payment) (Payment.amount payment)
                         "failed" (Payment.transaction_id payment) in
          db_commit payment))
    db_close.

Definition callback (delivery_tag : Z) (body : Body) : M unit :=
  try_except
    (event_data <- json_loads body ;;
     event_type <- getitem event_data "event_type" ;;
     logger (Info "Received event" event_type) ;;
     process_payment event_data ;;
     basic_ack delivery_tag)
    (fun e =>
       logger (Error "Error processing message" e) ;;
       basic_nack delivery_tag false).

End PaymentEventConsumer.

(** ** Email Worker: services/email-service/app/event_consumer.py *)

Module EmailEventConsumer.

Definition exchange_name : string := "ecommerce_events".
Definition queue_name : string := "email_service_queue".
Definition routing_key : string := "payment.payment.processed".

Definition send_confirmation_email (payment_data : json) : M unit :=
  try_except
    (user_email <- getitem payment_data "user_email" ;;
     order_id <- getitem payment_data "order_id" ;;
     amount <- getitem payment_data "amount" ;;
     transaction_id <- dict_get payment_data "transaction_id" (JStr "N/A") ;;
     send_order_confirmation_email user_email order_id amount transaction_id)
    (fun e => logger (Error "Failed to send email" e)).

Definition callback (delivery_tag : Z) (body : Body) : M unit :=
  try_except
    (event_data <- json_loads body ;;
     event_type <- getitem event_data "event_type" ;;
     logger (Info "Received event" event_type) ;;
     status <- dict_get event_data "status" JNull ;;
     (if eq_str status "completed"
      then send_confirmation_email event_data
      else logger (Warning "Payment not completed, skipping email")) ;;
     basic_ack delivery_tag)
    (fun e =>
       logger (Error "Error processing message" e) ;;
       basic_nack delivery_tag false).

End EmailEventConsumer.

(** ** The event contracts: shared/events.py *)

Module EventRoutingKeys.
Definition ORDER_CREATED : string := "order.order.created".
Definition PAYMENT_PROCESSED : string := "payment.payment.processed".
Definition PAYMENT_FAILED : string := "payment.payment.failed".
Definition EMAIL_SENT : string := "email.email.sent".
End EventRoutingKeys.

(** ** The operations of the whole system *)

(** What can happen to the world: a request to Order Intake, or the
    delivery of a message to one of the two workers. *)
Inductive Operation : Type :=
| Checkout (request : CheckoutRequest.t)
| GetOrder (order_id : Z)
| GetUserOrders (user_id : Z)
| DeliverToPayment (delivery_tag : Z) (body : Body)
| DeliverToEmail (delivery_tag : Z) (body : Body).

Definition run (op : Operation) (w : World) : World :=
  match op with
  | Checkout request => snd (OrderService.checkout request w)
  | GetOrder order_id => snd (OrderService.get_order order_id w)
  | GetUserOrders user_id => snd (OrderService.get_user_orders user_id w)
  | DeliverToPayment tag body => snd (PaymentEventConsumer.callback tag body w)
  | DeliverToEmail tag body => snd (EmailEventConsumer.callback tag body w)
  end.

Definition run_all (ops : list Operation) (w : World) : World :=
  fold_left (fun w op => run op w) ops w.

(** The row of an order, by its id. *)
Definition order_row (order_id : Z) (w : World) : option Order.t :=
  find (fun o => Order.id o =? order_id) (orders w).


(** ** Words for the statements *)

(** The row that [checkout] leaves for a request, in the world it is
    called in: the next id, the total of the lines, the first coming
    timestamp and the time between the two readings of the clock. *)
Definition created_order (request : CheckoutRequest.t) (w : World) : Order.t :=
  Order.make
    (fresh_id (map Order.id (orders w)))
    (CheckoutRequest.user_id request)
    (CheckoutRequest.user_email request)
    "pending"
    (py_sum (map OrderService.line_total (CheckoutRequest.items request)))
    (map OrderItemRequest.model_dump (CheckoutRequest.items request))
    (hd EmptyString (timestamps (env w)))
    (Some (hd 0 (tl (clock (env w))) - hd 0 (clock (env w)))).

(** The [order.created] event of an order. *)
Definition order_created_event (order : Order.t) (event_id timestamp : string)
    : list (string * json) :=
  [("event_type"%string, JStr "order.created");
   ("event_id"%string, JStr (uuid_str event_id));
   ("timestamp"%string, JStr timestamp);
   ("order_id"%string, JInt (Order.id order));
   ("user_id"%string, JInt (Order.user_id order));
   ("user_email"%string, JStr (Order.user_email order));
   ("total_amount"%string,
     JStr (Decimal_str (to_Decimal (Order.total_amount order))));
   ("items"%string, JList (Order.items order))].

(** The message that [checkout] publishes in a world. *)
Definition order_created_message (request : CheckoutRequest.t) (w : World)
    : Message :=
  message EventPublisher.exchange_name EventRoutingKeys.ORDER_CREATED
    (JsonText
       (JDict (order_created_event (created_order request w)
                 (hd EmptyString (uuids (env w)))
                 (hd EmptyString (tl (timestamps (env w)))))))
    2 "application/json".

(** The coming publish of Order Intake will raise: the connection fails
    where there is no channel yet, or [basic_publish] fails. *)
Definition broker_down (w : World) : bool :=
  if publisher_channel w then hd false (publish_faults (env w))
  else hd false (connect_faults (env w)) || hd false (publish_faults (env w)).

(** The same world with a broker that takes every connection and every
    message. *)
Definition calm (w : World) : World :=
  set_env (set_connect_faults [] (set_publish_faults [] (env w))) w.

(** The versions of the row that the Payment Worker writes for an event. *)
Definition pending_payment (order_id user_id : json) (amount : Decimal)
    (w : World) : Payment.t :=
  Payment.make (fresh_id (map Payment.id (payments w)))
               order_id user_id amount "pending" None.

Definition completed_payment (order_id user_id : json) (amount : Decimal)
    (w : World) : Payment.t :=
  Payment.make (fresh_id (map Payment.id (payments w)))
               order_id user_id amount "completed"
               (Some (PaymentEventConsumer.transaction_id_of
                        (hd EmptyString (uuids (env w))))).

Definition failed_payment (order_id user_id : json) (amount : Decimal)
    (transaction_id : option string) (w : World) : Payment.t :=
  Payment.make (fresh_id (map Payment.id (payments w)))
               order_id user_id amount "failed" transaction_id.

(** The [payment.processed] event of a completed payment. *)
Definition payment_processed_event (payment : Payment.t) (user_email : json)
    (event_id timestamp : string) : list (string * json) :=
  [("event_type"%string, JStr "payment.processed");
   ("event_id"%string, JStr (uuid_str event_id));
   ("timestamp"%string, JStr timestamp);
   ("payment_id"%string, JInt (Payment.id payment));
   ("order_id"%string, Payment.order_id payment);
   ("user_id"%string, Payment.user_id payment);
   ("user_email"%string, user_email);
   ("amount"%string, JStr (Decimal_str (Payment.amount payment)));
   ("status"%string, JStr (Payment.status payment));
   ("transaction_id"%string,
     match Payment.transaction_id payment with
     | Some t => JStr t
     | None => JNull
     end)].

Definition payment_processed_message (payment : Payment.t) (user_email : json)
    (w : World) : Message :=
  message PaymentEventConsumer.exchange_name EventRoutingKeys.PAYMENT_PROCESSED
    (JsonText
       (JDict (payment_processed_event payment user_email
                 (hd EmptyString (tl (uuids (env w))))
                 (hd EmptyString (timestamps (env w))))))
    2 "application/json".

(** The two consumers, and for each what its callback does with a message
    inside its [try], before it acknowledges. *)
Inductive Consumer : Type := PaymentWorker | EmailWorker.

Definition callback_of (c : Consumer) : Z -> Body -> M unit :=
  match c with
  | PaymentWorker => PaymentEventConsumer.callback
  | EmailWorker => EmailEventConsumer.callback
  end.

Definition handling (c : Consumer) (body : Body) : M unit :=
  match c with
  | PaymentWorker =>
      event_data <- json_loads body ;;
      event_type <- getitem event_data "event_type" ;;
      logger (Info "Received event" event_type) ;;
      PaymentEventConsumer.process_payment event_data
  | EmailWorker =>
      event_data <- json_loads body ;;
      event_type <- getitem event_data "event_type" ;;
      logger (Info "Received event" event_type) ;;
      status <- dict_get event_data "status" JNull ;;
      if eq_str status "completed"
      then EmailEventConsumer.send_confirmation_email event_data
      else logger (Warning "Payment not completed, skipping email")
  end.

(** The ways an [order.created] event can fail before [payment] is bound,
    and the exception that then reaches the callback. *)
Inductive Defect : Type :=
| LacksOrderId
| LacksTotalAmount
| LacksUserId
| BadTotalAmount.

Definition has_defect (x : Defect) (d : list (string * json)) : Prop :=
  match x with
  | LacksOrderId => lookup "order_id" d = None
  | LacksTotalAmount =>
      lookup "order_id" d <> None /\ lookup "total_amount" d = None
  | LacksUserId =>
      lookup "order_id" d <> None /\ lookup "total_amount" d <> None
      /\ lookup "user_id" d = None
  | BadTotalAmount =>
      lookup "order_id" d <> None /\ lookup "user_id" d <> None
      /\ exists v e, lookup "total_amount" d = Some v
                     /\ Decimal_new v = Raise e
  end.

Definition reaches_callback (x : Defect) : exn :=
  match x with
  | LacksOrderId => KeyError "order_id"
  | LacksTotalAmount => KeyError "total_amount"
  | LacksUserId | BadTotalAmount => UnboundLocalError "payment"
  end.

(** A computation keeps a relation on a view of the world: the relation
    holds between the view before and the view after, however the
    computation ends. *)
Definition stable {X A : Type} (view : World -> X) (R : X -> X -> Prop)
    (m : M A) : Prop :=
  forall w, R (view w) (view (snd (m w))).

(** The messages that are not the [payment.failed] of the schema. *)
Definition not_payment_failed (m : Message) : Prop :=
  routing_key m <> EventRoutingKeys.PAYMENT_FAILED.

(** The exchange only grows, and by such messages. *)
Definition grows_by_others (l l' : list Message) : Prop :=
  exists new, l' = l ++ new /\ Forall not_payment_failed new.

(** *** The claims that the code does not meet, as they are stated *)



(** The exception that reaches the callback is the [UnboundLocalError] of
    the except branch; no row, and a nack without requeue. *)
Definition unbound_payment_reaches_callback
    (tag : Z) (event : json) (w : World) : Prop :=
  let w' := snd (PaymentEventConsumer.callback tag (JsonText event) w) in
  payments w' = payments w
  /\ In (Error "Error processing message" (UnboundLocalError "payment"))
        (log w')
  /\ acknowledgements w' = acknowledgements w ++ [Nack tag false].

(** ** The scenario of the specification *)

Definition scenario_request : CheckoutRequest.t :=
  CheckoutRequest.make 42 "buyer@example.com"
    [OrderItemRequest.make 1 2 (finite false 1000 (-2));
     OrderItemRequest.make 2 1 (finite false 500 (-2))].

Definition no_faults : Outside :=
  outside [] [] [] []
    [1000; 1040]
    ["0123456789abcdef0123456789abcdef"%string;
     "89abcdef0123456789abcdef01234567"%string;
     "fedcba9876543210fedcba9876543210"%string]
    ["2024-01-01T10:00:00"%string; "2024-01-01T10:00:00.020000"%string;
     "2024-01-01T10:00:01.100000"%string].

(** The same, with a broker that refuses the first message. *)
Definition broker_refuses : Outside :=
  set_publish_faults [true] no_faults.

(** The same, with a gateway whose first call raises. *)
Definition gateway_fails : Outside :=
  set_gateway_faults [true] no_faults.

(** The same, with a mail server whose first send raises. *)
Definition mail_fails : Outside :=
  set_email_faults [true] no_faults.

Definition empty_world (o : Outside) : World :=
  world [] [] [] false [] [] [] [] None o.

(** The [order.created] event that the scenario's checkout publishes. *)
Definition scenario_event : list (string * json) :=
  order_created_event (created_order scenario_request (empty_world no_faults))
    "0123456789abcdef0123456789abcdef" "2024-01-01T10:00:00.020000".

(** The [payment.processed] event that the Payment Worker publishes for
    it. *)
Definition scenario_payment_processed : list (string * json) :=
  payment_processed_event
    (completed_payment (JInt 1) (JInt 42) (Finite false 2500 (-2))
       (empty_world no_faults))
    (JStr "buyer@example.com")
    "89abcdef0123456789abcdef01234567" "2024-01-01T10:00:00".

(** The same events, each without one of its fields. *)
Definition without (key : string) (d : list (string * json))
    : list (string * json) :=
  filter (fun kv => negb (String.eqb (fst kv) key)) d.

(** ** Words for the properties of the whole pipeline *)


(** The messages that the Email Worker handles to the end: a JSON object
    with [event_type]. *)
Definition email_accepts (b : Body) : bool :=
  match b with
  | JsonText (JDict d) =>
      match lookup "event_type" d with
      | Some _ => true
      | None => false
      end
  | _ => false
  end.

(** The field of an event is the given text. *)
Definition has_text (v : option json) (text : string) : bool :=
  match v with
  | Some x => eq_str x text
  | None => false
  end.

(** A message of the pipeline: on the exchange of the three services,
    persistent, of type JSON, and either an [order.created] event under the
    key of the Payment Worker's queue or a [payment.processed] event of a
    completed payment under the key of the Email Worker's queue. *)
Definition pipeline_event (m : Message) : bool :=
  String.eqb (exchange m) "ecommerce_events"
  && (delivery_mode m =? 2)
  && String.eqb (content_type m) "application/json"
  && match body m with
     | JsonText (JDict d) =>
         (String.eqb (routing_key m) PaymentEventConsumer.routing_key
          && has_text (lookup "event_type" d) "order.created")
         || (String.eqb (routing_key m) EmailEventConsumer.routing_key
             && has_text (lookup "event_type" d) "payment.processed"
             && has_text (lookup "status" d) "completed")
     | _ => false
     end.

(** A list of messages grows by messages that all have a property. *)
Definition grows_with (P : Message -> bool) (l l' : list Message) : Prop :=
  exists new, l' = l ++ new /\ forallb P new = true.

(** The requests to [checkout] among some operations. *)
Definition is_checkout (op : Operation) : bool :=
  match op with
  | Checkout _ => true
  | _ => false
  end.

(** What the broker connection of Order Intake is: whether there is a
    channel, and the connections still to come. *)
Definition connection (w : World) : bool * list bool :=
  (publisher_channel w, connect_faults (env w)).

(** ** The API gateway: api-gateway/app/main.py *)

(** What a forwarded call comes back with: [httpx.RequestError], or a
    response, of which the gateway reads the status code and the
    content. *)
Inductive HttpAnswer : Type :=
| RequestError
| Response (status_code : Z) (content : Body).

(** The routes of the order service, as the gateway sees them over HTTP:
    what FastAPI makes of the endpoints of [main.py]. *)
Module OrderServiceApp.

(** An [OrderResponse] as JSON: the fields of the class in their order,
    the decimal as its text, the timestamp as its text. *)
Definition response_json (r : OrderResponse.t) : json :=
  JDict [("id"%string, JInt (OrderResponse.id r));
         ("user_id"%string, JInt (OrderResponse.user_id r));
         ("user_email"%string, JStr (OrderResponse.user_email r));
         ("status"%string, JStr (OrderResponse.status r));
         ("total_amount"%string,
           JStr (Decimal_str (to_Decimal (OrderResponse.total_amount r))));
         ("items"%string, JList (OrderResponse.items r));
         ("processing_duration_ms"%string,
           JInt (OrderResponse.processing_duration_ms r));
         ("created_at"%string, JStr (OrderResponse.created_at r))].

(** The answer to a request: 200 with the JSON of the response that the
    endpoint returns; the status of the [HTTPException] that it raises,
    which in this service is the 404 of [get_order]; 500 with a text that
    is no JSON for any other exception. *)
Definition serve (endpoint : M OrderResponse.t) : M HttpAnswer :=
  fun w =>
    match endpoint w with
    | (Ok r, w') => (Ok (Response 200 (JsonText (response_json r))), w')
    | (Raise (HTTPException status_code), w') =>
        (Ok (Response status_code
               (JsonText (JDict [("detail"%string, JStr "Order not found")]))),
         w')
    | (Raise _, w') =>
        (Ok (Response 500 (BadText "Internal Server Error")), w')
    end.


(** [GET /orders/{order_id}] *)
Definition get_order (order_id : Z) : M HttpAnswer :=
  serve (OrderService.get_order order_id).

End OrderServiceApp.

(** The endpoints of the gateway that forward to the order service.  The
    forwarded call is a parameter: the client that posts a JSON body to
    [/checkout], the client that gets [/orders/{order_id}].  The lines
    that the gateway logs are not kept, the log of the world being that of
    the three services; what a log line reads of the response is read. *)
Module Gateway.

(** [request.model_dump(mode='json')] *)
Definition model_dump (request : CheckoutRequest.t) : json :=
  JDict [("user_id"%string, JInt (CheckoutRequest.user_id request));
         ("user_email"%string, JStr (CheckoutRequest.user_email request));
         ("items"%string,
           JList (map OrderItemRequest.model_dump
                      (CheckoutRequest.items request)))].

Definition checkout (post : json -> M HttpAnswer)
    (request : CheckoutRequest.t) : M json :=
  answer <- post (model_dump request) ;;
  match answer with
  | RequestError => raise (HTTPException 503)
  | Response status_code content =>
      if status_code =? 200 then
        data <- json_loads content ;;
        (* the two log lines read [data['id']] and
           [data['processing_duration_ms']] *)
        getitem data "id" ;;
        getitem data "processing_duration_ms" ;;
        ret data
      else raise (HTTPException status_code)
  end.

Definition get_order (get : Z -> M HttpAnswer) (order_id : Z) : M json :=
  answer <- get order_id ;;
  match answer with
  | RequestError => raise (HTTPException 503)
  | Response status_code content =>
      if status_code =? 200 then json_loads content
      else if status_code =? 404 then raise (HTTPException 404)
      else raise (HTTPException status_code)
  end.

Definition get_order_status (get : Z -> M HttpAnswer) (order_id : Z)
    : M json :=
  answer <- get order_id ;;
  match answer with
  | RequestError => raise (HTTPException 503)
  | Response status_code content =>
      if status_code =? 200 then
        order_data <- json_loads content ;;
        id <- getitem order_data "id" ;;
        status <- getitem order_data "status" ;;
        payment <- dict_get order_data "payment" JNull ;;
        ret (JDict [("id"%string, id);
                    ("status"%string, status);
                    ("payment"%string, payment)])
      else if status_code =? 404 then raise (HTTPException 404)
      else raise (HTTPException status_code)
  end.

End Gateway.

(** ** The monolith: ecommerce-monolith/backend/app *)

(** The synchronous checkout of the monolith, [OrderService] of
    [services/order_service.py], with the two services it calls and the
    router that calls it.  The database is a session over the tables: the
    session sees what the open transaction has written, [commit] makes it
    what the database holds and [rollback] goes back to that.  The ids
    that the database gives are taken from counters that a rollback does
    not put back.  Of a row the model keeps the columns that the code
    reads or writes; the timestamps that the database sets are left out,
    and so is what the code prints. *)
Module Monolith.

Inductive exn : Type :=
| ValueError (message : string)
| AttributeError (message : string)
| HTTPException (status_code : Z) (detail : string).

(** [str(e)] *)
Definition str_exn (e : exn) : string :=
  match e with
  | ValueError msg => msg
  | AttributeError msg => msg
  | HTTPException status_code detail =>
      (text_of (str_int status_code) ++ ": " ++ detail)%string
  end.

Inductive Outcome (A : Type) : Type :=
| Return (a : A)
| Throw (e : exn).

Arguments Return {A} a.
Arguments Throw {A} e.

(** A Python [float], kept as the arithmetic that gave it: the checkout
    converts, multiplies and adds floats and never looks at one, so
    nothing in it depends on how the additions round. *)
Inductive Float : Type :=
| float_of_int (n : Z)
| float_of_Decimal (d : FiniteDecimal)
| float_mul (a b : Float)
| float_add (a b : Float).

(** [models/order.py] *)
Inductive OrderStatus : Type :=
| PENDING | PAID | PROCESSING | SHIPPED | DELIVERED | CANCELLED | FAILED.

Module User.
Record t : Type := make { id : Z; email : string }.
End User.

Module Cart.
Record t : Type := make { id : Z; user_id : Z }.
End Cart.

Module CartItem.
Record t : Type := make {
  id : Z;
  cart_id : Z;
  product_id : Z;
  quantity : Z;
  price_snapshot : FiniteDecimal
}.
End CartItem.

Module Inventory.
Record t : Type := make {
  id : Z;
  product_id : Z;
  quantity : Z;
  reserved_quantity : Z
}.

(** The property [available] *)
Definition available (i : t) : Z := quantity i - reserved_quantity i.
End Inventory.

Module Order.
Record t : Type := make {
  id : Z;
  user_id : Z;
  status : OrderStatus;
  total_amount : Float;
  shipping_address : string;
  processing_duration_ms : option Z
}.
End Order.

Module OrderItem.
Record t : Type := make {
  id : Z;
  order_id : Z;
  product_id : Z;
  quantity : Z;
  price_snapshot : FiniteDecimal
}.
End OrderItem.

Module Payment.
Record t : Type := make {
  id : Z;
  order_id : Z;
  amount : Float;
  status : string;
  payment_method : string;
  transaction_id : string
}.
End Payment.

Module Notification.
Record t : Type := make {
  id : Z;
  user_id : Z;
  type : string;
  message : string;
  read : Z
}.
End Notification.

Record Tables : Type := tables {
  users : list User.t;
  carts : list Cart.t;
  cart_items : list CartItem.t;
  inventory : list Inventory.t;
  orders : list Order.t;
  order_items : list OrderItem.t;
  payments : list Payment.t;
  notifications : list Notification.t
}.

(** A call of [PaymentService.process_payment], with what came of it. *)
Record GatewayCall : Type := gateway_call {
  for_order : Z;
  of_amount : Float;
  by_method : string;
  succeeded : bool
}.

(** What an e-mail says, kept as the values its text is made of. *)
Inductive EmailBody : Type :=
| OrderConfirmation (order_id : Z) (total : Float)
| ShippingNotification (order_id : Z).

(** A call of [EmailService.send_email], and whether the mail server took
    the message. *)
Record Email : Type := email {
  to : string;
  subject : string;
  body : EmailBody;
  delivered : bool
}.

Record State : Type := state {
  (** what the database holds *)
  committed : Tables;
  (** what the session sees *)
  session : Tables;
  next_order_id : Z;
  next_order_item_id : Z;
  next_payment_id : Z;
  next_notification_id : Z;
  gateway_calls : list GatewayCall;
  sent : list Email;
  (** the coming answers of [random.random() > 0.05] *)
  draws : list bool;
  (** the coming uuids, as their [hex] *)
  uuids : list string;
  (** the coming readings of the clock, in milliseconds *)
  clock : list Z;
  (** whether the coming connections to the mail server fail *)
  smtp_faults : list bool
}.

Definition M (A : Type) : Type := State -> Outcome A * State.

Definition ret {A} (a : A) : M A := fun s => (Return a, s).

Definition throw {A} (e : exn) : M A := fun s => (Throw e, s).

Definition bind {A B} (m : M A) (k : A -> M B) : M B :=
  fun s =>
    match m s with
    | (Return a, s') => k a s'
    | (Throw e, s') => (Throw e, s')
    end.

Declare Scope mono_scope.
Delimit Scope mono_scope with mono.
Notation "x <- m ;; k" := (bind m (fun x => k))
  (at level 100, m at next level, right associativity) : mono_scope.
Notation "m ;; k" := (bind m (fun _ => k))
  (at level 100, right associativity) : mono_scope.
Local Open Scope mono_scope.

(** [try: m  except Exception as e: handler e] *)
Definition try_except {A} (m : M A) (handler : exn -> M A) : M A :=
  fun s =>
    match m s with
    | (Return a, s') => (Return a, s')
    | (Throw e, s') => handler e s'
    end.

(** [for x in l: acc = body acc x] *)
Fixpoint for_fold {A B} (l : list A) (acc : B) (body : B -> A -> M B) : M B :=
  match l with
  | [] => ret acc
  | x :: l' => acc' <- body acc x ;; for_fold l' acc' body
  end.

(** [for x in l: body x] *)
Definition for_each {A} (l : list A) (body : A -> M unit) : M unit :=
  for_fold l tt (fun _ x => body x).

(** *** The session *)

Definition set_session (t : Tables) (s : State) : State :=
  state (committed s) t (next_order_id s) (next_order_item_id s)
        (next_payment_id s) (next_notification_id s) (gateway_calls s)
        (sent s) (draws s) (uuids s) (clock s) (smtp_faults s).

Definition read : M Tables := fun s => (Return (session s), s).

Definition write (f : Tables -> Tables) : M unit :=
  fun s => (Return tt, set_session (f (session s)) s).

(** [db.commit()] *)
Definition commit : M unit :=
  fun s =>
    (Return tt,
     state (session s) (session s) (next_order_id s) (next_order_item_id s)
           (next_payment_id s) (next_notification_id s) (gateway_calls s)
           (sent s) (draws s) (uuids s) (clock s) (smtp_faults s)).

(** [db.rollback()] *)
Definition rollback : M unit :=
  fun s => (Return tt, set_session (committed s) s).

(** [db.flush()]: the session already sees what was written. *)
Definition flush : M unit := ret tt.

(** The first row of a list that a change applies to: the object that
    [first()] gave, changed in place. *)
Fixpoint update_first {A} (p : A -> bool) (f : A -> A) (l : list A) : list A :=
  match l with
  | [] => []
  | x :: l' => if p x then f x :: l' else x :: update_first p f l'
  end.

Definition set_inventory (x : list Inventory.t) (t : Tables) : Tables :=
  tables (users t) (carts t) (cart_items t) x (orders t) (order_items t)
         (payments t) (notifications t).

Definition set_cart_items (x : list CartItem.t) (t : Tables) : Tables :=
  tables (users t) (carts t) x (inventory t) (orders t) (order_items t)
         (payments t) (notifications t).

Definition set_orders (x : list Order.t) (t : Tables) : Tables :=
  tables (users t) (carts t) (cart_items t) (inventory t) x (order_items t)
         (payments t) (notifications t).

Definition set_order_items (x : list OrderItem.t) (t : Tables) : Tables :=
  tables (users t) (carts t) (cart_items t) (inventory t) (orders t) x
         (payments t) (notifications t).

Definition set_payments (x : list Payment.t) (t : Tables) : Tables :=
  tables (users t) (carts t) (cart_items t) (inventory t) (orders t)
         (order_items t) x (notifications t).

Definition set_notifications (x : list Notification.t) (t : Tables) : Tables :=
  tables (users t) (carts t) (cart_items t) (inventory t) (orders t)
         (order_items t) (payments t) x.

(** [db.query(Inventory).filter(Inventory.product_id == product_id)
    .first()] *)
Definition query_inventory (product_id : Z) : M (option Inventory.t) :=
  t <- read ;;
  ret (find (fun i => Inventory.product_id i =? product_id) (inventory t)).

(** A change of the inventory row of a product, the one that [first()]
    gives. *)
Definition change_inventory (product_id : Z) (f : Inventory.t -> Inventory.t)
    : M unit :=
  write (fun t =>
    set_inventory
      (update_first (fun i => Inventory.product_id i =? product_id) f
                    (inventory t))
      t).

(** An assignment to an attribute of [order]: the object changes, and
    with it the row of its id that the session sees. *)
Definition save_order (order : Order.t) : M unit :=
  write (fun t =>
    set_orders
      (update_first (fun o => Order.id o =? Order.id order) (fun _ => order)
                    (orders t))
      t).

(** [db.add(order); db.flush()]: the row gets the next id. *)
Definition add_order (user_id : Z) (status : OrderStatus)
    (total_amount : Float) (shipping_address : string) : M Order.t :=
  fun s =>
    let order :=
      Order.make (next_order_id s) user_id status total_amount
                 shipping_address None in
    (Return order,
     state (committed s) (set_orders (orders (session s) ++ [order]) (session s))
           (next_order_id s + 1) (next_order_item_id s)
           (next_payment_id s) (next_notification_id s) (gateway_calls s)
           (sent s) (draws s) (uuids s) (clock s) (smtp_faults s)).

Definition add_order_item (order_id product_id quantity : Z)
    (price_snapshot : FiniteDecimal) : M unit :=
  fun s =>
    let item :=
      OrderItem.make (next_order_item_id s) order_id product_id quantity
                     price_snapshot in
    (Return tt,
     state (committed s)
           (set_order_items (order_items (session s) ++ [item]) (session s))
           (next_order_id s) (next_order_item_id s + 1)
           (next_payment_id s) (next_notification_id s) (gateway_calls s)
           (sent s) (draws s) (uuids s) (clock s) (smtp_faults s)).

Definition add_payment (order_id : Z) (amount : Float)
    (status payment_method transaction_id : string) : M unit :=
  fun s =>
    let payment :=
      Payment.make (next_payment_id s) order_id amount status payment_method
                   transaction_id in
    (Return tt,
     state (committed s)
           (set_payments (payments (session s) ++ [payment]) (session s))
           (next_order_id s) (next_order_item_id s)
           (next_payment_id s + 1) (next_notification_id s) (gateway_calls s)
           (sent s) (draws s) (uuids s) (clock s) (smtp_faults s)).

Definition add_notification (user_id : Z) (type message : string) (read : Z)
    : M unit :=
  fun s =>
    let notification :=
      Notification.make (next_notification_id s) user_id type message read in
    (Return tt,
     state (committed s)
           (set_notifications (notifications (session s) ++ [notification])
                              (session s))
           (next_order_id s) (next_order_item_id s)
           (next_payment_id s) (next_notification_id s + 1) (gateway_calls s)
           (sent s) (draws s) (uuids s) (clock s) (smtp_faults s)).

(** *** The outside *)

(** [time.time()], in milliseconds *)
Definition time_time : M Z :=
  fun s =>
    (Return (hd 0 (clock s)),
     state (committed s) (session s) (next_order_id s) (next_order_item_id s)
           (next_payment_id s) (next_notification_id s) (gateway_calls s)
           (sent s) (draws s) (uuids s) (tl (clock s)) (smtp_faults s)).

(** [services/payment_service.py] *)
Module PaymentService.

(** [process_payment]: the transaction id is made of a new uuid, the
    payment succeeds when the draw is above 0.05, and the call is
    recorded. *)
Definition process_payment (order_id : Z) (amount : Float)
    (payment_method : string) : M (bool * string * string) :=
  fun s =>
    let transaction_id :=
      ("txn_" ++ substring 0 12 (hd EmptyString (uuids s)))%string in
    let success := hd true (draws s) in
    let status := if success then "completed"%string else "failed"%string in
    (Return (success, status, transaction_id),
     state (committed s) (session s) (next_order_id s) (next_order_item_id s)
           (next_payment_id s) (next_notification_id s)
           (gateway_calls s
              ++ [gateway_call order_id amount payment_method success])
           (sent s) (tl (draws s)) (tl (uuids s)) (clock s) (smtp_faults s)).

End PaymentService.

(** [services/email_service.py] *)
Module EmailService.

(** [send_email]: the message is built and handed to the mail server; a
    failure of the server is caught inside, and the answer is [True]
    either way. *)
Definition send_email (to_email subject : string) (body : EmailBody)
    : M bool :=
  fun s =>
    (Return true,
     state (committed s) (session s) (next_order_id s) (next_order_item_id s)
           (next_payment_id s) (next_notification_id s) (gateway_calls s)
           (sent s
              ++ [email to_email subject body
                        (negb (hd false (smtp_faults s)))])
           (draws s) (uuids s) (clock s) (tl (smtp_faults s))).

Definition send_order_confirmation (order_id : Z) (user_email : string)
    (total : Float) : M bool :=
  send_email user_email
    ("Order Confirmation #" ++ text_of (str_int order_id))%string
    (OrderConfirmation order_id total).

Definition send_shipping_notification (order_id : Z) (user_email : string)
    : M bool :=
  send_email user_email
    ("Your Order #" ++ text_of (str_int order_id) ++ " Has Shipped!")%string
    (ShippingNotification order_id).

End EmailService.

(** [services/order_service.py] *)
Module OrderService.

(** [cart.items]: the items of the cart, as the session has them. *)
Definition items_of (cart : Cart.t) : M (list CartItem.t) :=
  t <- read ;;
  ret (filter (fun i => CartItem.cart_id i =? Cart.id cart) (cart_items t)).

(** Steps 2 and 3, for one item: the stock is checked and the line is
    added to the total. *)
Definition check_item (total_amount : Float) (cart_item : CartItem.t)
    : M Float :=
  inventory <- query_inventory (CartItem.product_id cart_item) ;;
  match inventory with
  | None =>
      throw (ValueError
               ("Insufficient stock for product "
                  ++ text_of (str_int (CartItem.product_id cart_item))))
  | Some inventory =>
      if Inventory.available inventory <? CartItem.quantity cart_item then
        throw (ValueError
                 ("Insufficient stock for product "
                    ++ text_of (str_int (CartItem.product_id cart_item))))
      else
        ret (float_add total_amount
               (float_mul (float_of_Decimal (CartItem.price_snapshot cart_item))
                          (float_of_int (CartItem.quantity cart_item))))
  end.

(** Step 4, for one item: [inventory.reserved_quantity +=
    cart_item.quantity] *)
Definition reserve_item (cart_item : CartItem.t) : M unit :=
  inventory <- query_inventory (CartItem.product_id cart_item) ;;
  match inventory with
  | None =>
      throw (AttributeError
               "'NoneType' object has no attribute 'reserved_quantity'")
  | Some _ =>
      change_inventory (CartItem.product_id cart_item)
        (fun i =>
           Inventory.make (Inventory.id i) (Inventory.product_id i)
             (Inventory.quantity i)
             (Inventory.reserved_quantity i + CartItem.quantity cart_item))
  end.

(** Step 9, for one item: the quantity and the reservation go down. *)
Definition reduce_item (cart_item : CartItem.t) : M unit :=
  inventory <- query_inventory (CartItem.product_id cart_item) ;;
  match inventory with
  | None =>
      throw (AttributeError "'NoneType' object has no attribute 'quantity'")
  | Some _ =>
      change_inventory (CartItem.product_id cart_item)
        (fun i =>
           Inventory.make (Inventory.id i) (Inventory.product_id i)
             (Inventory.quantity i - CartItem.quantity cart_item)
             (Inventory.reserved_quantity i - CartItem.quantity cart_item))
  end.

Definition create_order_from_cart (user_id : Z)
    (shipping_address payment_method : string) : M Order.t :=
  start_time <- time_time ;;
  try_except
    ((* Step 1: Get user's cart *)
     t <- read ;;
     match find (fun c => Cart.user_id c =? user_id) (carts t) with
     | None => throw (ValueError "Cart is empty")
     | Some cart =>
         items <- items_of cart ;;
         match items with
         | [] => throw (ValueError "Cart is empty")
         | _ :: _ =>
             (* Step 2 & 3: Validate cart and check inventory *)
             total_amount <- for_fold items (float_of_int 0) check_item ;;
             (* Step 4: Reserve inventory *)
             for_each items reserve_item ;;
             flush ;;
             (* Step 5: Create order record *)
             order <- add_order user_id PENDING total_amount shipping_address ;;
             (* Step 6: Create order items *)
             for_each items
               (fun cart_item =>
                  add_order_item (Order.id order)
                    (CartItem.product_id cart_item)
                    (CartItem.quantity cart_item)
                    (CartItem.price_snapshot cart_item)) ;;
             flush ;;
             (* Step 7: Process payment *)
             paid <- PaymentService.process_payment (Order.id order)
                       total_amount payment_method ;;
             let '(success, status, transaction_id) := paid in
             if negb success then throw (ValueError "Payment failed")
             else
               (* Step 8: Create payment record *)
               add_payment (Order.id order) total_amount status payment_method
                           transaction_id ;;
               let order :=
                 Order.make (Order.id order) (Order.user_id order) PAID
                   (Order.total_amount order) (Order.shipping_address order)
                   (Order.processing_duration_ms order) in
               save_order order ;;
               flush ;;
               (* Step 9: Reduce inventory *)
               for_each items reduce_item ;;
               flush ;;
               (* Step 10: Send confirmation email *)
               t <- read ;;
               match find (fun u => User.id u =? user_id) (users t) with
               | None =>
                   throw (AttributeError
                            "'NoneType' object has no attribute 'email'")
               | Some user =>
                   EmailService.send_order_confirmation (Order.id order)
                     (User.email user) total_amount ;;
                   (* Step 11: Create notification *)
                   add_notification user_id "order_confirmation"
                     ("Your order #" ++ text_of (str_int (Order.id order))
                        ++ " has been confirmed!")
                     0 ;;
                   flush ;;
                   (* Step 12: Clear cart *)
                   write (fun t =>
                     set_cart_items
                       (filter
                          (fun i => negb (CartItem.cart_id i =? Cart.id cart))
                          (cart_items t))
                       t) ;;
                   flush ;;
                   (* Calculate and save processing duration *)
                   end_time <- time_time ;;
                   let duration_ms := end_time - start_time in
                   let order :=
                     Order.make (Order.id order) (Order.user_id order)
                       (Order.status order) (Order.total_amount order)
                       (Order.shipping_address order) (Some duration_ms) in
                   save_order order ;;
                   (* Commit everything! *)
                   commit ;;
                   (* db.refresh(order) *)
                   ret order
               end
         end
     end)
    (fun e =>
       (* Rollback EVERYTHING if any step fails! *)
       rollback ;;
       throw e).

(** [get_order]: the order of that id, if it is the user's. *)
Definition get_order (order_id user_id : Z) : M (option Order.t) :=
  t <- read ;;
  ret (find (fun o => (Order.id o =? order_id) && (Order.user_id o =? user_id))
            (orders t)).

Definition update_order_status (order_id : Z) (status : OrderStatus)
    : M Order.t :=
  t <- read ;;
  match find (fun o => Order.id o =? order_id) (orders t) with
  | None => throw (ValueError "Order not found")
  | Some order =>
      let order :=
        Order.make (Order.id order) (Order.user_id order) status
          (Order.total_amount order) (Order.shipping_address order)
          (Order.processing_duration_ms order) in
      save_order order ;;
      commit ;;
      match status with
      | SHIPPED =>
          t <- read ;;
          match find (fun u => User.id u =? Order.user_id order) (users t) with
          | None =>
              throw (AttributeError
                       "'NoneType' object has no attribute 'email'")
          | Some user =>
              EmailService.send_shipping_notification (Order.id order)
                (User.email user) ;;
              ret order
          end
      | _ => ret order
      end
  end.

End OrderService.

(** [routers/orders.py] *)
Module Router.

(** [POST /checkout] for the current user *)
Definition checkout (current_user_id : Z)
    (shipping_address payment_method : string) : M Order.t :=
  start_time <- time_time ;;
  try_except
    (order <- OrderService.create_order_from_cart current_user_id
                shipping_address payment_method ;;
     elapsed <- time_time ;;
     ret order)
    (fun e =>
       match e with
       | ValueError msg => throw (HTTPException 400 msg)
       | _ =>
           throw (HTTPException 500
                    ("Order creation failed: " ++ str_exn e))
       end).

(** [GET /{order_id}] for the current user *)
Definition get_order (order_id current_user_id : Z) : M Order.t :=
  order <- OrderService.get_order order_id current_user_id ;;
  match order with
  | None => throw (HTTPException 404 "Order not found")
  | Some order => ret order
  end.

End Router.

(** *** Words for the statements *)

(** The items of the cart of a user, none where the user has no cart. *)
Definition cart_of (user_id : Z) (t : Tables) : list CartItem.t :=
  match find (fun c => Cart.user_id c =? user_id) (carts t) with
  | None => []
  | Some cart =>
      filter (fun i => CartItem.cart_id i =? Cart.id cart) (cart_items t)
  end.

(** The stock does not cover an item: the product has no inventory row,
    or less is available than the item asks for. *)
Definition short (inv : list Inventory.t) (cart_item : CartItem.t) : bool :=
  match
    find (fun i => Inventory.product_id i =? CartItem.product_id cart_item) inv
  with
  | None => true
  | Some i => Inventory.available i <? CartItem.quantity cart_item
  end.

(** The total of some items, as [create_order_from_cart] adds it up. *)
Definition total_of (items : list CartItem.t) : Float :=
  fold_left
    (fun total cart_item =>
       float_add total
         (float_mul (float_of_Decimal (CartItem.price_snapshot cart_item))
                    (float_of_int (CartItem.quantity cart_item))))
    items (float_of_int 0).

(** The inventory after the items have left the stock: for each item, the
    quantity of the row of its product goes down by the quantity of the
    item. *)
Definition ship (cart_item : CartItem.t) (inv : list Inventory.t)
    : list Inventory.t :=
  update_first
    (fun i => Inventory.product_id i =? CartItem.product_id cart_item)
    (fun i =>
       Inventory.make (Inventory.id i) (Inventory.product_id i)
         (Inventory.quantity i - CartItem.quantity cart_item)
         (Inventory.reserved_quantity i))
    inv.

Definition ship_all (items : list CartItem.t) (inv : list Inventory.t)
    : list Inventory.t :=
  fold_left (fun inv cart_item => ship cart_item inv) items inv.

(** Step 4 and step 9 on the inventory, item by item. *)
Definition reserve (cart_item : CartItem.t) (inv : list Inventory.t)
    : list Inventory.t :=
  update_first
    (fun i => Inventory.product_id i =? CartItem.product_id cart_item)
    (fun i =>
       Inventory.make (Inventory.id i) (Inventory.product_id i)
         (Inventory.quantity i)
         (Inventory.reserved_quantity i + CartItem.quantity cart_item))
    inv.

Definition reduce (cart_item : CartItem.t) (inv : list Inventory.t)
    : list Inventory.t :=
  update_first
    (fun i => Inventory.product_id i =? CartItem.product_id cart_item)
    (fun i =>
       Inventory.make (Inventory.id i) (Inventory.product_id i)
         (Inventory.quantity i - CartItem.quantity cart_item)
         (Inventory.reserved_quantity i - CartItem.quantity cart_item))
    inv.

Definition reserve_all (items : list CartItem.t) (inv : list Inventory.t)
    : list Inventory.t :=
  fold_left (fun inv cart_item => reserve cart_item inv) items inv.

Definition reduce_all (items : list CartItem.t) (inv : list Inventory.t)
    : list Inventory.t :=
  fold_left (fun inv cart_item => reduce cart_item inv) items inv.

(** How much of a product some items ask for. *)
Definition ordered (product_id : Z) (items : list CartItem.t) : Z :=
  fold_right
    (fun cart_item acc =>
       if CartItem.product_id cart_item =? product_id
       then CartItem.quantity cart_item + acc
       else acc)
    0 items.

(** The inventory row of a product, the one that [first()] gives. *)
Definition stock_of (product_id : Z) (inv : list Inventory.t)
    : option Inventory.t :=
  find (fun i => Inventory.product_id i =? product_id) inv.

(** The lines of an order, made of the items of a cart. *)
Fixpoint lines_of (order_id first_id : Z) (items : list CartItem.t)
    : list OrderItem.t :=
  match items with
  | [] => []
  | i :: items' =>
      OrderItem.make first_id order_id (CartItem.product_id i)
        (CartItem.quantity i) (CartItem.price_snapshot i)
      :: lines_of order_id (first_id + 1) items'
  end.

(** A computation leaves a view of the state as it is, however it
    ends. *)
Definition keeps {X A : Type} (view : State -> X) (m : M A) : Prop :=
  forall s, view (snd (m s)) = view s.

(** A computation is one transaction: when it raises, the database holds
    what it held; when it returns, the database holds what the session
    sees. *)
Definition atomic {A : Type} (m : M A) : Prop :=
  forall s,
    match m s with
    | (Throw _, s') => committed s' = committed s
    | (Return _, s') => committed s' = session s'
    end.

(** A small shop: one user with two items in the cart, and the stock. *)
Definition shop (stock_of_product_2 : Z) (draw : bool) : State :=
  let t :=
    tables [User.make 7 "ann@example.com"]
           [Cart.make 1 7]
           [CartItem.make 1 1 1 2 (finite false 1000 (-2));
            CartItem.make 2 1 2 1 (finite false 500 (-2))]
           [Inventory.make 1 1 10 0; Inventory.make 2 2 stock_of_product_2 0]
           [] [] [] [] in
  state t t 1 1 1 1 [] [] [draw] ["0123456789abcdef0123456789abcdef"%string]
        [1000; 1010; 4600; 4610] [].

End Monolith.

(** ** The product service: services/product-service/app *)

(** The repository, the service and the routes of the product catalog that
    read a product, delete it and change its stock, over the table of
    products.  A row has the columns that the code reads and writes, the
    stock column holding any integer; its timestamps are left out.  What
    depends on the model class and on the database is not modelled: the
    creation and the update of a product, and the page of products, which
    the query leaves in the order of the database. *)
Module ProductServiceApp.

(** [core/exceptions.py], and the exceptions that cross the layers *)
Inductive exn : Type :=
| ProductNotFoundException (product_id : Z)
| InsufficientStockException (product_id requested available : Z)
| ValueError (message : string)
| HTTPException (status_code : Z) (detail : string).

(** [str(e)] *)
Definition str_exn (e : exn) : string :=
  match e with
  | ProductNotFoundException product_id =>
      ("Product " ++ text_of (str_int product_id) ++ " not found")%string
  | InsufficientStockException product_id requested available =>
      ("Insufficient stock for product " ++ text_of (str_int product_id)
         ++ ". Requested: " ++ text_of (str_int requested)
         ++ ", Available: " ++ text_of (str_int available))%string
  | ValueError msg => msg
  | HTTPException status_code detail =>
      (text_of (str_int status_code) ++ ": " ++ detail)%string
  end.

Inductive Outcome (A : Type) : Type :=
| Return (a : A)
| Throw (e : exn).

Arguments Return {A} a.
Arguments Throw {A} e.

Module Product.
Record t : Type := make {
  id : Z;
  name : string;
  description : option string;
  price : FiniteDecimal;
  stock : Z
}.
End Product.

(** [domain/schemas.py] *)
Module ProductResponse.
Record t : Type := make {
  id : Z;
  name : string;
  description : option string;
  price : FiniteDecimal;
  stock : Z
}.

(** [ProductResponse.model_validate(product)] *)
Definition model_validate (p : Product.t) : t :=
  make (Product.id p) (Product.name p) (Product.description p)
       (Product.price p) (Product.stock p).
End ProductResponse.

(** A line of the log. *)
Inductive Line : Type :=
| info (text : string)
| warning (text : string).

Record Db : Type := db {
  products : list Product.t;
  log : list Line
}.

Definition M (A : Type) : Type := Db -> Outcome A * Db.

Definition ret {A} (a : A) : M A := fun s => (Return a, s).

Definition throw {A} (e : exn) : M A := fun s => (Throw e, s).

Definition bind {A B} (m : M A) (k : A -> M B) : M B :=
  fun s =>
    match m s with
    | (Return a, s') => k a s'
    | (Throw e, s') => (Throw e, s')
    end.

Declare Scope catalog_scope.
Delimit Scope catalog_scope with catalog.
Notation "x <- m ;; k" := (bind m (fun x => k))
  (at level 100, m at next level, right associativity) : catalog_scope.
Notation "m ;; k" := (bind m (fun _ => k))
  (at level 100, right associativity) : catalog_scope.
Local Open Scope catalog_scope.

(** [try: m  except: handler], the handler saying which exceptions it
    takes by raising the others again *)
Definition try_except {A} (m : M A) (handler : exn -> M A) : M A :=
  fun s =>
    match m s with
    | (Return a, s') => (Return a, s')
    | (Throw e, s') => handler e s'
    end.

Definition logger (l : Line) : M unit :=
  fun s => (Return tt, db (products s) (log s ++ [l])).

Definition rows : M (list Product.t) := fun s => (Return (products s), s).

Definition set_rows (x : list Product.t) : M unit :=
  fun s => (Return tt, db x (log s)).

(** [infrastructure/repository.py] *)
Module ProductRepository.

Definition get_by_id (product_id : Z) : M (option Product.t) :=
  l <- rows ;;
  ret (find (fun p => Product.id p =? product_id) l).

Definition delete (product_id : Z) : M bool :=
  db_product <- get_by_id product_id ;;
  match db_product with
  | None => ret false
  | Some db_product =>
      l <- rows ;;
      set_rows
        (filter (fun p => negb (Product.id p =? Product.id db_product)) l) ;;
      ret true
  end.

Definition update_stock (product_id stock_change : Z)
    : M (option Product.t) :=
  db_product <- get_by_id product_id ;;
  match db_product with
  | None => ret None
  | Some db_product =>
      let new_stock := Product.stock db_product + stock_change in
      if new_stock <? 0 then throw (ValueError "Insufficient stock")
      else
        let db_product :=
          Product.make (Product.id db_product) (Product.name db_product)
            (Product.description db_product) (Product.price db_product)
            new_stock in
        l <- rows ;;
        set_rows
          (map (fun p =>
                  if Product.id p =? Product.id db_product then db_product
                  else p)
               l) ;;
        ret (Some db_product)
  end.

End ProductRepository.

(** [core/services.py] *)
Module ProductService.

Definition get_product_by_id (product_id : Z) : M ProductResponse.t :=
  product <- ProductRepository.get_by_id product_id ;;
  match product with
  | None =>
      logger (warning ("Product " ++ text_of (str_int product_id)
                         ++ " not found")) ;;
      throw (ProductNotFoundException product_id)
  | Some product =>
      logger (info ("Retrieved product: " ++ Product.name product)) ;;
      ret (ProductResponse.model_validate product)
  end.

Definition delete_product (product_id : Z) : M unit :=
  success <- ProductRepository.delete product_id ;;
  if negb success then throw (ProductNotFoundException product_id)
  else
    logger (info ("Deleted product ID: " ++ text_of (str_int product_id))).

Definition update_stock (product_id stock_change : Z)
    : M ProductResponse.t :=
  try_except
    (product <- ProductRepository.update_stock product_id stock_change ;;
     match product with
     | None => throw (ProductNotFoundException product_id)
     | Some product =>
         logger (info ("Updated stock for " ++ Product.name product ++ ": "
                         ++ text_of (str_int (Product.stock product)))) ;;
         ret (ProductResponse.model_validate product)
     end)
    (fun e =>
       match e with
       | ValueError _ =>
           product <- ProductRepository.get_by_id product_id ;;
           throw (InsufficientStockException product_id
                    (Z.abs stock_change)
                    match product with
                    | Some product => Product.stock product
                    | None => 0
                    end)
       | _ => throw e
       end).

End ProductService.

(** [api/routes.py] *)
Module Routes.

Definition get_product (product_id : Z) : M ProductResponse.t :=
  try_except
    (ProductService.get_product_by_id product_id)
    (fun e =>
       match e with
       | ProductNotFoundException _ =>
           throw (HTTPException 404 "Product not found")
       | _ => throw e
       end).

Definition delete_product (product_id : Z) : M unit :=
  try_except
    (ProductService.delete_product product_id)
    (fun e =>
       match e with
       | ProductNotFoundException _ =>
           throw (HTTPException 404 "Product not found")
       | _ => throw e
       end).

Definition update_stock (product_id stock_change : Z) : M ProductResponse.t :=
  try_except
    (ProductService.update_stock product_id stock_change)
    (fun e =>
       match e with
       | ProductNotFoundException _ =>
           throw (HTTPException 404 "Product not found")
       | InsufficientStockException _ _ _ =>
           throw (HTTPException 400 (str_exn e))
       | _ => throw e
       end).

End Routes.

(** *** Words for the statements *)

(** The requests that these routes serve. *)
Inductive Request : Type :=
| GetProduct (product_id : Z)
| DeleteProduct (product_id : Z)
| UpdateStock (product_id stock_change : Z).

(** The database after a request. *)
Definition serve (q : Request) (s : Db) : Db :=
  match q with
  | GetProduct product_id => snd (Routes.get_product product_id s)
  | DeleteProduct product_id => snd (Routes.delete_product product_id s)
  | UpdateStock product_id stock_change =>
      snd (Routes.update_stock product_id stock_change s)
  end.

Definition serve_all (l : list Request) (s : Db) : Db :=
  fold_left (fun s q => serve q s) l s.

(** The product of an id. *)
Definition product_of (product_id : Z) (s : Db) : option Product.t :=
  find (fun p => Product.id p =? product_id) (products s).

(** The id is the key of the table. *)
Definition keyed (s : Db) : Prop := NoDup (map Product.id (products s)).

(** No product has a negative stock. *)
Definition in_stock (s : Db) : Prop :=
  Forall (fun p => 0 <= Product.stock p) (products s).

(** What the routes answer for a product that is not there. *)
Definition not_found : exn := HTTPException 404 "Product not found".

(** A catalog of two products. *)
Definition two_products : Db :=
  db [Product.make 1 "Gaming Laptop" (Some "High-performance laptop"%string)
        (finite false 129999 (-2)) 10;
      Product.make 2 "Wireless Mouse" None (finite false 4999 (-2)) 50]
     [].

End ProductServiceApp.
(* ================================================================== *)
(** * Properties *)

(** ** Decimal texts *)

Example str_25 : Decimal_str (Finite false 2500 (-2)) = "25.00"%string.
Proof. reflexivity. Qed.

Example str_small : Decimal_str (Finite false 1 (-7)) = "1E-7"%string.
Proof. reflexivity. Qed.

Example str_sci : Decimal_str (Finite true 123 2) = "-1.23E+4"%string.
Proof. reflexivity. Qed.

Example str_zero : Decimal_str (Finite false 0 (-2)) = "0.00"%string.
Proof. reflexivity. Qed.

Example parse_25 : Decimal_of_str "25.00" = Some (Finite false 2500 (-2)).
Proof. reflexivity. Qed.

Example parse_sci : Decimal_of_str " -1.23e+4 " = Some (Finite true 123 2).
Proof. reflexivity. Qed.

Example parse_nan : Decimal_of_str "NaN" = Some (NaN false false 0).
Proof. reflexivity. Qed.

Example parse_bad : Decimal_of_str "twenty" = None.
Proof. reflexivity. Qed.

Example parse_dangling_exponent : Decimal_of_str "1E" = None.
Proof. reflexivity. Qed.

(** *** Digits *)

Lemma horner_app acc a b : horner acc (a ++ b) = horner (horner acc a) b.
Proof. unfold horner. apply fold_left_app. Qed.

Lemma horner_uint_acc d : forall acc,
  horner (N.pos acc) (uint_chars d) = N.pos (Pos.of_uint_acc d acc).
Proof.
  induction d; intros acc; cbn [uint_chars Pos.of_uint_acc];
    [reflexivity | ..];
    unfold horner in *; cbn [fold_left]; rewrite <- IHd; f_equal;
    match goal with
    | |- context [digit_val ?c] =>
        let v := eval vm_compute in (digit_val c) in
        change (digit_val c) with v
    end; lia.
Qed.

Lemma horner_uint d : horner 0%N (uint_chars d) = Pos.of_uint d.
Proof.
  induction d; cbn [uint_chars Pos.of_uint]; [reflexivity | ..];
    try (unfold horner; cbn [fold_left]; apply (horner_uint_acc d)).
  exact IHd.
Qed.

Lemma int_of_digits_digits n : int_of_digits (digits n) = n.
Proof.
  unfold int_of_digits, digits. rewrite horner_uint.
  apply (DecimalN.Unsigned.of_to n).
Qed.

Lemma horner_zeros k s : horner 0%N (zeros k ++ s) = horner 0%N s.
Proof.
  unfold zeros. induction (Z.to_nat k) as [|m IH]; [reflexivity|].
  cbn [repeat app]. exact IH.
Qed.

Lemma uint_chars_digit d : Forall (fun c => is_digit c = true) (uint_chars d).
Proof. induction d; cbn [uint_chars]; constructor; auto. Qed.

Lemma digits_digit n : Forall (fun c => is_digit c = true) (digits n).
Proof. apply uint_chars_digit. Qed.

Lemma uint_chars_nil d : uint_chars d = [] -> d = Decimal.Nil.
Proof. destruct d; cbn; intros H; congruence. Qed.

Lemma digits_nonempty n : digits n <> [].
Proof.
  unfold digits. intros H. apply uint_chars_nil in H.
  destruct n as [|p]; cbn in H; [discriminate|].
  exact (DecimalPos.Unsigned.to_uint_nonnil p H).
Qed.

Lemma digits_length_pos n : (0 < Z.of_nat (length (digits n)))%Z.
Proof.
  pose proof (digits_nonempty n). destruct (digits n); [congruence|].
  cbn [length]. lia.
Qed.

Lemma zeros_digit k : Forall (fun c => is_digit c = true) (zeros k).
Proof. unfold zeros. induction (Z.to_nat k); cbn; constructor; auto. Qed.

Lemma zeros_length k : length (zeros k) = Z.to_nat k.
Proof. apply repeat_length. Qed.

Lemma span_digits_app ds r :
  Forall (fun c => is_digit c = true) ds -> stops_digits r ->
  span_digits (ds ++ r) = (ds, r).
Proof.
  intros Hds Hr. induction Hds as [|c ds Hc _ IH]; cbn [app].
  - destruct r as [|c r]; [reflexivity|]. cbn in *. now rewrite Hr.
  - cbn [span_digits]. now rewrite Hc, IH.
Qed.

Lemma span_digits_all ds :
  Forall (fun c => is_digit c = true) ds -> span_digits ds = (ds, []).
Proof.
  intros H. rewrite <- (app_nil_r ds) at 1. now apply span_digits_app.
Qed.

Lemma digit_not c x :
  is_digit c = true -> is_digit x = false -> Ascii.eqb c x = false.
Proof.
  intros Hc Hx. apply Ascii.eqb_neq. intros ->. congruence.
Qed.

Lemma parse_exponent_fmt k : parse_exponent (fmt_plus_d k) = Some k.
Proof.
  unfold parse_exponent, fmt_plus_d.
  pose proof (digits_nonempty (Z.abs_N k)) as Hne.
  pose proof (digits_digit (Z.abs_N k)) as Hd.
  pose proof (int_of_digits_digits (Z.abs_N k)) as Hv.
  destruct (Z.ltb_spec k 0) as [Hk|Hk]; cbn [Ascii.eqb Bool.eqb];
    rewrite (span_digits_all _ Hd);
    destruct (digits (Z.abs_N k)) as [|c ds]; try congruence;
    rewrite Hv; f_equal; lia.
Qed.

(** *** Reading back what [Decimal.__str__] wrote *)

Lemma digit_plain c : is_digit c = true -> plain c = true.
Proof.
  destruct c as [[] [] [] [] [] [] [] []]; intros H; try reflexivity;
    discriminate H.
Qed.

Lemma digit_lower c : is_digit c = true -> lower c = c.
Proof.
  destruct c as [[] [] [] [] [] [] [] []]; intros H; try reflexivity;
    discriminate H.
Qed.

Lemma lstrip_plain s : Forall (fun c => plain c = true) s -> lstrip s = s.
Proof.
  intros H. destruct H as [|c s Hc _]; [reflexivity|].
  cbn [lstrip]. unfold plain in Hc.
  destruct (is_space c); [discriminate|reflexivity].
Qed.

Lemma strip_plain s : Forall (fun c => plain c = true) s -> strip s = s.
Proof.
  intros H. unfold strip, rstrip. rewrite (lstrip_plain s H).
  rewrite lstrip_plain; [apply rev_involutive|].
  now apply Forall_rev.
Qed.

Lemma drop_underscores_plain s :
  Forall (fun c => plain c = true) s -> drop_underscores s = s.
Proof.
  unfold drop_underscores.
  induction 1 as [|c s Hc _ IH]; [reflexivity|].
  cbn [filter]. unfold plain in Hc. apply andb_prop in Hc as [_ Hc].
  now rewrite Hc, IH.
Qed.

Lemma Forall_digit_plain s :
  Forall (fun c => is_digit c = true) s -> Forall (fun c => plain c = true) s.
Proof. apply Forall_impl. exact digit_plain. Qed.

Lemma parse_number_printed sign I F (dot : bool) k :
  Forall (fun c => is_digit c = true) I -> I <> [] ->
  Forall (fun c => is_digit c = true) F -> (dot = false -> F = []) ->
  parse_number sign
    (I ++ (if dot then "."%char :: F else [])
       ++ (if k =? 0 then [] else "E"%char :: fmt_plus_d k))
  = Some (Finite sign (int_of_digits (I ++ F)) (k - Z.of_nat (length F))).
Proof.
  intros HI Hne HF Hdot. unfold parse_number.
  rewrite span_digits_app; [|assumption|].
  2:{ destruct dot; [reflexivity|]. destruct (k =? 0); reflexivity. }
  destruct dot.
  - cbn [app Ascii.eqb Bool.eqb].
    rewrite span_digits_app; [|assumption|destruct (k =? 0); reflexivity].
    destruct (Z.eqb_spec k 0) as [->|Hk].
    + destruct I; [congruence|]. reflexivity.
    + change (Ascii.eqb (lower "E") "e") with true. cbv iota.
      rewrite parse_exponent_fmt. destruct I; [congruence|]. reflexivity.
  - rewrite (Hdot eq_refl). cbn [app length].
    destruct (Z.eqb_spec k 0) as [->|Hk].
    + rewrite app_nil_r. destruct I; [congruence|]. reflexivity.
    + cbn [app Ascii.eqb Bool.eqb].
      change (Ascii.eqb (lower "E") "e") with true. cbv iota.
      rewrite parse_exponent_fmt. rewrite app_nil_r.
      destruct I; [congruence|]. reflexivity.
Qed.

Lemma Forall_firstn_skipn {A} (P : A -> Prop) n (l : list A) :
  Forall P l -> Forall P (firstn n l) /\ Forall P (skipn n l).
Proof.
  intros H. rewrite <- (firstn_skipn n l) in H. now apply Forall_app in H.
Qed.

Lemma str_finite_shape sign coef exp :
  exists I F (dot : bool) k,
    Decimal_str_chars (Finite sign coef exp) =
      sign_chars sign ++ I ++ (if dot then "."%char :: F else [])
        ++ (if k =? 0 then [] else "E"%char :: fmt_plus_d k)
    /\ Forall (fun c => is_digit c = true) I /\ I <> []
    /\ Forall (fun c => is_digit c = true) F /\ (dot = false -> F = [])
    /\ int_of_digits (I ++ F) = coef
    /\ k - Z.of_nat (length F) = exp.
Proof.
  cbn [Decimal_str_chars].
  pose proof (digits_digit coef) as Hd.
  pose proof (digits_nonempty coef) as Hne.
  pose proof (digits_length_pos coef) as Hlen.
  pose proof (int_of_digits_digits coef) as Hv.
  set (L := digits coef) in *.
  set (len := Z.of_nat (length L)) in *.
  set (dotplace := if (exp <=? 0) && (-6 <? exp + len) then exp + len else 1).
  assert (Hdp : (exp <= 0 /\ -6 < exp + len /\ dotplace = exp + len)
                \/ ((0 < exp \/ exp + len <= -6) /\ dotplace = 1)).
  { unfold dotplace.
    destruct (Z.leb_spec exp 0); destruct (Z.ltb_spec (-6) (exp + len));
      cbn [andb]; lia. }
  clearbody dotplace.
  destruct (Z.leb_spec dotplace 0) as [H0|H0].
  - (* 0.000ddd *)
    exists ["0"%char], (zeros (- dotplace) ++ L), true, (exp + len - dotplace).
    assert (Heq : (exp + len =? dotplace) = (exp + len - dotplace =? 0)).
    { destruct (Z.eqb_spec (exp + len) dotplace);
        destruct (Z.eqb_spec (exp + len - dotplace) 0); lia. }
    rewrite Heq. repeat split.
    + repeat constructor.
    + discriminate.
    + apply Forall_app; split; [apply zeros_digit|exact Hd].
    + discriminate.
    + unfold int_of_digits in *. cbn [app].
      change (horner 0%N ("0"%char :: ?s)) with (horner 0%N s).
      now rewrite horner_zeros.
    + rewrite length_app, zeros_length. fold len. lia.
  - destruct (Z.leb_spec len dotplace) as [H1|H1].
    + (* ddd, nothing after the point *)
      exists L, [], false, (exp + len - dotplace).
      assert (Heq : (exp + len =? dotplace) = (exp + len - dotplace =? 0)).
      { destruct (Z.eqb_spec (exp + len) dotplace);
          destruct (Z.eqb_spec (exp + len - dotplace) 0); lia. }
      rewrite Heq.
      assert (Hz : zeros (dotplace - len) = []).
      { unfold zeros. replace (Z.to_nat (dotplace - len)) with 0%nat by lia.
        reflexivity. }
      rewrite Hz, !app_nil_r. repeat split; auto.
      cbn [length]. lia.
    + (* d.dd *)
      exists (firstn (Z.to_nat dotplace) L), (skipn (Z.to_nat dotplace) L),
        true, (exp + len - dotplace).
      assert (Heq : (exp + len =? dotplace) = (exp + len - dotplace =? 0)).
      { destruct (Z.eqb_spec (exp + len) dotplace);
          destruct (Z.eqb_spec (exp + len - dotplace) 0); lia. }
      rewrite Heq. repeat split.
      * now apply Forall_firstn_skipn.
      * intros Hnil. apply (f_equal (@length ascii)) in Hnil.
        rewrite length_firstn in Hnil. cbn [length] in Hnil. lia.
      * now apply Forall_firstn_skipn.
      * discriminate.
      * now rewrite firstn_skipn.
      * rewrite length_skipn. fold len. lia.
Qed.

Lemma fmt_plus_d_plain k : Forall (fun c => plain c = true) (fmt_plus_d k).
Proof.
  unfold fmt_plus_d. constructor.
  - destruct (k <? 0); reflexivity.
  - apply Forall_digit_plain, digits_digit.
Qed.

Lemma sign_chars_plain sign :
  Forall (fun c => plain c = true) (sign_chars sign).
Proof. destruct sign; repeat constructor. Qed.

(** Splitting the sign off a text that [Decimal.__str__] wrote. *)
Lemma split_sign sign body :
  match body with
  | c :: _ => Ascii.eqb c "-" = false /\ Ascii.eqb c "+" = false
  | [] => True
  end ->
  match sign_chars sign ++ body with
  | c :: s' =>
      if Ascii.eqb c "-" then (true, s')
      else if Ascii.eqb c "+" then (false, s')
      else (false, sign_chars sign ++ body)
  | [] => (false, [])
  end = (sign, body).
Proof.
  destruct sign; cbn [sign_chars app]; [reflexivity|].
  destruct body as [|c body]; [reflexivity|]. intros [-> ->]. reflexivity.
Qed.

Lemma Decimal_of_chars_finite sign coef exp :
  Decimal_of_chars (Decimal_str_chars (Finite sign coef exp))
  = Some (Finite sign coef exp).
Proof.
  destruct (str_finite_shape sign coef exp)
    as (I & F & dot & k & -> & HI & Hne & HF & Hdot & Hv & Hexp).
  unfold Decimal_of_chars.
  assert (Hplain : Forall (fun c => plain c = true)
            (sign_chars sign ++ I ++ (if dot then "."%char :: F else [])
               ++ (if k =? 0 then [] else "E"%char :: fmt_plus_d k))).
  { repeat (apply Forall_app; split).
    - apply sign_chars_plain.
    - now apply Forall_digit_plain.
    - destruct dot; constructor; [reflexivity|now apply Forall_digit_plain].
    - destruct (k =? 0); constructor; [reflexivity|apply fmt_plus_d_plain]. }
  rewrite (strip_plain _ Hplain), (drop_underscores_plain _ Hplain).
  rewrite split_sign.
  - rewrite (parse_number_printed sign I F dot k HI Hne HF Hdot).
    now rewrite Hv, Hexp.
  - destruct I as [|c I]; [congruence|]. cbn [app]. inversion HI; subst.
    split; apply digit_not; auto.
Qed.

Lemma digits_lower n : map lower (digits n) = digits n.
Proof.
  pose proof (digits_digit n) as H.
  induction H as [|c s Hc _ IH]; [reflexivity|].
  cbn [map]. now rewrite (digit_lower c Hc), IH.
Qed.

Lemma forallb_digits n : forallb is_digit (digits n) = true.
Proof. apply forallb_forall. apply Forall_forall. apply digits_digit. Qed.

Lemma parse_number_letter sign c s :
  is_digit c = false -> Ascii.eqb c "." = false ->
  Ascii.eqb (lower c) "e" = false ->
  parse_number sign (c :: s) = None.
Proof.
  intros H1 H2 H3. unfold parse_number. cbn [span_digits].
  now rewrite H1, H2, H3.
Qed.

Lemma Decimal_of_chars_nan sign (sig : bool) ds :
  Forall (fun c => is_digit c = true) ds ->
  Decimal_of_chars
    (sign_chars sign ++ chars_of (if sig then "sNaN" else "NaN") ++ ds)
  = Some (NaN sign sig (int_of_digits ds)).
Proof.
  intros Hds.
  assert (Hlow : map lower ds = ds).
  { induction Hds as [|c s Hc _ IH]; [reflexivity|].
    cbn [map]. now rewrite (digit_lower c Hc), IH. }
  assert (Hall : forallb is_digit ds = true).
  { apply forallb_forall. now apply Forall_forall. }
  assert (Hplain : Forall (fun c => plain c = true)
            (sign_chars sign
               ++ chars_of (if sig then "sNaN" else "NaN") ++ ds)).
  { repeat (apply Forall_app; split).
    - apply sign_chars_plain.
    - destruct sig; repeat constructor.
    - now apply Forall_digit_plain. }
  unfold Decimal_of_chars.
  rewrite (strip_plain _ Hplain), (drop_underscores_plain _ Hplain).
  rewrite split_sign; [|destruct sig; split; reflexivity].
  unfold parse_special. rewrite map_app, Hlow.
  destruct sig.
  - change (map lower (chars_of "sNaN")) with (chars_of "snan").
    cbn [chars_of list_ascii_of_string app].
    rewrite parse_number_letter by reflexivity.
    cbn [chars_eqb strip_prefix Ascii.eqb Bool.eqb andb orb].
    now rewrite Hall.
  - change (map lower (chars_of "NaN")) with (chars_of "nan").
    cbn [chars_of list_ascii_of_string app].
    rewrite parse_number_letter by reflexivity.
    cbn [chars_eqb strip_prefix Ascii.eqb Bool.eqb andb orb].
    now rewrite Hall.
Qed.

Lemma Decimal_of_chars_special d :
  match d with Finite _ _ _ => False | _ => True end ->
  Decimal_of_chars (Decimal_str_chars d) = Some d.
Proof.
  destruct d as [? ? ?|sign|sign sig p]; [contradiction| |]; intros _.
  - destruct sign; reflexivity.
  - assert (Hv : int_of_digits (if (p =? 0)%N then [] else digits p) = p).
    { destruct (N.eqb_spec p 0) as [E|E]; [now rewrite E|].
      apply int_of_digits_digits. }
    assert (Hd : Forall (fun c => is_digit c = true)
                   (if (p =? 0)%N then [] else digits p)).
    { destruct (p =? 0)%N; [constructor|apply digits_digit]. }
    rewrite <- Hv at 2.
    destruct sig;
      [exact (Decimal_of_chars_nan sign true _ Hd)
      |exact (Decimal_of_chars_nan sign false _ Hd)].
Qed.

(** [Decimal(str(d))] is [d]: same sign, same digits, same exponent. *)
Theorem Decimal_str_roundtrip d : Decimal_of_str (Decimal_str d) = Some d.
Proof.
  unfold Decimal_of_str, Decimal_str, chars_of, text_of.
  rewrite list_ascii_of_string_of_list_ascii.
  destruct d; [apply Decimal_of_chars_finite| |];
    now apply Decimal_of_chars_special.
Qed.

(** ** The arithmetic of amounts *)











(** ** Running the code *)

(** One step of evaluation of a piece of the model: the definitions of the
    monad, of the world and of the services are unfolded, what is known
    about the message and about the outside is put in. *)
Ltac unfold_model :=
  cbv beta iota zeta delta
    [bind ret raise try_except try_finally lift get modify logger
     getitem dict_get json_loads json_dumps
     set_orders set_payments set_publisher_channel set_published
     set_acknowledgements set_emails set_log set_local_payment set_env
     set_connect_faults set_publish_faults set_gateway_faults
     set_email_faults set_clock set_uuids set_timestamps
     orders payments payment_commits publisher_channel published
     acknowledgements emails log local_payment env
     connect_faults publish_faults gateway_faults email_faults
     clock uuids timestamps
     time_time uuid4 now_isoformat pika_connect basic_publish
     payment_gateway send_order_confirmation_email basic_ack basic_nack
     EventPublisher.connect EventPublisher.publish_event
     EventPublisher.exchange_name
     OrderService.db_add OrderService.db_commit OrderService.checkout
     OrderService.get_order OrderService.get_user_orders
     PaymentEventConsumer.db_add PaymentEventConsumer.db_commit
     PaymentEventConsumer.db_close PaymentEventConsumer.read_payment
     PaymentEventConsumer.publish_payment_event
     PaymentEventConsumer.process_payment PaymentEventConsumer.callback
     PaymentEventConsumer.exchange_name
     EmailEventConsumer.send_confirmation_email EmailEventConsumer.callback
     fst snd].

Ltac open_world w :=
  let o := fresh "o" in
  destruct w as [? ? ? ? ? ? ? ? ? o]; destruct o as [? ? ? ? ? ? ?].

(** What is known of the message and of the outside is put in, and the
    comparisons of two given strings are decided. *)
Ltac use_facts :=
  repeat match goal with
    | H : lookup ?k ?d = _ |- context [lookup ?k ?d] => rewrite H
    | H : Decimal_new ?v = _ |- context [Decimal_new ?v] => rewrite H
    | H : eq_str ?v ?t = _ |- context [eq_str ?v ?t] => rewrite H
    | H : hd false ?l = _ |- context [hd false ?l] => rewrite H
    | |- context [String.eqb ?a ?b] =>
        let v := eval vm_compute in (String.eqb a b) in
        match v with
        | true => change (String.eqb a b) with true
        | false => change (String.eqb a b) with false
        end
    end.

(** The run, as far as it goes without a choice. *)
Ltac run_model :=
  repeat (progress (unfold_model;
                    cbn [hd tl negb orb andb lookup eq_str
                         Order.id Order.user_id Order.user_email
                         Order.status Order.total_amount Order.items
                         Order.created_at Order.processing_duration_ms
                         Payment.id Payment.order_id Payment.user_id
                         Payment.amount Payment.status Payment.transaction_id];
                    use_facts)).

(** Where the run depends on something not known, both ways are
    followed. *)
Ltac branch :=
  match goal with
  | |- context [if ?b then _ else _] => destruct b eqn:?
  | |- context [match ?x with Some _ => _ | None => _ end] => destruct x eqn:?
  | |- context [match ?x with Ok _ => _ | Raise _ => _ end] => destruct x eqn:?
  end.

Ltac run_all_ways := run_model; repeat (branch; run_model).

(** ** What a computation leaves as it is *)

(** The lemmas of [stable], for a view of the world and a relation on it
    that is reflexive and transitive. *)
Section Stable.

Context {X : Type} (view : World -> X) (R : X -> X -> Prop).
Hypothesis R_refl : forall x, R x x.
Hypothesis R_trans : forall x y z, R x y -> R y z -> R x z.

Lemma stable_ret {A} (a : A) : stable view R (ret a).
Proof. intros w. apply R_refl. Qed.

Lemma stable_raise {A} (e : exn) : stable view R (@raise A e).
Proof. intros w. apply R_refl. Qed.

Lemma stable_lift {A} (r : Result A) : stable view R (lift r).
Proof. intros w. apply R_refl. Qed.

Lemma stable_get : stable view R get.
Proof. intros w. apply R_refl. Qed.

Lemma stable_bind {A B} (m : M A) (k : A -> M B) :
  stable view R m -> (forall a, stable view R (k a)) ->
  stable view R (bind m k).
Proof.
  intros Hm Hk w. unfold bind. specialize (Hm w).
  destruct (m w) as [[a|e] w1]; cbn [snd] in *; [|exact Hm].
  eapply R_trans; [exact Hm|apply Hk].
Qed.

Lemma stable_try_except {A} (m : M A) (h : exn -> M A) :
  stable view R m -> (forall e, stable view R (h e)) ->
  stable view R (try_except m h).
Proof.
  intros Hm Hh w. unfold try_except. specialize (Hm w).
  destruct (m w) as [[a|e] w1]; cbn [snd] in *; [exact Hm|].
  eapply R_trans; [exact Hm|apply Hh].
Qed.

Lemma stable_try_finally {A} (m : M A) (c : M unit) :
  stable view R m -> stable view R c -> stable view R (try_finally m c).
Proof.
  intros Hm Hc w. unfold try_finally. specialize (Hm w).
  destruct (m w) as [r w1]; cbn [snd] in *. specialize (Hc w1).
  destruct (c w1) as [[u|e] w2]; cbn [snd] in *;
    eapply R_trans; eauto.
Qed.

Lemma stable_if {A} (c : bool) (a b : M A) :
  stable view R a -> stable view R b -> stable view R (if c then a else b).
Proof. destruct c; auto. Qed.

Lemma stable_modify (f : World -> World) :
  (forall w, R (view w) (view (f w))) -> stable view R (modify f).
Proof. intros H w. apply H. Qed.

(** A computation that only looks. *)
Lemma stable_pure {A} (m : M A) :
  (forall w, snd (m w) = w) -> stable view R m.
Proof. intros H w. rewrite H. apply R_refl. Qed.

End Stable.

Lemma getitem_pure value key w : snd (getitem value key w) = w.
Proof.
  unfold getitem. destruct value; try reflexivity.
  destruct (lookup key d); reflexivity.
Qed.

Lemma dict_get_pure value key default w :
  snd (dict_get value key default w) = w.
Proof.
  unfold dict_get. destruct value; try reflexivity.
  destruct (lookup key d); reflexivity.
Qed.

Lemma json_loads_pure b w : snd (json_loads b w) = w.
Proof. destruct b; reflexivity. Qed.

(** A call of the outside or of the logger, for a part of the world that
    it does not write. *)
Ltac untouched :=
  let w := fresh "w" in
  intros w; open_world w; unfold_model;
  repeat match goal with
    | |- context [if ?b then _ else _] => destruct b
    end;
  reflexivity.

(** The structure of a computation, taken apart down to those calls. *)
Tactic Notation "frame" uconstr(refl) uconstr(trans) tactic3(leaf) :=
  cbv zeta;
  repeat lazymatch goal with
    | |- stable _ _ (bind _ _) => apply (stable_bind _ _ trans); [|intro]
    | |- stable _ _ (try_except _ _) =>
        apply (stable_try_except _ _ trans); [|intro]
    | |- stable _ _ (try_finally _ _) => apply (stable_try_finally _ _ trans)
    | |- stable _ _ (ret _) => apply (stable_ret _ _ refl)
    | |- stable _ _ (raise _) => apply (stable_raise _ _ refl)
    | |- stable _ _ (lift _) => apply (stable_lift _ _ refl)
    | |- stable _ _ get => apply (stable_get _ _ refl)
    | |- stable _ _ (getitem _ _ _) =>
        apply (stable_pure _ _ refl); intro; apply getitem_pure
    | |- stable _ _ (getitem _ _) =>
        apply (stable_pure _ _ refl); intro; apply getitem_pure
    | |- stable _ _ (dict_get _ _ _) =>
        apply (stable_pure _ _ refl); intro; apply dict_get_pure
    | |- stable _ _ (json_loads _) =>
        apply (stable_pure _ _ refl); intro; apply json_loads_pure
    | |- stable _ _ (if _ then _ else _) => apply stable_if
    | |- stable _ _ (match ?x with _ => _ end) => destruct x
    | |- stable _ _ _ => leaf
    end.

Ltac frame_eq := frame (@eq_refl _) (@eq_trans _) untouched.

(** ** Order Intake *)

Lemma fresh_id_above ids : forall x, In x ids -> x < fresh_id ids.
Proof.
  unfold fresh_id. induction ids as [|y ids IH]; cbn [fold_right In];
    [contradiction|].
  intros x [->|Hx]; [lia|]. specialize (IH x Hx). lia.
Qed.

Lemma write_fresh_order (l : list Order.t) (n o : Order.t) :
  Order.id n = fresh_id (map Order.id l) ->
  map (fun r => if Order.id r =? fresh_id (map Order.id l) then o else r)
      (l ++ [n])
  = l ++ [o].
Proof.
  intros Hn. rewrite map_app. cbn [map]. rewrite Hn, Z.eqb_refl. f_equal.
  transitivity (map (fun r : Order.t => r) l); [|apply map_id].
  apply map_ext_in. intros r Hr.
  pose proof (fresh_id_above (map Order.id l) (Order.id r)
                (in_map Order.id l r Hr)).
  destruct (Z.eqb_spec (Order.id r) (fresh_id (map Order.id l)));
    [lia|reflexivity].
Qed.

(** What a call of [checkout] does, whatever the outside answers. *)
Lemma checkout_run request w :
  let r := OrderService.checkout request w in
  fst r = Ok (OrderService.response_of (created_order request w))
  /\ orders (snd r) = orders w ++ [created_order request w]
  /\ published (snd r)
     = published w
         ++ (if broker_down w then [] else [order_created_message request w])
  /\ (broker_down w = true ->
      exists e, In (Error "Failed to publish event" e) (log (snd r))).
Proof.
  open_world w. unfold broker_down, order_created_message, created_order,
    order_created_event, OrderService.response_of, OrderService.or_0.
  cbn [orders published publisher_channel env publish_faults connect_faults
       timestamps clock uuids log].
  destruct publisher_channel0; run_all_ways;
    cbn [orb Order.id Order.user_id Order.user_email Order.status
         Order.total_amount Order.items Order.created_at
         Order.processing_duration_ms];
    rewrite write_fresh_order by reflexivity;
    rewrite ?app_nil_r;
    (split; [reflexivity|split; [reflexivity|split; [reflexivity|]]]);
    intros H; try discriminate H;
    eexists; rewrite !in_app_iff; cbn [In]; eauto 10.
Qed.

(** ** Payment Worker *)

Lemma write_fresh_payment (l : list Payment.t) (n o : Payment.t) :
  Payment.id n = fresh_id (map Payment.id l) ->
  map (fun r => if Payment.id r =? fresh_id (map Payment.id l) then o else r)
      (l ++ [n])
  = l ++ [o].
Proof.
  intros Hn. rewrite map_app. cbn [map]. rewrite Hn, Z.eqb_refl. f_equal.
  transitivity (map (fun r : Payment.t => r) l); [|apply map_id].
  apply map_ext_in. intros r Hr.
  pose proof (fresh_id_above (map Payment.id l) (Payment.id r)
                (in_map Payment.id l r Hr)).
  destruct (Z.eqb_spec (Payment.id r) (fresh_id (map Payment.id l)));
    [lia|reflexivity].
Qed.

(** What the callback of the Payment Worker does with an event that
    carries what [process_payment] reads before the gateway call. *)
Lemma payment_callback_run tag d w event_type order_id user_id total amount :
  lookup "event_type" d = Some event_type ->
  lookup "order_id" d = Some order_id ->
  lookup "user_id" d = Some user_id ->
  lookup "total_amount" d = Some total ->
  Decimal_new total = Ok amount ->
  let r := PaymentEventConsumer.callback tag (JsonText (JDict d)) w in
  let pending := pending_payment order_id user_id amount w in
  let completed := completed_payment order_id user_id amount w in
  fst r = Ok tt
  /\ acknowledgements (snd r) = acknowledgements w ++ [Ack tag]
  /\ if hd false (gateway_faults (env w)) then
       let failed := failed_payment order_id user_id amount None w in
       payments (snd r) = payments w ++ [failed]
       /\ payment_commits (snd r) = payment_commits w ++ [pending; failed]
       /\ published (snd r) = published w
     else
       match lookup "user_email" d with
       | Some user_email =>
           payments (snd r) = payments w ++ [completed]
           /\ payment_commits (snd r)
              = payment_commits w ++ [pending; completed]
           /\ published (snd r)
              = published w
                  ++ (if hd false (publish_faults (env w)) then []
                      else [payment_processed_message completed user_email w])
           /\ (hd false (publish_faults (env w)) = true ->
               In (Error "Failed to publish event" AMQPError) (log (snd r)))
       | None =>
           let failed :=
             failed_payment order_id user_id amount
               (Payment.transaction_id completed) w in
           payments (snd r) = payments w ++ [failed]
           /\ payment_commits (snd r)
              = payment_commits w ++ [pending; completed; failed]
           /\ published (snd r) = published w
       end.
Proof.
  intros H1 H2 H3 H4 H5. open_world w.
  unfold pending_payment, completed_payment, failed_payment,
    payment_processed_message, payment_processed_event.
  cbn [orders payments payment_commits published acknowledgements env
       gateway_faults publish_faults uuids timestamps log].
  run_all_ways;
    cbn [Payment.id Payment.order_id Payment.user_id Payment.amount
         Payment.status Payment.transaction_id];
    rewrite ?write_fresh_payment by reflexivity;
    rewrite <- ?app_assoc, ?app_nil_r; cbn [app];
    repeat split; try reflexivity;
    intros; try discriminate;
    rewrite !in_app_iff; cbn [In]; eauto 10.
Qed.

(** ** What the operations leave as it is *)

Lemma payment_callback_orders tag body :
  stable orders eq (PaymentEventConsumer.callback tag body).
Proof.
  unfold PaymentEventConsumer.callback, PaymentEventConsumer.process_payment,
    PaymentEventConsumer.publish_payment_event,
    PaymentEventConsumer.db_add, PaymentEventConsumer.db_commit,
    PaymentEventConsumer.read_payment, PaymentEventConsumer.db_close.
  frame_eq.
Qed.

Lemma email_callback_orders tag body :
  stable orders eq (EmailEventConsumer.callback tag body).
Proof.
  unfold EmailEventConsumer.callback,
    EmailEventConsumer.send_confirmation_email.
  frame_eq.
Qed.

Lemma handling_acknowledgements c body :
  stable acknowledgements eq (handling c body).
Proof.
  destruct c; unfold handling, PaymentEventConsumer.process_payment,
    PaymentEventConsumer.publish_payment_event,
    PaymentEventConsumer.db_add, PaymentEventConsumer.db_commit,
    PaymentEventConsumer.read_payment, PaymentEventConsumer.db_close,
    EmailEventConsumer.send_confirmation_email.
  - frame_eq.
  - frame_eq.
Qed.

(** The callback is its handling, then the acknowledgement, inside the
    [try]. *)
Lemma callback_by_handling c tag body w :
  callback_of c tag body w
  = try_except
      (handling c body ;; basic_ack tag)
      (fun e =>
         logger (Error "Error processing message" e) ;;
         basic_nack tag false) w.
Proof.
  destruct c; cbn [callback_of handling];
    unfold PaymentEventConsumer.callback, EmailEventConsumer.callback,
      try_except, bind.
  - destruct (json_loads body w) as [[event_data|e] w1]; [|reflexivity].
    destruct (getitem event_data "event_type" w1) as [[t|e] w2];
      [|reflexivity].
    destruct (logger (Info "Received event" t) w2) as [[u|e] w3];
      reflexivity.
  - destruct (json_loads body w) as [[event_data|e] w1]; [|reflexivity].
    destruct (getitem event_data "event_type" w1) as [[t|e] w2];
      [|reflexivity].
    destruct (logger (Info "Received event" t) w2) as [[u|e] w3];
      [|reflexivity].
    destruct (dict_get event_data "status" JNull w3) as [[st|e] w4];
      reflexivity.
Qed.

Lemma grows_refl l : grows_by_others l l.
Proof. exists []. split; [now rewrite app_nil_r|constructor]. Qed.

Lemma grows_trans l1 l2 l3 :
  grows_by_others l1 l2 -> grows_by_others l2 l3 -> grows_by_others l1 l3.
Proof.
  intros (n1 & -> & H1) (n2 & -> & H2). exists (n1 ++ n2).
  split; [now rewrite app_assoc|now apply Forall_app].
Qed.

Lemma basic_publish_grows exchange_name key b :
  key <> EventRoutingKeys.PAYMENT_FAILED ->
  stable published grows_by_others (basic_publish exchange_name key b).
Proof.
  intros Hkey w. open_world w. unfold_model.
  destruct (hd false publish_faults0); cbn [published snd].
  - apply grows_refl.
  - eexists. split; [reflexivity|]. repeat constructor. exact Hkey.
Qed.

Lemma untouched_grows {A} (m : M A) :
  (forall w, published w = published (snd (m w))) ->
  stable published grows_by_others m.
Proof. intros H w. rewrite <- H. apply grows_refl. Qed.

Ltac frame_grows :=
  frame grows_refl grows_trans
    (first [ apply basic_publish_grows; discriminate
           | apply untouched_grows; untouched ]).

Lemma run_grows op :
  stable published grows_by_others (fun w => (Ok tt, run op w)).
Proof.
  assert (H : forall A (m : M A),
             stable published grows_by_others m ->
             stable published grows_by_others (fun w => (Ok tt, snd (m w)))).
  { intros A m Hm w. exact (Hm w). }
  destruct op; cbn [run]; apply H.
  - unfold OrderService.checkout, OrderService.db_add, OrderService.db_commit,
      EventPublisher.publish_event, EventPublisher.connect.
    frame_grows.
  - unfold OrderService.get_order. frame_grows.
  - unfold OrderService.get_user_orders. frame_grows.
  - unfold PaymentEventConsumer.callback, PaymentEventConsumer.process_payment,
      PaymentEventConsumer.publish_payment_event,
      PaymentEventConsumer.db_add, PaymentEventConsumer.db_commit,
      PaymentEventConsumer.read_payment, PaymentEventConsumer.db_close.
    frame_grows.
  - unfold EmailEventConsumer.callback,
      EmailEventConsumer.send_confirmation_email.
    frame_grows.
Qed.

Lemma run_all_grows ops : forall w,
  grows_by_others (published w) (published (run_all ops w)).
Proof.
  unfold run_all. induction ops as [|op ops IH]; intros w; cbn [fold_left].
  - apply grows_refl.
  - eapply grows_trans; [exact (run_grows op w)|apply IH].
Qed.

(** *** The rows of Order Intake *)

Lemma find_in_app {A} (f : A -> bool) (l l' : list A) :
  find f (l ++ l')
  = match find f l with
    | Some x => Some x
    | None => find f l'
    end.
Proof.
  induction l as [|x l IH]; cbn [app find]; [reflexivity|].
  destruct (f x); [reflexivity|exact IH].
Qed.

Lemma find_nowhere {A} (f : A -> bool) (l : list A) :
  (forall x, In x l -> f x = false) -> find f l = None.
Proof.
  induction l as [|x l IH]; intros H; cbn [find]; [reflexivity|].
  rewrite (H x (or_introl eq_refl)). apply IH. intros y Hy. apply H. now right.
Qed.

Lemma find_fresh_order (l : list Order.t) (o : Order.t) :
  Order.id o = fresh_id (map Order.id l) ->
  find (fun r => Order.id r =? Order.id o) (l ++ [o]) = Some o.
Proof.
  intros Ho. rewrite find_in_app.
  assert (Hnone : find (fun r => Order.id r =? Order.id o) l = None).
  { apply find_nowhere. intros r Hr.
    pose proof (fresh_id_above (map Order.id l) (Order.id r)
                  (in_map Order.id l r Hr)).
    apply Z.eqb_neq. lia. }
  rewrite Hnone. cbn [find]. now rewrite Z.eqb_refl.
Qed.

Lemma get_order_pure order_id w :
  snd (OrderService.get_order order_id w) = w.
Proof.
  unfold OrderService.get_order, bind, get.
  destruct (find _ (orders w)); reflexivity.
Qed.

Lemma run_keeps_row op w i o :
  order_row i w = Some o -> order_row i (run op w) = Some o.
Proof.
  unfold order_row. intros H.
  destruct op as [request|order_id|user_id|tag b|tag b]; cbn [run].
  - destruct (checkout_run request w) as (_ & -> & _).
    rewrite find_in_app. now rewrite H.
  - now rewrite get_order_pure.
  - exact H.
  - now rewrite <- (payment_callback_orders tag b w).
  - now rewrite <- (email_callback_orders tag b w).
Qed.

Lemma run_all_keeps_row ops : forall w i o,
  order_row i w = Some o -> order_row i (run_all ops w) = Some o.
Proof.
  unfold run_all. induction ops as [|op ops IH]; intros w i o H;
    cbn [fold_left]; [exact H|].
  apply IH. now apply run_keeps_row.
Qed.

(** ** The claims on Order Intake *)

Lemma created_order_calm request w :
  created_order request (calm w) = created_order request w.
Proof. open_world w. reflexivity. Qed.

(** The publish of Order Intake raises exactly when the broker is down. *)
Lemma publish_event_raises key event_data w :
  broker_down w = true
  <-> exists e, fst (EventPublisher.publish_event key event_data w) = Raise e.
Proof.
  open_world w. unfold broker_down.
  cbn [publisher_channel env publish_faults connect_faults].
  destruct publisher_channel0; run_all_ways; cbn [orb];
    split; intros H; try reflexivity; try discriminate H;
    try (eexists; reflexivity);
    destruct H as [e H]; discriminate H.
Qed.


(** C2. For every checkout request, when the publish of the event raises,
    the request still returns the success response with the created order:
    the response and the table of orders are what they are when the broker
    takes the message, the row is there, nothing is published and the
    failure is logged. *)
Theorem checkout_survives_publish_failure
    (request : CheckoutRequest.t) (w : World) :
  broker_down w = true ->
  let r := OrderService.checkout request w in
  let calm_r := OrderService.checkout request (calm w) in
  fst r = Ok (OrderService.response_of (created_order request w))
  /\ fst r = fst calm_r
  /\ orders (snd r) = orders w ++ [created_order request w]
  /\ orders (snd r) = orders (snd calm_r)
  /\ order_row (Order.id (created_order request w)) (snd r)
     = Some (created_order request w)
  /\ published (snd r) = published w
  /\ exists e, In (Error "Failed to publish event" e) (log (snd r)).
Proof.
  intros Hdown r calm_r.
  destruct (checkout_run request w) as (Hr & Ho & Hp & Hl).
  destruct (checkout_run request (calm w)) as (Hr' & Ho' & _).
  fold r in Hr, Ho, Hp, Hl. fold calm_r in Hr', Ho'.
  rewrite created_order_calm in Hr', Ho'.
  rewrite Hdown, app_nil_r in Hp.
  repeat split; try assumption.
  - now rewrite Hr, Hr'.
  - rewrite Ho, Ho'. now destruct w.
  - unfold order_row. rewrite Ho. now apply find_fresh_order.
  - now apply Hl.
Qed.

Lemma checkout_survives_publish_failure_witness :
  let w := set_publisher_channel true (empty_world broker_refuses) in
  let r := OrderService.checkout scenario_request w in
  let calm_r := OrderService.checkout scenario_request (calm w) in
  fst r = Ok (OrderService.response_of (created_order scenario_request w))
  /\ fst r = fst calm_r
  /\ orders (snd r) = orders w ++ [created_order scenario_request w]
  /\ orders (snd r) = orders (snd calm_r)
  /\ order_row (Order.id (created_order scenario_request w)) (snd r)
     = Some (created_order scenario_request w)
  /\ published (snd r) = published w
  /\ exists e, In (Error "Failed to publish event" e) (log (snd r)).
Proof.
  exact (checkout_survives_publish_failure scenario_request
           (set_publisher_channel true (empty_world broker_refuses))
           eq_refl).
Defined.



(** ** The claims on the Payment Worker *)



Lemma Decimal_new_str d : Decimal_new (JStr (Decimal_str d)) = Ok d.
Proof. cbn [Decimal_new]. now rewrite Decimal_str_roundtrip. Qed.


(** C4. Whenever the simulated gateway call raises, the Payment row is set
    to failed and the delivery publishes nothing.  And no operation of the
    system ever publishes a message with the routing key
    [payment.payment.failed] that the schema declares: the exchange only
    gains messages with other keys. *)
Theorem gateway_failure_publishes_nothing
    (tag : Z) (d : list (string * json)) (w : World)
    (event_type order_id user_id total : json) (amount : Decimal) :
  lookup "event_type" d = Some event_type ->
  lookup "order_id" d = Some order_id ->
  lookup "user_id" d = Some user_id ->
  lookup "total_amount" d = Some total ->
  Decimal_new total = Ok amount ->
  hd false (gateway_faults (env w)) = true ->
  let w' := snd (PaymentEventConsumer.callback tag (JsonText (JDict d)) w) in
  let failed := failed_payment order_id user_id amount None w in
  payments w' = payments w ++ [failed]
  /\ Payment.status failed = "failed"%string
  /\ published w' = published w
  /\ forall (later : list Operation) (w0 : World),
       grows_by_others (published w0) (published (run_all later w0)).
Proof.
  intros H1 H2 H3 H4 H5 Hg w' failed.
  pose proof (payment_callback_run tag d w _ _ _ _ _ H1 H2 H3 H4 H5)
    as (_ & _ & H).
  fold w' in H. rewrite Hg in H. destruct H as (Hp & _ & Hm).
  split; [exact Hp|]. split; [reflexivity|]. split; [exact Hm|].
  intros later w0. apply run_all_grows.
Qed.

Lemma gateway_failure_publishes_nothing_witness :
  let w := empty_world gateway_fails in
  let w' :=
    snd (PaymentEventConsumer.callback 1 (JsonText (JDict scenario_event)) w) in
  let failed :=
    failed_payment (JInt 1) (JInt 42) (Finite false 2500 (-2)) None w in
  payments w' = payments w ++ [failed]
  /\ Payment.status failed = "failed"%string
  /\ published w' = published w
  /\ forall (later : list Operation) (w0 : World),
       grows_by_others (published w0) (published (run_all later w0)).
Proof.
  exact (gateway_failure_publishes_nothing 1 scenario_event
           (empty_world gateway_fails)
           (JStr "order.created") (JInt 1) (JInt 42) (JStr "25.00")
           (Finite false 2500 (-2))
           eq_refl eq_refl eq_refl eq_refl eq_refl eq_refl).
Defined.

(** C9. For every checkout whose [order.created] event is delivered to
    the Payment Worker, the amount of the Payment row is the order's
    [total_amount], digit for digit: the event carries it as the text
    [str(total_amount)], a JSON string, and [Decimal] of that text is the
    same decimal. *)
Theorem amount_crosses_as_text
    (request : CheckoutRequest.t) (w : World) (tag : Z) (w2 : World) :
  broker_down w = false ->
  let r := OrderService.checkout request w in
  exists response m event payment,
    fst r = Ok response
    /\ published (snd r) = published w ++ [m]
    /\ routing_key m = EventRoutingKeys.ORDER_CREATED
    /\ body m = JsonText (JDict event)
    /\ lookup "total_amount" event
       = Some (JStr (Decimal_str
                       (to_Decimal (OrderResponse.total_amount response))))
    /\ payments (snd (PaymentEventConsumer.callback tag (body m) w2))
       = payments w2 ++ [payment]
    /\ Payment.amount payment
       = to_Decimal (OrderResponse.total_amount response).
Proof.
  intros Hup r. destruct (checkout_run request w) as (Hr & _ & Hp & _).
  fold r in Hr, Hp. rewrite Hup in Hp.
  set (order := created_order request w) in *.
  set (total := to_Decimal (Order.total_amount order)).
  pose proof (payment_callback_run tag
                (order_created_event order
                   (hd EmptyString (uuids (env w)))
                   (hd EmptyString (tl (timestamps (env w)))))
                w2 (JStr "order.created") (JInt (Order.id order))
                (JInt (Order.user_id order)) (JStr (Decimal_str total)) total
                eq_refl eq_refl eq_refl eq_refl (Decimal_new_str total))
    as (_ & _ & H).
  exists (OrderService.response_of order), (order_created_message request w).
  eexists. 
  destruct (hd false (gateway_faults (env w2))).
  - destruct H as (H & _). eexists.
    repeat split; try eassumption; reflexivity.
  - cbn [lookup order_created_event] in H.
    destruct H as (H & _). eexists.
    repeat split; try eassumption; reflexivity.
Qed.

Lemma amount_crosses_as_text_witness :
  let r := OrderService.checkout scenario_request (empty_world no_faults) in
  exists response m event payment,
    fst r = Ok response
    /\ published (snd r) = published (empty_world no_faults) ++ [m]
    /\ routing_key m = EventRoutingKeys.ORDER_CREATED
    /\ body m = JsonText (JDict event)
    /\ lookup "total_amount" event
       = Some (JStr (Decimal_str
                       (to_Decimal (OrderResponse.total_amount response))))
    /\ payments (snd (PaymentEventConsumer.callback 7 (body m)
                        (empty_world no_faults)))
       = payments (empty_world no_faults) ++ [payment]
    /\ Payment.amount payment
       = to_Decimal (OrderResponse.total_amount response).
Proof.
  exact (amount_crosses_as_text scenario_request (empty_world no_faults) 7
           (empty_world no_faults) eq_refl).
Defined.

(** C10, as it is stated, fails for an event without [order_id]: the
    exception that reaches the callback is the [KeyError] of the first log
    line of [process_payment], raised before the [try]; the except branch
    is not entered and no [UnboundLocalError] is raised. *)
Lemma missing_order_id_is_a_KeyError :
  let w := empty_world no_faults in
  let event := JDict (without "order_id" scenario_event) in
  let w' := snd (PaymentEventConsumer.callback 1 (JsonText event) w) in
  log w'
  = [Info "Received event" (JStr "order.created");
     Error "Error processing message" (KeyError "order_id")]
  /\ ~ unbound_payment_reaches_callback 1 event w.
Proof.
  split.
  - vm_compute. reflexivity.
  - unfold unbound_payment_reaches_callback. intros (_ & H & _).
    vm_compute in H.
    repeat (destruct H as [H|H]; [discriminate H|]). exact H.
Qed.

(** C10, amended. When the delivered event lacks [user_id], or its
    [total_amount] is not accepted by [Decimal], the exception is raised
    inside the [try] of [process_payment] before [payment] is bound: the
    except branch logs it, its own read of [payment] raises
    [UnboundLocalError], and that is what reaches the callback.  When the
    event lacks [order_id] or [total_amount], the [KeyError] is raised by
    the log lines before the [try], the except branch is not entered, and
    the [KeyError] itself reaches the callback.  In all four cases no
    Payment row is created or marked failed, nothing is published, and the
    callback drops the message: nack without requeue. *)
Theorem failure_before_payment_is_bound
    (x : Defect) (tag : Z) (d : list (string * json)) (w : World)
    (event_type : json) :
  lookup "event_type" d = Some event_type ->
  has_defect x d ->
  let r := PaymentEventConsumer.callback tag (JsonText (JDict d)) w in
  fst r = Ok tt
  /\ payments (snd r) = payments w
  /\ payment_commits (snd r) = payment_commits w
  /\ published (snd r) = published w
  /\ acknowledgements (snd r) = acknowledgements w ++ [Nack tag false]
  /\ exists new,
       log (snd r) = log w ++ new
       /\ In (Error "Error processing message" (reaches_callback x)) new
       /\ match x with
          | LacksOrderId | LacksTotalAmount =>
              forall e, ~ In (Error "Payment failed" e) new
          | LacksUserId | BadTotalAmount =>
              exists e, In (Error "Payment failed" e) new
          end.
Proof.
  intros Ht Hx. open_world w.
  cbn [payments payment_commits published acknowledgements log].
  destruct x; cbn [has_defect reaches_callback] in *.
  - run_all_ways. repeat (split; [reflexivity|]).
    eexists. split; [rewrite <- app_assoc; reflexivity|].
    cbn [app In]. split; [auto|]. intros e [H|[H|[]]]; discriminate H.
  - destruct Hx as (Ho & Ha).
    destruct (lookup "order_id" d) as [order_id|] eqn:Eo; [|congruence].
    run_all_ways. repeat (split; [reflexivity|]).
    eexists. split; [rewrite <- !app_assoc; reflexivity|].
    cbn [app In]. split; [auto|]. intros e [H|[H|[H|[]]]]; discriminate H.
  - destruct Hx as (Ho & Ha & Hu).
    destruct (lookup "order_id" d) as [order_id|] eqn:Eo; [|congruence].
    destruct (lookup "total_amount" d) as [total|] eqn:Ea; [|congruence].
    run_all_ways. repeat (split; [reflexivity|]).
    eexists. split; [rewrite <- !app_assoc; reflexivity|].
    cbn [app In]. split; [auto 10|]. eexists. auto 10.
  - destruct Hx as (Ho & Hu & total & e & Ha & He).
    destruct (lookup "order_id" d) as [order_id|] eqn:Eo; [|congruence].
    destruct (lookup "user_id" d) as [user_id|] eqn:Eu; [|congruence].
    run_all_ways. repeat (split; [reflexivity|]).
    eexists. split; [rewrite <- !app_assoc; reflexivity|].
    cbn [app In]. split; [auto 10|]. eexists. auto 10.
Qed.

Lemma failure_before_payment_is_bound_witness :
  let w := empty_world no_faults in
  let r :=
    PaymentEventConsumer.callback 1
      (JsonText (JDict (without "user_id" scenario_event))) w in
  fst r = Ok tt
  /\ payments (snd r) = payments w
  /\ payment_commits (snd r) = payment_commits w
  /\ published (snd r) = published w
  /\ acknowledgements (snd r) = acknowledgements w ++ [Nack 1 false]
  /\ exists new,
       log (snd r) = log w ++ new
       /\ In (Error "Error processing message" (UnboundLocalError "payment"))
             new
       /\ exists e, In (Error "Payment failed" e) new.
Proof.
  refine (failure_before_payment_is_bound LacksUserId 1
            (without "user_id" scenario_event) (empty_world no_faults)
            (JStr "order.created") eq_refl _).
  cbn [has_defect]. repeat split; discriminate.
Defined.

(** ** The claims on the acknowledgements and on the Email Worker *)

(** C6. In both consumers, when the handling of a delivered message raises
    an exception that reaches the callback, the message is negatively
    acknowledged with [requeue=False] and is not acknowledged: the nack is
    the one call that the channel receives. *)
Theorem failed_handling_is_nacked
    (c : Consumer) (tag : Z) (b : Body) (w w1 : World) (e : exn) :
  handling c b w = (Raise e, w1) ->
  let r := callback_of c tag b w in
  fst r = Ok tt
  /\ acknowledgements (snd r) = acknowledgements w ++ [Nack tag false].
Proof.
  intros H r. unfold r. rewrite callback_by_handling.
  pose proof (handling_acknowledgements c b w) as Hacks.
  unfold try_except, bind. rewrite H in *. cbn [snd] in Hacks.
  unfold logger, basic_nack, modify. cbn [fst snd].
  split; [reflexivity|]. destruct w1. cbn in *. now rewrite Hacks.
Qed.

Lemma failed_handling_is_nacked_witness :
  let r := callback_of PaymentWorker 1 (BadText "{") (empty_world no_faults) in
  fst r = Ok tt
  /\ acknowledgements (snd r)
     = acknowledgements (empty_world no_faults) ++ [Nack 1 false].
Proof.
  exact (failed_handling_is_nacked PaymentWorker 1 (BadText "{")
           (empty_world no_faults) (empty_world no_faults) JSONDecodeError
           eq_refl).
Defined.

(** C5. For every delivered [payment.processed] event, the Email Worker
    calls the sender exactly once when the [status] of the event is
    [completed], with the address, the order id, the amount and the
    transaction id of the event; for any other status, [failed] among
    them, it calls it not at all and logs a warning. *)
Theorem email_attempts_by_status
    (tag : Z) (d : list (string * json)) (w : World)
    (event_type user_email order_id amount status : json) :
  lookup "event_type" d = Some event_type ->
  lookup "user_email" d = Some user_email ->
  lookup "order_id" d = Some order_id ->
  lookup "amount" d = Some amount ->
  lookup "status" d = Some status ->
  let w' := snd (EmailEventConsumer.callback tag (JsonText (JDict d)) w) in
  let transaction_id :=
    match lookup "transaction_id" d with
    | Some v => v
    | None => JStr "N/A"
    end in
  if eq_str status "completed" then
    emails w'
    = emails w ++ [email_call user_email order_id amount transaction_id]
  else
    emails w' = emails w
    /\ log w'
       = log w ++ [Info "Received event" event_type;
                   Warning "Payment not completed, skipping email"].
Proof.
  intros H1 H2 H3 H4 H5. open_world w. cbn [emails log].
  destruct (eq_str status "completed") eqn:Hs;
    run_all_ways; rewrite <- ?app_assoc; try split; reflexivity.
Qed.

Lemma email_attempts_by_status_witness :
  let w := empty_world no_faults in
  let w' :=
    snd (EmailEventConsumer.callback 1
           (JsonText (JDict scenario_payment_processed)) w) in
  emails w'
  = emails w
      ++ [email_call (JStr "buyer@example.com") (JInt 1) (JStr "25.00")
            (JStr "TXN-0123456789AB")].
Proof.
  exact (email_attempts_by_status 1 scenario_payment_processed
           (empty_world no_faults)
           (JStr "payment.processed") (JStr "buyer@example.com") (JInt 1)
           (JStr "25.00") (JStr "completed")
           eq_refl eq_refl eq_refl eq_refl eq_refl).
Defined.

(** C7. Every delivered [payment.processed] event that the Email Worker
    handles is acknowledged, whether the send returns or raises: when it
    raises, the failure is caught and logged by the send step, and the
    callback goes on to the acknowledgement. *)
Theorem email_delivery_is_acknowledged
    (tag : Z) (d : list (string * json)) (w : World) (event_type : json) :
  lookup "event_type" d = Some event_type ->
  let r := EmailEventConsumer.callback tag (JsonText (JDict d)) w in
  fst r = Ok tt
  /\ acknowledgements (snd r) = acknowledgements w ++ [Ack tag]
  /\ forall user_email order_id amount,
       lookup "status" d = Some (JStr "completed") ->
       lookup "user_email" d = Some user_email ->
       lookup "order_id" d = Some order_id ->
       lookup "amount" d = Some amount ->
       hd false (email_faults (env w)) = true ->
       log (snd r)
       = log w ++ [Info "Received event" event_type;
                   Error "Failed to send email" EmailError].
Proof.
  intros H1. open_world w. cbn [acknowledgements log env email_faults].
  split; [|split].
  - run_all_ways; reflexivity.
  - run_all_ways; reflexivity.
  - intros user_email order_id amount H2 H3 H4 H5 H6.
    run_all_ways; rewrite <- ?app_assoc; reflexivity.
Qed.

Lemma email_delivery_is_acknowledged_witness :
  let w := empty_world mail_fails in
  let r :=
    EmailEventConsumer.callback 1
      (JsonText (JDict scenario_payment_processed)) w in
  fst r = Ok tt
  /\ acknowledgements (snd r) = acknowledgements w ++ [Ack 1]
  /\ forall user_email order_id amount,
       lookup "status" scenario_payment_processed
       = Some (JStr "completed") ->
       lookup "user_email" scenario_payment_processed = Some user_email ->
       lookup "order_id" scenario_payment_processed = Some order_id ->
       lookup "amount" scenario_payment_processed = Some amount ->
       hd false (email_faults (env w)) = true ->
       log (snd r)
       = log w ++ [Info "Received event" (JStr "payment.processed");
                   Error "Failed to send email" EmailError].
Proof.
  exact (email_delivery_is_acknowledged 1 scenario_payment_processed
           (empty_world mail_fails) (JStr "payment.processed") eq_refl).
Defined.

(** ** Redelivery *)

Lemma payment_callback_adds_one
    tag d w event_type order_id user_id total amount :
  lookup "event_type" d = Some event_type ->
  lookup "order_id" d = Some order_id ->
  lookup "user_id" d = Some user_id ->
  lookup "total_amount" d = Some total ->
  Decimal_new total = Ok amount ->
  let w' := snd (PaymentEventConsumer.callback tag (JsonText (JDict d)) w) in
  exists p,
    payments w' = payments w ++ [p]
    /\ Payment.id p = fresh_id (map Payment.id (payments w))
    /\ Payment.order_id p = order_id
    /\ Payment.amount p = amount.
Proof.
  intros H1 H2 H3 H4 H5 w'.
  pose proof (payment_callback_run tag d w _ _ _ _ _ H1 H2 H3 H4 H5)
    as (_ & _ & H).
  fold w' in H. destruct (hd false (gateway_faults (env w))).
  - destruct H as (H & _). eexists. split; [exact H|]. repeat split.
  - destruct (lookup "user_email" d); destruct H as (H & _);
      eexists; (split; [exact H|]); repeat split.
Qed.

(** X1. The same [order.created] event delivered twice leaves two Payment
    rows for the one order, with two ids: nothing looks at the event id. *)
Theorem redelivery_adds_a_second_payment
    (tag tag' : Z) (d : list (string * json)) (w : World)
    (event_type order_id user_id total : json) (amount : Decimal) :
  lookup "event_type" d = Some event_type ->
  lookup "order_id" d = Some order_id ->
  lookup "user_id" d = Some user_id ->
  lookup "total_amount" d = Some total ->
  Decimal_new total = Ok amount ->
  let w1 := snd (PaymentEventConsumer.callback tag (JsonText (JDict d)) w) in
  let w2 := snd (PaymentEventConsumer.callback tag' (JsonText (JDict d)) w1) in
  exists p1 p2,
    payments w2 = payments w ++ [p1; p2]
    /\ Payment.order_id p1 = order_id
    /\ Payment.order_id p2 = order_id
    /\ Payment.amount p1 = amount
    /\ Payment.amount p2 = amount
    /\ Payment.id p1 < Payment.id p2.
Proof.
  intros H1 H2 H3 H4 H5 w1 w2.
  destruct (payment_callback_adds_one tag d w _ _ _ _ _ H1 H2 H3 H4 H5)
    as (p1 & Hp1 & Hi1 & Ho1 & Ha1).
  destruct (payment_callback_adds_one tag' d w1 _ _ _ _ _ H1 H2 H3 H4 H5)
    as (p2 & Hp2 & Hi2 & Ho2 & Ha2).
  fold w1 in Hp1. fold w1 w2 in Hp2. fold w1 in Hi2.
  exists p1, p2. rewrite Hp2, Hp1, <- app_assoc.
  repeat split; try assumption.
  rewrite Hi2, Hp1. apply fresh_id_above.
  rewrite map_app, in_app_iff. right. now left.
Qed.

Lemma redelivery_adds_a_second_payment_witness :
  let w := empty_world no_faults in
  let w1 :=
    snd (PaymentEventConsumer.callback 1 (JsonText (JDict scenario_event)) w) in
  let w2 :=
    snd (PaymentEventConsumer.callback 2 (JsonText (JDict scenario_event)) w1) in
  exists p1 p2,
    payments w2 = payments w ++ [p1; p2]
    /\ Payment.order_id p1 = JInt 1
    /\ Payment.order_id p2 = JInt 1
    /\ Payment.amount p1 = Finite false 2500 (-2)
    /\ Payment.amount p2 = Finite false 2500 (-2)
    /\ Payment.id p1 < Payment.id p2.
Proof.
  exact (redelivery_adds_a_second_payment 1 2 scenario_event
           (empty_world no_faults)
           (JStr "order.created") (JInt 1) (JInt 42) (JStr "25.00")
           (Finite false 2500 (-2))
           eq_refl eq_refl eq_refl eq_refl eq_refl).
Defined.

(** ** The scenario of the specification, run *)

Example scenario_checkout :
  let r := OrderService.checkout scenario_request (empty_world no_faults) in
  fst r
  = Ok (OrderResponse.make 1 42 "buyer@example.com" "pending"
          (finite false 2500 (-2))
          (map OrderItemRequest.model_dump
               (CheckoutRequest.items scenario_request))
          40 "2024-01-01T10:00:00")
  /\ Decimal_str (to_Decimal (finite false 2500 (-2))) = "25.00"%string
  /\ map body (published (snd r)) = [JsonText (JDict scenario_event)].
Proof. vm_compute. repeat split. Qed.

Example scenario_payment :
  let w :=
    snd (PaymentEventConsumer.callback 1 (JsonText (JDict scenario_event))
           (empty_world no_faults)) in
  payments w
  = [Payment.make 1 (JInt 1) (JInt 42) (Finite false 2500 (-2)) "completed"
       (Some "TXN-0123456789AB"%string)]
  /\ map body (published w) = [JsonText (JDict scenario_payment_processed)]
  /\ acknowledgements w = [Ack 1].
Proof. vm_compute. repeat split. Qed.

Example scenario_email :
  let w :=
    snd (EmailEventConsumer.callback 1
           (JsonText (JDict scenario_payment_processed))
           (empty_world no_faults)) in
  emails w
  = [email_call (JStr "buyer@example.com") (JInt 1) (JStr "25.00")
       (JStr "TXN-0123456789AB")]
  /\ acknowledgements w = [Ack 1].
Proof. vm_compute. repeat split. Qed.

(* ================================================================== *)
(** * More of the pipeline *)

(** ** Reading the orders back *)

(** What an operation does to the table of orders: a checkout adds its
    row, nothing else writes. *)
Lemma run_orders op w :
  orders (run op w)
  = orders w
      ++ match op with
         | Checkout request => [created_order request w]
         | _ => []
         end.
Proof.
  destruct op as [request|order_id|user_id|tag b|tag b]; cbn [run];
    rewrite ?app_nil_r.
  - now destruct (checkout_run request w) as (_ & -> & _).
  - now rewrite get_order_pure.
  - reflexivity.
  - now rewrite <- (payment_callback_orders tag b w).
  - now rewrite <- (email_callback_orders tag b w).
Qed.

(** X2. The response of a checkout is what [get_order] returns for its id,
    then and after any later operations of the three services; the read
    changes nothing. *)
Theorem checkout_then_get_order
    (request : CheckoutRequest.t) (w : World) (later : list Operation) :
  let r := OrderService.checkout request w in
  let w' := run_all later (snd r) in
  exists response,
    fst r = Ok response
    /\ OrderService.get_order (OrderResponse.id response) w'
       = (Ok response, w').
Proof.
  intros r w'. destruct (checkout_run request w) as (Hr & Ho & _).
  fold r in Hr, Ho.
  exists (OrderService.response_of (created_order request w)).
  split; [exact Hr|].
  assert (Hrow : order_row (Order.id (created_order request w)) w'
                 = Some (created_order request w)).
  { apply run_all_keeps_row. unfold order_row. rewrite Ho.
    now apply find_fresh_order. }
  unfold order_row in Hrow.
  unfold OrderService.get_order, bind, get.
  cbn [OrderResponse.id OrderService.response_of]. now rewrite Hrow.
Qed.

Lemma find_some_in {A} (f : A -> bool) (l : list A) x :
  find f l = Some x -> In x l /\ f x = true.
Proof.
  induction l as [|y l IH]; cbn [find]; [discriminate|].
  destruct (f y) eqn:E.
  - intros [= ->]. split; [now left|exact E].
  - intros H. destruct (IH H). split; [now right|assumption].
Qed.

(** X3. [get_order] answers 404 exactly for the ids that no row of the
    table has; for the others it returns the response of a row with that
    id.  Either way it writes nothing. *)
Theorem get_order_unknown_id_is_404 (order_id : Z) (w : World) :
  let r := OrderService.get_order order_id w in
  snd r = w
  /\ (fst r = Raise (HTTPException 404)
      <-> ~ In order_id (map Order.id (orders w)))
  /\ (In order_id (map Order.id (orders w)) ->
      exists order,
        In order (orders w) /\ Order.id order = order_id
        /\ fst r = Ok (OrderService.response_of order)).
Proof.
  intros r. split; [apply get_order_pure|].
  unfold r, OrderService.get_order, bind, get.
  destruct (find (fun o => Order.id o =? order_id) (orders w)) as [o|] eqn:E;
    cbn [fst ret raise].
  - apply find_some_in in E. destruct E as (Hin & Hid).
    apply Z.eqb_eq in Hid. split.
    + split; [discriminate|]. intros H. exfalso. apply H.
      rewrite <- Hid. now apply in_map.
    + intros _. exists o. auto.
  - assert (Hno : ~ In order_id (map Order.id (orders w))).
    { intros H. apply in_map_iff in H. destruct H as (o & Hid & Hin).
      pose proof (find_none _ _ E o Hin) as Hf. cbn in Hf.
      apply Z.eqb_neq in Hf. contradiction. }
    split; [split; auto|]. intros H. contradiction.
Qed.


(** X5. The table of orders only grows, by one row for each checkout, and
    every row that the system adds is pending: nothing in the three
    services ever changes an order, so an order is still pending after its
    payment has completed and its e-mail has been sent. *)
Theorem orders_only_grow_and_stay_pending
    (later : list Operation) (w : World) :
  exists new,
    orders (run_all later w) = orders w ++ new
    /\ length new = length (filter is_checkout later)
    /\ forallb (fun o => String.eqb (Order.status o) "pending") new = true.
Proof.
  revert w. unfold run_all.
  induction later as [|op later IH]; intros w; cbn [fold_left filter].
  - exists []. now rewrite app_nil_r.
  - destruct (IH (run op w)) as (new & Hn & Hl & Hp).
    rewrite Hn, run_orders, <- app_assoc.
    eexists. split; [reflexivity|].
    destruct op; cbn [is_checkout app length forallb]; auto.
Qed.

(** ** The connection of Order Intake to the broker *)

(** A checkout connects when there is no channel yet, and only then. *)
Lemma checkout_connection request w :
  connection (snd (OrderService.checkout request w))
  = if publisher_channel w then connection w
    else (negb (hd false (connect_faults (env w))),
          tl (connect_faults (env w))).
Proof.
  open_world w. unfold connection.
  cbn [publisher_channel env connect_faults].
  destruct publisher_channel0; run_all_ways; reflexivity.
Qed.

Lemma payment_callback_connection tag body :
  stable connection eq (PaymentEventConsumer.callback tag body).
Proof.
  unfold PaymentEventConsumer.callback, PaymentEventConsumer.process_payment,
    PaymentEventConsumer.publish_payment_event,
    PaymentEventConsumer.db_add, PaymentEventConsumer.db_commit,
    PaymentEventConsumer.read_payment, PaymentEventConsumer.db_close.
  frame_eq.
Qed.

Lemma email_callback_connection tag body :
  stable connection eq (EmailEventConsumer.callback tag body).
Proof.
  unfold EmailEventConsumer.callback,
    EmailEventConsumer.send_confirmation_email.
  frame_eq.
Qed.

Lemma run_connection op w :
  publisher_channel w = true -> connection (run op w) = connection w.
Proof.
  intros H.
  destruct op as [request|order_id|user_id|tag b|tag b]; cbn [run].
  - now rewrite checkout_connection, H.
  - now rewrite get_order_pure.
  - reflexivity.
  - now rewrite <- (payment_callback_connection tag b w).
  - now rewrite <- (email_callback_connection tag b w).
Qed.



(** X7. Once Order Intake has a channel it never connects again: whatever
    the operations that follow and however their publishes end, the
    channel stays the one it has and no connection is asked of the
    broker. *)
Theorem connected_publisher_never_reconnects
    (later : list Operation) (w : World) :
  publisher_channel w = true ->
  publisher_channel (run_all later w) = true
  /\ connect_faults (env (run_all later w)) = connect_faults (env w).
Proof.
  revert w. unfold run_all.
  induction later as [|op later IH]; intros w H; cbn [fold_left];
    [now split|].
  pose proof (run_connection op w H) as Hk. unfold connection in Hk.
  injection Hk as Hk1 Hk2. rewrite H in Hk1.
  destruct (IH (run op w) Hk1) as (IH1 & IH2).
  split; [exact IH1|]. now rewrite IH2.
Qed.

Lemma connected_publisher_never_reconnects_witness :
  let w :=
    set_publisher_channel true
      (empty_world (set_connect_faults [true] broker_refuses)) in
  let later :=
    [Checkout scenario_request; Checkout scenario_request;
     DeliverToPayment 1 (JsonText (JDict scenario_event))] in
  publisher_channel (run_all later w) = true
  /\ connect_faults (env (run_all later w)) = connect_faults (env w).
Proof.
  exact (connected_publisher_never_reconnects
           [Checkout scenario_request; Checkout scenario_request;
            DeliverToPayment 1 (JsonText (JDict scenario_event))]
           (set_publisher_channel true
              (empty_world (set_connect_faults [true] broker_refuses)))
           eq_refl).
Defined.

(** ** The messages on the exchange *)

Lemma grows_with_refl P l : grows_with P l l.
Proof. exists []. split; [now rewrite app_nil_r|reflexivity]. Qed.

Lemma grows_with_trans P l1 l2 l3 :
  grows_with P l1 l2 -> grows_with P l2 l3 -> grows_with P l1 l3.
Proof.
  intros (n1 & -> & H1) (n2 & -> & H2). exists (n1 ++ n2).
  split; [now rewrite app_assoc|]. rewrite forallb_app, H1, H2. reflexivity.
Qed.

Lemma basic_publish_grows_with P exchange_name key b :
  P (message exchange_name key b 2 "application/json") = true ->
  stable published (grows_with P) (basic_publish exchange_name key b).
Proof.
  intros HP w. open_world w. unfold_model.
  destruct (hd false publish_faults0); cbn [published snd].
  - apply grows_with_refl.
  - eexists. split; [reflexivity|]. cbn [forallb]. now rewrite HP.
Qed.

Lemma untouched_grows_with P {A} (m : M A) :
  (forall w, published w = published (snd (m w))) ->
  stable published (grows_with P) m.
Proof. intros H w. rewrite <- H. apply grows_with_refl. Qed.

Ltac frame_pipeline :=
  frame (grows_with_refl pipeline_event) (grows_with_trans pipeline_event)
    (first [ apply basic_publish_grows_with; reflexivity
           | apply untouched_grows_with; untouched ]).

Lemma run_publishes_pipeline_events op :
  stable published (grows_with pipeline_event) (fun w => (Ok tt, run op w)).
Proof.
  assert (H : forall A (m : M A),
             stable published (grows_with pipeline_event) m ->
             stable published (grows_with pipeline_event)
               (fun w => (Ok tt, snd (m w)))).
  { intros A m Hm w. exact (Hm w). }
  destruct op; cbn [run]; apply H.
  - unfold OrderService.checkout, OrderService.db_add, OrderService.db_commit,
      EventPublisher.publish_event, EventPublisher.connect.
    frame_pipeline.
  - unfold OrderService.get_order. frame_pipeline.
  - unfold OrderService.get_user_orders. frame_pipeline.
  - unfold PaymentEventConsumer.callback, PaymentEventConsumer.process_payment,
      PaymentEventConsumer.publish_payment_event,
      PaymentEventConsumer.db_add, PaymentEventConsumer.db_commit,
      PaymentEventConsumer.read_payment, PaymentEventConsumer.db_close.
    frame_pipeline.
  - unfold EmailEventConsumer.callback,
      EmailEventConsumer.send_confirmation_email.
    frame_pipeline.
Qed.

(** X8. Whatever the operations, the exchange only gains messages of the
    pipeline: on [ecommerce_events], persistent, of type JSON, and either
    an [order.created] event under the key that the Payment Worker's queue
    is bound with, or a [payment.processed] event under the key of the
    Email Worker's queue whose [status] is [completed].  No
    [payment.processed] event with another status, and no message under
    [payment.payment.failed] or [email.email.sent], is ever published. *)
Theorem only_pipeline_events_are_published
    (later : list Operation) (w : World) :
  exists new,
    published (run_all later w) = published w ++ new
    /\ forallb pipeline_event new = true
    /\ forallb
         (fun m =>
            negb (String.eqb (routing_key m) EventRoutingKeys.PAYMENT_FAILED)
            && negb (String.eqb (routing_key m) EventRoutingKeys.EMAIL_SENT))
         new = true.
Proof.
  assert (H : grows_with pipeline_event (published w)
                (published (run_all later w))).
  { revert w. unfold run_all.
    induction later as [|op later IH]; intros w; cbn [fold_left].
    - apply grows_with_refl.
    - eapply grows_with_trans;
        [exact (run_publishes_pipeline_events op w)|apply IH]. }
  destruct H as (new & Hn & Hp). exists new.
  split; [exact Hn|]. split; [exact Hp|].
  rewrite forallb_forall in *. intros m Hm. specialize (Hp m Hm).
  unfold pipeline_event in Hp.
  destruct (body m) as [[| | | | | |d]|];
    rewrite ?andb_false_r in Hp; try discriminate Hp.
  apply andb_prop in Hp. destruct Hp as (_ & Hp).
  apply orb_prop in Hp.
  destruct Hp as [Hp|Hp]; repeat (apply andb_prop in Hp; destruct Hp as (Hp & ?));
    apply String.eqb_eq in Hp; rewrite Hp; reflexivity.
Qed.

(** ** The answer of the workers to every message *)


(** X10. The callback of the Email Worker never lets an exception out, and
    answers every message once: an ack for every JSON object with
    [event_type], a nack without requeue for every other message.  It
    calls the sender at most once, not at all for a message it nacks, and
    it publishes nothing and writes no row. *)
Theorem email_worker_answers_every_message
    (tag : Z) (b : Body) (w : World) :
  let r := EmailEventConsumer.callback tag b w in
  fst r = Ok tt
  /\ acknowledgements (snd r)
     = acknowledgements w
         ++ [if email_accepts b then Ack tag else Nack tag false]
  /\ (exists new,
        emails (snd r) = emails w ++ new
        /\ (length new <= 1)%nat
        /\ (email_accepts b = false -> new = []))
  /\ published (snd r) = published w
  /\ payments (snd r) = payments w.
Proof.
  open_world w. unfold email_accepts.
  cbn [acknowledgements payments published emails].
  destruct b as [v|raw]; [destruct v as [| | | | | |d]|];
    try destruct (lookup "event_type" d) eqn:E1;
    run_all_ways;
    (split; [reflexivity|]); (split; [reflexivity|]);
    (split; [|split; reflexivity]);
    first [ exists []; rewrite app_nil_r;
            split; [reflexivity|]; split; [cbn; lia|reflexivity]
          | eexists; split; [reflexivity|];
            split; [cbn; lia|intros H; discriminate H] ].
Qed.

(** ** Events that lack a field *)

(** X11. An [order.created] event without [user_email] costs a completed
    payment its status: the gateway call returns, the row is committed as
    completed with its transaction id, then the build of the
    [payment.processed] event raises [KeyError], the except branch of
    [process_payment] sets the row to failed, nothing is published, and
    the message is acknowledged. *)
Theorem missing_user_email_fails_a_completed_payment
    (tag : Z) (d : list (string * json)) (w : World)
    (event_type order_id user_id total : json) (amount : Decimal) :
  lookup "event_type" d = Some event_type ->
  lookup "order_id" d = Some order_id ->
  lookup "user_id" d = Some user_id ->
  lookup "total_amount" d = Some total ->
  Decimal_new total = Ok amount ->
  lookup "user_email" d = None ->
  hd false (gateway_faults (env w)) = false ->
  let r := PaymentEventConsumer.callback tag (JsonText (JDict d)) w in
  let pending := pending_payment order_id user_id amount w in
  let completed := completed_payment order_id user_id amount w in
  let failed :=
    failed_payment order_id user_id amount
      (Payment.transaction_id completed) w in
  fst r = Ok tt
  /\ payment_commits (snd r)
     = payment_commits w ++ [pending; completed; failed]
  /\ payments (snd r) = payments w ++ [failed]
  /\ published (snd r) = published w
  /\ acknowledgements (snd r) = acknowledgements w ++ [Ack tag]
  /\ log (snd r)
     = log w ++ [Info "Received event" event_type;
                 Info "Processing payment for order" order_id;
                 Info "Amount" total;
                 Error "Payment failed" (KeyError "user_email")].
Proof.
  intros H1 H2 H3 H4 H5 H6 H7. open_world w.
  unfold pending_payment, completed_payment, failed_payment.
  cbn [payments payment_commits published acknowledgements env
       gateway_faults uuids log] in *.
  run_all_ways;
    cbn [Payment.id Payment.order_id Payment.user_id Payment.amount
         Payment.status Payment.transaction_id];
    rewrite ?write_fresh_payment by reflexivity;
    rewrite <- ?app_assoc; cbn [app];
    repeat split; reflexivity.
Qed.

Lemma missing_user_email_fails_a_completed_payment_witness :
  let d := without "user_email" scenario_event in
  let w := empty_world no_faults in
  let r := PaymentEventConsumer.callback 1 (JsonText (JDict d)) w in
  let amount := Finite false 2500 (-2) in
  let pending := pending_payment (JInt 1) (JInt 42) amount w in
  let completed := completed_payment (JInt 1) (JInt 42) amount w in
  let failed :=
    failed_payment (JInt 1) (JInt 42) amount
      (Payment.transaction_id completed) w in
  fst r = Ok tt
  /\ payment_commits (snd r)
     = payment_commits w ++ [pending; completed; failed]
  /\ payments (snd r) = payments w ++ [failed]
  /\ published (snd r) = published w
  /\ acknowledgements (snd r) = acknowledgements w ++ [Ack 1]
  /\ log (snd r)
     = log w ++ [Info "Received event" (JStr "order.created");
                 Info "Processing payment for order" (JInt 1);
                 Info "Amount" (JStr "25.00");
                 Error "Payment failed" (KeyError "user_email")].
Proof.
  exact (missing_user_email_fails_a_completed_payment 1
           (without "user_email" scenario_event) (empty_world no_faults)
           (JStr "order.created") (JInt 1) (JInt 42) (JStr "25.00")
           (Finite false 2500 (-2))
           eq_refl eq_refl eq_refl eq_refl eq_refl eq_refl eq_refl).
Defined.

(** X13. A [payment.processed] event of a completed payment that lacks the
    address, the order id or the amount leads to no send: the [KeyError]
    of the first missing field is caught and logged by the send step, the
    sender is not called, and the message is acknowledged all the same. *)
Theorem incomplete_event_sends_nothing_and_is_acked
    (tag : Z) (d : list (string * json)) (w : World) (event_type : json) :
  lookup "event_type" d = Some event_type ->
  lookup "status" d = Some (JStr "completed") ->
  lookup "user_email" d = None \/ lookup "order_id" d = None
  \/ lookup "amount" d = None ->
  let r := EmailEventConsumer.callback tag (JsonText (JDict d)) w in
  fst r = Ok tt
  /\ emails (snd r) = emails w
  /\ acknowledgements (snd r) = acknowledgements w ++ [Ack tag]
  /\ exists key,
       In key ["user_email"%string; "order_id"%string; "amount"%string]
       /\ lookup key d = None
       /\ log (snd r)
          = log w ++ [Info "Received event" event_type;
                      Error "Failed to send email" (KeyError key)].
Proof.
  intros H1 H2 H3. open_world w.
  cbn [emails acknowledgements log].
  destruct (lookup "user_email" d) eqn:E1;
    [destruct (lookup "order_id" d) eqn:E2;
     [destruct (lookup "amount" d) eqn:E3;
      [exfalso; destruct H3 as [H|[H|H]]; discriminate H|]|]|];
    run_all_ways; rewrite <- ?app_assoc; cbn [app];
    (split; [reflexivity|]); (split; [reflexivity|]);
    (split; [reflexivity|]);
    eexists; (split; [|split; [|reflexivity]]);
    [cbn [In]; auto|assumption|cbn [In]; auto|assumption
    |cbn [In]; auto|assumption].
Qed.

Lemma incomplete_event_sends_nothing_and_is_acked_witness :
  let d := without "amount" scenario_payment_processed in
  let w := empty_world no_faults in
  let r := EmailEventConsumer.callback 1 (JsonText (JDict d)) w in
  fst r = Ok tt
  /\ emails (snd r) = emails w
  /\ acknowledgements (snd r) = acknowledgements w ++ [Ack 1]
  /\ exists key,
       In key ["user_email"%string; "order_id"%string; "amount"%string]
       /\ lookup key d = None
       /\ log (snd r)
          = log w ++ [Info "Received event" (JStr "payment.processed");
                      Error "Failed to send email" (KeyError key)].
Proof.
  exact (incomplete_event_sends_nothing_and_is_acked 1
           (without "amount" scenario_payment_processed)
           (empty_world no_faults) (JStr "payment.processed")
           eq_refl eq_refl (or_intror (or_intror eq_refl))).
Defined.

(** ** From the checkout to the e-mail *)

Lemma checkout_emails request :
  stable emails eq (OrderService.checkout request).
Proof.
  unfold OrderService.checkout, OrderService.db_add, OrderService.db_commit,
    EventPublisher.publish_event, EventPublisher.connect.
  frame_eq.
Qed.

Lemma checkout_acknowledgements request :
  stable acknowledgements eq (OrderService.checkout request).
Proof.
  unfold OrderService.checkout, OrderService.db_add, OrderService.db_commit,
    EventPublisher.publish_event, EventPublisher.connect.
  frame_eq.
Qed.

Lemma checkout_payments request :
  stable payments eq (OrderService.checkout request).
Proof.
  unfold OrderService.checkout, OrderService.db_add, OrderService.db_commit,
    EventPublisher.publish_event, EventPublisher.connect.
  frame_eq.
Qed.

Lemma payment_callback_emails tag body :
  stable emails eq (PaymentEventConsumer.callback tag body).
Proof.
  unfold PaymentEventConsumer.callback, PaymentEventConsumer.process_payment,
    PaymentEventConsumer.publish_payment_event,
    PaymentEventConsumer.db_add, PaymentEventConsumer.db_commit,
    PaymentEventConsumer.read_payment, PaymentEventConsumer.db_close.
  frame_eq.
Qed.

Lemma email_callback_payments tag body :
  stable payments eq (EmailEventConsumer.callback tag body).
Proof.
  unfold EmailEventConsumer.callback,
    EmailEventConsumer.send_confirmation_email.
  frame_eq.
Qed.

(** What the callback of the Email Worker does with the event of a
    completed payment that carries the fields of the confirmation. *)
Lemma email_callback_run tag d w event_type user_email order_id amount :
  lookup "event_type" d = Some event_type ->
  lookup "status" d = Some (JStr "completed") ->
  lookup "user_email" d = Some user_email ->
  lookup "order_id" d = Some order_id ->
  lookup "amount" d = Some amount ->
  let r := EmailEventConsumer.callback tag (JsonText (JDict d)) w in
  fst r = Ok tt
  /\ emails (snd r)
     = emails w
         ++ [email_call user_email order_id amount
               match lookup "transaction_id" d with
               | Some v => v
               | None => JStr "N/A"
               end]
  /\ acknowledgements (snd r) = acknowledgements w ++ [Ack tag].
Proof.
  intros H1 H2 H3 H4 H5. open_world w. cbn [emails acknowledgements].
  run_all_ways; repeat split; reflexivity.
Qed.

(** X12. From the checkout to the e-mail.  When the broker takes the
    messages and the gateway call returns, the event that a checkout
    publishes carries the key of the Payment Worker's queue; delivered
    there, it gives one completed payment of the order's total and one
    event under the key of the Email Worker's queue; delivered there, that
    event gives one call of the sender, with the address of the request,
    the id of the order, the text of its total and the transaction id of
    the payment.  Both deliveries are acknowledged. *)
Theorem checkout_reaches_the_buyer
    (request : CheckoutRequest.t) (w : World) (tag1 tag2 : Z) :
  broker_down w = false ->
  let r := OrderService.checkout request w in
  let w1 := snd r in
  hd false (gateway_faults (env w1)) = false ->
  hd false (publish_faults (env w1)) = false ->
  exists response m1 m2 payment transaction_id,
    fst r = Ok response
    /\ published w1 = published w ++ [m1]
    /\ routing_key m1 = PaymentEventConsumer.routing_key
    /\ let w2 := snd (PaymentEventConsumer.callback tag1 (body m1) w1) in
       payments w2 = payments w ++ [payment]
       /\ Payment.order_id payment = JInt (OrderResponse.id response)
       /\ Payment.amount payment
          = to_Decimal (OrderResponse.total_amount response)
       /\ Payment.status payment = "completed"%string
       /\ Payment.transaction_id payment = Some transaction_id
       /\ published w2 = published w1 ++ [m2]
       /\ routing_key m2 = EmailEventConsumer.routing_key
       /\ let w3 := snd (EmailEventConsumer.callback tag2 (body m2) w2) in
          emails w3
          = emails w
              ++ [email_call
                    (JStr (CheckoutRequest.user_email request))
                    (JInt (OrderResponse.id response))
                    (JStr (Decimal_str
                             (to_Decimal
                                (OrderResponse.total_amount response))))
                    (JStr transaction_id)]
          /\ acknowledgements w3
             = acknowledgements w ++ [Ack tag1; Ack tag2]
          /\ payments w3 = payments w2.
Proof.
  intros Hup r w1 Hg Hb.
  destruct (checkout_run request w) as (Hr & _ & Hp & _).
  fold r in Hr, Hp. fold w1 in Hp. rewrite Hup in Hp.
  set (order := created_order request w) in *.
  set (total := to_Decimal (Order.total_amount order)).
  set (event := order_created_event order
                  (hd EmptyString (uuids (env w)))
                  (hd EmptyString (tl (timestamps (env w))))).
  pose proof (payment_callback_run tag1 event w1
                (JStr "order.created") (JInt (Order.id order))
                (JInt (Order.user_id order)) (JStr (Decimal_str total)) total
                eq_refl eq_refl eq_refl eq_refl (Decimal_new_str total))
    as (_ & Ha & H).
  assert (Hue : lookup "user_email" event = Some (JStr (Order.user_email order)))
    by reflexivity.
  rewrite Hg, Hb, Hue in H.
  destruct H as (Hpay & _ & Hpub & _).
  set (completed := completed_payment (JInt (Order.id order))
                      (JInt (Order.user_id order)) total w1) in *.
  set (w2 := snd (PaymentEventConsumer.callback tag1
                    (JsonText (JDict event)) w1)) in *.
  pose proof (email_callback_run tag2
                (payment_processed_event completed
                   (JStr (Order.user_email order))
                   (hd EmptyString (tl (uuids (env w1))))
                   (hd EmptyString (timestamps (env w1))))
                w2 (JStr "payment.processed")
                (JStr (Order.user_email order)) (JInt (Order.id order))
                (JStr (Decimal_str total))
                eq_refl eq_refl eq_refl eq_refl eq_refl)
    as (_ & He & Hk).
  exists (OrderService.response_of order), (order_created_message request w),
    (payment_processed_message completed (JStr (Order.user_email order)) w1),
    completed,
    (PaymentEventConsumer.transaction_id_of (hd EmptyString (uuids (env w1)))).
  split; [exact Hr|]. split; [exact Hp|]. split; [reflexivity|].
  cbn [body order_created_message payment_processed_message]. cbv zeta.
  fold order event w2.
  assert (E1 : payments w1 = payments w)
    by (symmetry; exact (checkout_payments request w)).
  assert (E2 : emails w1 = emails w)
    by (symmetry; exact (checkout_emails request w)).
  assert (E3 : acknowledgements w1 = acknowledgements w)
    by (symmetry; exact (checkout_acknowledgements request w)).
  assert (E4 : emails w2 = emails w1)
    by (symmetry; exact (payment_callback_emails tag1 _ w1)).
  rewrite E1 in Hpay. rewrite E4, E2 in He.
  rewrite Ha, E3, <- app_assoc in Hk.
  split; [exact Hpay|]. split; [reflexivity|]. split; [reflexivity|].
  split; [reflexivity|]. split; [reflexivity|].
  split; [exact Hpub|]. split; [reflexivity|].
  split; [exact He|]. split; [exact Hk|].
  symmetry. apply (email_callback_payments tag2 _ w2).
Qed.

Lemma checkout_reaches_the_buyer_witness :
  let w := empty_world no_faults in
  let r := OrderService.checkout scenario_request w in
  let w1 := snd r in
  exists response m1 m2 payment transaction_id,
    fst r = Ok response
    /\ published w1 = published w ++ [m1]
    /\ routing_key m1 = PaymentEventConsumer.routing_key
    /\ let w2 := snd (PaymentEventConsumer.callback 1 (body m1) w1) in
       payments w2 = payments w ++ [payment]
       /\ Payment.order_id payment = JInt (OrderResponse.id response)
       /\ Payment.amount payment
          = to_Decimal (OrderResponse.total_amount response)
       /\ Payment.status payment = "completed"%string
       /\ Payment.transaction_id payment = Some transaction_id
       /\ published w2 = published w1 ++ [m2]
       /\ routing_key m2 = EmailEventConsumer.routing_key
       /\ let w3 := snd (EmailEventConsumer.callback 2 (body m2) w2) in
          emails w3
          = emails w
              ++ [email_call
                    (JStr (CheckoutRequest.user_email scenario_request))
                    (JInt (OrderResponse.id response))
                    (JStr (Decimal_str
                             (to_Decimal
                                (OrderResponse.total_amount response))))
                    (JStr transaction_id)]
          /\ acknowledgements w3 = acknowledgements w ++ [Ack 1; Ack 2]
          /\ payments w3 = payments w2.
Proof.
  exact (checkout_reaches_the_buyer scenario_request (empty_world no_faults)
           1 2 eq_refl eq_refl eq_refl).
Defined.

(** ** Through the gateway *)

Lemma find_none_not_in (l : list Order.t) order_id :
  find (fun o => Order.id o =? order_id) l = None ->
  ~ In order_id (map Order.id l).
Proof.
  intros E H. apply in_map_iff in H. destruct H as (o & Hid & Hin).
  pose proof (find_none _ _ E o Hin) as Hf. cbn in Hf.
  apply Z.eqb_neq in Hf. contradiction.
Qed.

Lemma order_route_found order_id w o :
  find (fun r => Order.id r =? order_id) (orders w) = Some o ->
  OrderServiceApp.get_order order_id w
  = (Ok (Response 200
           (JsonText
              (OrderServiceApp.response_json (OrderService.response_of o)))),
     w).
Proof.
  intros E. unfold OrderServiceApp.get_order, OrderServiceApp.serve,
    OrderService.get_order, bind, get.
  now rewrite E.
Qed.

Lemma order_route_not_found order_id w :
  find (fun r => Order.id r =? order_id) (orders w) = None ->
  OrderServiceApp.get_order order_id w
  = (Ok (Response 404
           (JsonText (JDict [("detail"%string, JStr "Order not found")]))),
     w).
Proof.
  intros E. unfold OrderServiceApp.get_order, OrderServiceApp.serve,
    OrderService.get_order, bind, get.
  now rewrite E.
Qed.

(** X14. The status of an order, asked through the gateway of the order
    service: for an id that a row has, the id and the status of the row
    with a [payment] that is always null, the response of the order
    service having no such field; for an id that no row has, the 404 of
    the order service, relayed.  Nothing is written. *)
Theorem gateway_order_status_has_no_payment (order_id : Z) (w : World) :
  let r := Gateway.get_order_status OrderServiceApp.get_order order_id w in
  snd r = w
  /\ (In order_id (map Order.id (orders w)) ->
      exists order,
        In order (orders w) /\ Order.id order = order_id
        /\ fst r = Ok (JDict [("id"%string, JInt order_id);
                              ("status"%string, JStr (Order.status order));
                              ("payment"%string, JNull)]))
  /\ (~ In order_id (map Order.id (orders w)) ->
      fst r = Raise (HTTPException 404)).
Proof.
  intros r.
  destruct (find (fun o => Order.id o =? order_id) (orders w)) as [o|] eqn:E.
  - assert (Hr : r = (Ok (JDict [("id"%string, JInt (Order.id o));
                                 ("status"%string, JStr (Order.status o));
                                 ("payment"%string, JNull)]), w)).
    { unfold r, Gateway.get_order_status, bind.
      rewrite (order_route_found _ _ _ E). reflexivity. }
    rewrite Hr. cbn [fst snd].
    apply find_some_in in E. destruct E as (Hin & Hid).
    apply Z.eqb_eq in Hid. subst order_id.
    split; [reflexivity|]. split.
    + intros _. exists o. split; [exact Hin|]. split; reflexivity.
    + intros H. exfalso. apply H. now apply in_map.
  - assert (Hr : r = (Raise (HTTPException 404), w)).
    { unfold r, Gateway.get_order_status, bind.
      rewrite (order_route_not_found _ _ E). reflexivity. }
    rewrite Hr. cbn [fst snd].
    apply find_none_not_in in E.
    split; [reflexivity|]. split; [intros H; contradiction|reflexivity].
Qed.



(* ================================================================== *)
(** * The monolith *)

Import Monolith.
Local Open Scope mono_scope.

(** ** What a computation keeps *)

Lemma keeps_ret {X A} (view : State -> X) (a : A) : keeps view (ret a).
Proof. intros s. reflexivity. Qed.

Lemma keeps_throw {X A} (view : State -> X) (e : exn) :
  keeps view (@throw A e).
Proof. intros s. reflexivity. Qed.

Lemma keeps_bind {X A B} (view : State -> X) (m : M A) (k : A -> M B) :
  keeps view m -> (forall a, keeps view (k a)) -> keeps view (bind m k).
Proof.
  intros Hm Hk s. unfold bind. specialize (Hm s).
  destruct (m s) as [[a|e] s1]; cbn [snd] in *; [|exact Hm].
  now rewrite Hk.
Qed.

Lemma keeps_for_fold {X A B} (view : State -> X) (l : list A)
    (body : B -> A -> M B) :
  (forall acc x, keeps view (body acc x)) ->
  forall acc, keeps view (for_fold l acc body).
Proof.
  intros Hb. induction l as [|x l IH]; intros acc; cbn [for_fold].
  - apply keeps_ret.
  - apply keeps_bind; [apply Hb|intro; apply IH].
Qed.

(** The structure of a computation, taken apart down to the steps that
    write. *)
Ltac keep :=
  unfold OrderService.check_item, OrderService.reserve_item,
    OrderService.reduce_item, OrderService.items_of, query_inventory,
    change_inventory, save_order, flush, for_each,
    EmailService.send_order_confirmation,
    EmailService.send_shipping_notification;
  repeat lazymatch goal with
    | |- keeps _ (bind _ _) => apply keeps_bind; [|intro]
    | |- keeps _ (for_fold _ _ _) => apply keeps_for_fold; intros
    | |- keeps _ (match ?x with _ => _ end) => destruct x
    | |- keeps _ _ => let s := fresh "s" in intros s; reflexivity
    end.

Lemma atomic_throw {A} (e : exn) : atomic (@throw A e).
Proof. intros s. reflexivity. Qed.

Lemma atomic_bind {A B} (m : M A) (k : A -> M B) :
  keeps committed m -> (forall a, atomic (k a)) -> atomic (bind m k).
Proof.
  intros Hm Hk s. unfold bind. specialize (Hm s).
  destruct (m s) as [[a|e] s1]; cbn [snd] in *; [|exact Hm].
  specialize (Hk a s1). destruct (k a s1) as [[b|e] s2]; congruence.
Qed.

Lemma atomic_commit {A} (a : A) : atomic (bind commit (fun _ => ret a)).
Proof. intros s. reflexivity. Qed.

Ltac transaction :=
  cbv zeta;
  repeat lazymatch goal with
    | |- atomic (bind commit _) => apply atomic_commit
    | |- atomic (bind _ _) => apply atomic_bind; [keep|intro]
    | |- atomic (throw _) => apply atomic_throw
    | |- atomic (match ?x with _ => _ end) => destruct x
    end.

(** A transaction under [except: db.rollback(); raise]. *)
Lemma rollback_on_failure {A} (body : M A) (s : State) :
  atomic body ->
  let r := try_except body (fun e => rollback ;; throw e) s in
  match fst r with
  | Throw _ => committed (snd r) = committed s /\ session (snd r) = committed s
  | Return _ => committed (snd r) = session (snd r)
  end.
Proof.
  intros H. specialize (H s). unfold try_except.
  destruct (body s) as [[a|e] s1]; cbn [fst snd]; [exact H|].
  unfold bind, rollback, throw, set_session. cbn [fst snd committed session].
  now split.
Qed.

(** X16. The checkout of the monolith is one transaction, whatever the
    cart, the stock, the answer of the payment gateway and the users: when
    [create_order_from_cart] raises, the database holds what it held
    before and the session sees just that, no reservation, order, line,
    payment or notification being left; when it returns, everything it
    wrote is committed. *)
Theorem monolith_order_is_all_or_nothing
    (user_id : Z) (shipping_address payment_method : string) (s : State) :
  let r :=
    OrderService.create_order_from_cart user_id shipping_address
      payment_method s in
  match fst r with
  | Throw _ => committed (snd r) = committed s /\ session (snd r) = committed s
  | Return _ => committed (snd r) = session (snd r)
  end.
Proof.
  unfold OrderService.create_order_from_cart.
  unfold bind at 1. unfold time_time at 1. cbv beta iota.
  match goal with
  | |- context [try_except ?b ?h ?s1] =>
      pose proof (rollback_on_failure b s1) as H
  end.
  apply H. clear H. transaction.
Qed.

(** ** Running the checkout *)

Ltac mono :=
  cbv beta iota zeta delta
    [bind ret throw try_except read write commit rollback flush
     set_session set_inventory set_cart_items set_orders set_order_items
     set_payments set_notifications
     time_time add_order add_order_item add_payment add_notification
     save_order query_inventory change_inventory
     OrderService.items_of OrderService.create_order_from_cart
     OrderService.get_order OrderService.update_order_status
     Router.checkout Router.get_order
     PaymentService.process_payment EmailService.send_email
     EmailService.send_order_confirmation
     EmailService.send_shipping_notification
     committed session next_order_id next_order_item_id next_payment_id
     next_notification_id gateway_calls sent draws uuids clock smtp_faults
     fst snd];
  cbn [users carts cart_items inventory orders order_items payments
       notifications].

(** The checks of steps 2 and 3 write nothing: they raise for the first
    item that the stock does not cover, and give the total when there is
    none. *)
Lemma check_items (items : list CartItem.t) : forall acc s,
  for_fold items acc OrderService.check_item s
  = match find (short (inventory (session s))) items with
    | Some bad =>
        (Throw (ValueError
                  ("Insufficient stock for product "
                     ++ text_of (str_int (CartItem.product_id bad)))),
         s)
    | None =>
        (Return
           (fold_left
              (fun total cart_item =>
                 float_add total
                   (float_mul
                      (float_of_Decimal (CartItem.price_snapshot cart_item))
                      (float_of_int (CartItem.quantity cart_item))))
              items acc),
         s)
    end.
Proof.
  induction items as [|x items IH]; intros acc s; cbn [for_fold find fold_left];
    [reflexivity|].
  unfold bind at 1. unfold OrderService.check_item at 1.
  unfold query_inventory, read, bind, ret, throw, short.
  destruct (find _ (inventory (session s))) as [i|]; [|reflexivity].
  destruct (Inventory.available i <? CartItem.quantity x); [reflexivity|].
  apply IH.
Qed.

(** What the checkout does with a cart that it turns down. *)
Lemma create_order_rejected user_id shipping_address payment_method s message :
  (cart_of user_id (session s) = [] /\ message = "Cart is empty"%string)
  \/ (exists bad,
        find (short (inventory (session s))) (cart_of user_id (session s))
        = Some bad
        /\ message
           = ("Insufficient stock for product "
                ++ text_of (str_int (CartItem.product_id bad)))%string) ->
  OrderService.create_order_from_cart user_id shipping_address
    payment_method s
  = (Throw (ValueError message), set_session (committed s) (snd (time_time s))).
Proof.
  intros H. unfold cart_of in H. destruct s as [c t n1 n2 n3 n4 g e d u k f].
  cbn [session inventory] in H. mono.
  destruct (find (fun c0 => Cart.user_id c0 =? user_id) (carts t))
    as [cart|].
  - destruct (filter _ (cart_items t)) as [|x items] eqn:E.
    + destruct H as [(_ & ->)|(bad & Hb & _)]; [reflexivity|discriminate Hb].
    + destruct H as [(H & _)|(bad & Hb & ->)]; [discriminate H|].
      rewrite check_items. cbn [session inventory]. rewrite Hb. reflexivity.
  - destruct H as [(_ & ->)|(bad & Hb & _)]; [reflexivity|discriminate Hb].
Qed.

(** X17. The monolith turns down a checkout with an empty cart, the user
    having no cart or a cart without items, and a checkout that the stock
    does not cover, a product of the cart having no inventory row or less
    available than asked for: the router answers 400 with the message,
    [Cart is empty] or [Insufficient stock for product] with the id of the
    first such product, and there are no partial effects: the database and
    the session are as before, no id is used up, the payment gateway is
    not called and no e-mail is sent. *)
Theorem monolith_rejects_empty_cart_and_short_stock
    (user_id : Z) (shipping_address payment_method : string) (s : State) :
  session s = committed s ->
  let items := cart_of user_id (session s) in
  let r := Router.checkout user_id shipping_address payment_method s in
  (items = [] -> fst r = Throw (HTTPException 400 "Cart is empty"))
  /\ (forall bad,
        find (short (inventory (session s))) items = Some bad ->
        fst r
        = Throw (HTTPException 400
                   ("Insufficient stock for product "
                      ++ text_of (str_int (CartItem.product_id bad)))))
  /\ (items = [] \/ find (short (inventory (session s))) items <> None ->
      committed (snd r) = committed s
      /\ session (snd r) = session s
      /\ next_order_id (snd r) = next_order_id s
      /\ next_order_item_id (snd r) = next_order_item_id s
      /\ gateway_calls (snd r) = gateway_calls s
      /\ sent (snd r) = sent s).
Proof.
  intros Hs items r.
  assert (Hrun : forall message,
             (items = [] /\ message = "Cart is empty"%string)
             \/ (exists bad,
                   find (short (inventory (session s))) items = Some bad
                   /\ message
                      = ("Insufficient stock for product "
                           ++ text_of (str_int (CartItem.product_id bad)))
                          %string) ->
             r = (Throw (HTTPException 400 message),
                  set_session (committed s)
                    (snd (time_time (snd (time_time s)))))).
  { intros message H. unfold r, Router.checkout.
    unfold bind at 1. unfold try_except. unfold bind at 1.
    destruct (time_time s) as [[start|e] s1] eqn:E1;
      [|unfold time_time in E1; discriminate E1].
    assert (Hs1 : session s1 = session s /\ committed s1 = committed s)
      by (unfold time_time in E1; injection E1 as _ <-; now split).
    destruct Hs1 as (Hs1 & Hc1).
    rewrite (create_order_rejected _ _ _ s1 message);
      [now rewrite Hc1|now rewrite Hs1]. }
  split; [|split].
  - intros H. now rewrite (Hrun "Cart is empty"%string) by auto.
  - intros bad H. erewrite Hrun; [reflexivity|]. right. now exists bad.
  - intros H.
    assert (E : exists message,
               r = (Throw (HTTPException 400 message),
                    set_session (committed s)
                      (snd (time_time (snd (time_time s)))))).
    { destruct H as [H|H].
      - eexists. apply Hrun. left. split; [exact H|reflexivity].
      - destruct (find (short (inventory (session s))) items) as [bad|] eqn:Eb;
          [|contradiction].
        eexists. apply Hrun. right. exists bad. split; reflexivity. }
    destruct E as (message & ->). cbn [snd].
    destruct s. cbn in *. subst. repeat split.
Qed.

Lemma monolith_rejects_empty_cart_and_short_stock_witness :
  let s := shop 0 true in
  let items := cart_of 7 (session s) in
  let r := Router.checkout 7 "1 Main Street" "credit_card" s in
  (items = [] -> fst r = Throw (HTTPException 400 "Cart is empty"))
  /\ (forall bad,
        find (short (inventory (session s))) items = Some bad ->
        fst r
        = Throw (HTTPException 400
                   ("Insufficient stock for product "
                      ++ text_of (str_int (CartItem.product_id bad)))))
  /\ (items = [] \/ find (short (inventory (session s))) items <> None ->
      committed (snd r) = committed s
      /\ session (snd r) = session s
      /\ next_order_id (snd r) = next_order_id s
      /\ next_order_item_id (snd r) = next_order_item_id s
      /\ gateway_calls (snd r) = gateway_calls s
      /\ sent (snd r) = sent s).
Proof.
  exact (monolith_rejects_empty_cart_and_short_stock 7 "1 Main Street"
           "credit_card" (shop 0 true) eq_refl).
Defined.

(** The shop with no stock of the second product: the checkout is turned
    down for that product. *)
Example shop_without_stock :
  fst (Router.checkout 7 "1 Main Street" "credit_card" (shop 0 true))
  = Throw (HTTPException 400 "Insufficient stock for product 2").
Proof. reflexivity. Qed.

(** X18. The monolith gives an order only to the user it belongs to:
    [get_order] of the router returns an order of the asked id that is the
    current user's, and answers 404, as for an id that does not exist,
    when every order of that id belongs to someone else.  It writes
    nothing. *)
Theorem monolith_get_order_is_the_users
    (order_id current_user_id : Z) (s : State) :
  let r := Router.get_order order_id current_user_id s in
  snd r = s
  /\ match fst r with
     | Return order =>
         In order (orders (session s))
         /\ Order.id order = order_id
         /\ Order.user_id order = current_user_id
     | Throw e =>
         e = HTTPException 404 "Order not found"
         /\ forall o,
              In o (orders (session s)) -> Order.id o = order_id ->
              Order.user_id o <> current_user_id
     end.
Proof.
  unfold Router.get_order, OrderService.get_order, bind, read, ret, throw.
  cbn [fst snd].
  destruct (find _ (orders (session s))) as [o|] eqn:E; cbn [fst snd].
  - apply find_some in E. destruct E as (Hin & Hb).
    apply andb_prop in Hb. destruct Hb as (H1 & H2).
    apply Z.eqb_eq in H1, H2. auto.
  - split; [reflexivity|]. split; [reflexivity|].
    intros o Hin Hid Hu. pose proof (find_none _ _ E o Hin) as Hf.
    cbn in Hf. rewrite Hid, Hu, !Z.eqb_refl in Hf. discriminate Hf.
Qed.

(** ** The inventory under the steps of the checkout *)

Lemma update_first_ext {A} (p : A -> bool) (f g : A -> A) (l : list A) :
  (forall x, f x = g x) -> update_first p f l = update_first p g l.
Proof.
  intros H. induction l as [|a l IH]; cbn [update_first]; [reflexivity|].
  now rewrite H, IH.
Qed.

Lemma update_first_twice {A} (p : A -> bool) (f g : A -> A) (l : list A) :
  (forall x, p (g x) = p x) ->
  update_first p f (update_first p g l) = update_first p (fun x => f (g x)) l.
Proof.
  intros H. induction l as [|a l IH]; cbn [update_first]; [reflexivity|].
  destruct (p a) eqn:E; cbn [update_first].
  - now rewrite H, E.
  - now rewrite E, IH.
Qed.

Lemma update_first_swap {A} (p q : A -> bool) (f g : A -> A) (l : list A) :
  (forall x, p (g x) = p x) -> (forall x, q (f x) = q x) ->
  (forall x, f (g x) = g (f x)) ->
  update_first p f (update_first q g l)
  = update_first q g (update_first p f l).
Proof.
  intros Hp Hq Hc. induction l as [|a l IH]; cbn [update_first];
    [reflexivity|].
  destruct (q a) eqn:Eq, (p a) eqn:Ep; cbn [update_first];
    rewrite ?Hp, ?Hq, ?Eq, ?Ep, ?Hc, ?IH; reflexivity.
Qed.

Lemma find_update_first {A} (p q : A -> bool) (f : A -> A) (l : list A) :
  (forall x, p (f x) = p x) ->
  find p l <> None -> find p (update_first q f l) <> None.
Proof.
  intros Hp. induction l as [|a l IH]; cbn [update_first find]; [auto|].
  destruct (q a); cbn [find].
  - rewrite Hp. destruct (p a); [discriminate|auto].
  - destruct (p a); [discriminate|auto].
Qed.

Lemma update_first_fresh {A} (p : A -> bool) (f : A -> A) (l : list A) x :
  (forall y, In y l -> p y = false) -> p x = true ->
  update_first p f (l ++ [x]) = l ++ [f x].
Proof.
  intros Hl Hx. induction l as [|a l IH]; cbn [update_first app].
  - now rewrite Hx.
  - rewrite (Hl a (or_introl eq_refl)). f_equal. apply IH.
    intros y Hy. apply Hl. now right.
Qed.

Lemma reduce_past_reserve x items : forall inv,
  reduce x (reserve_all items inv) = reserve_all items (reduce x inv).
Proof.
  unfold reserve_all.
  induction items as [|y items IH]; intros inv; cbn [fold_left];
    [reflexivity|].
  rewrite IH. f_equal. unfold reduce, reserve.
  apply update_first_swap; intros i; cbn; try reflexivity.
  f_equal; lia.
Qed.

(** The reservations of step 4 are taken back by step 9: what is left is
    that the quantities have gone down. *)
Lemma reduce_reserved items : forall inv,
  reduce_all items (reserve_all items inv) = ship_all items inv.
Proof.
  induction items as [|x items IH]; intros inv; [reflexivity|].
  unfold reduce_all, reserve_all, ship_all in *. cbn [fold_left].
  fold (reserve_all items (reserve x inv)).
  rewrite reduce_past_reserve. unfold reserve_all. rewrite IH. f_equal.
  unfold reduce, reserve, ship. rewrite update_first_twice by reflexivity.
  apply update_first_ext. intros i. cbn. f_equal; lia.
Qed.

(** ** The loops of the checkout *)

Lemma stocked_item inv x :
  short inv x = false ->
  find (fun i => Inventory.product_id i =? CartItem.product_id x) inv <> None.
Proof. unfold short. destruct (find _ inv); [discriminate|discriminate]. Qed.

Lemma stocked_items inv items :
  find (short inv) items = None ->
  forall x, In x items ->
    find (fun i => Inventory.product_id i =? CartItem.product_id x) inv
    <> None.
Proof.
  intros H x Hx. apply stocked_item. exact (find_none _ _ H x Hx).
Qed.

(** A loop that changes the inventory row of each item. *)
Lemma change_items message
    (g : CartItem.t -> Inventory.t -> Inventory.t) items :
  (forall x i, Inventory.product_id (g x i) = Inventory.product_id i) ->
  forall s,
    (forall x, In x items ->
       find (fun i => Inventory.product_id i =? CartItem.product_id x)
            (inventory (session s))
       <> None) ->
    for_each items
      (fun cart_item =>
         inventory <- query_inventory (CartItem.product_id cart_item) ;;
         match inventory with
         | None => throw (AttributeError message)
         | Some _ =>
             change_inventory (CartItem.product_id cart_item) (g cart_item)
         end) s
    = (Return tt,
       set_session
         (set_inventory
            (fold_left
               (fun inv x =>
                  update_first
                    (fun i => Inventory.product_id i =? CartItem.product_id x)
                    (g x) inv)
               items (inventory (session s)))
            (session s))
         s).
Proof.
  intros Hg. unfold for_each.
  induction items as [|x items IH]; intros s H; cbn [for_fold fold_left].
  - destruct s as [c t n1 n2 n3 n4 gc e d u k f]. destruct t. reflexivity.
  - unfold bind at 1. unfold query_inventory at 1, read, bind, ret.
    destruct (find _ (inventory (session s))) eqn:E;
      [|exfalso; exact (H x (or_introl eq_refl) E)].
    unfold change_inventory, write. rewrite IH.
    + reflexivity.
    + intros y Hy. cbn [session set_session inventory set_inventory].
      apply find_update_first.
      * intros i. now rewrite Hg.
      * apply H. now right.
Qed.

Lemma reserve_items items s :
  (forall x, In x items ->
     find (fun i => Inventory.product_id i =? CartItem.product_id x)
          (inventory (session s))
     <> None) ->
  for_each items OrderService.reserve_item s
  = (Return tt,
     set_session
       (set_inventory (reserve_all items (inventory (session s))) (session s))
       s).
Proof.
  intros H.
  exact (change_items _
           (fun x i =>
              Inventory.make (Inventory.id i) (Inventory.product_id i)
                (Inventory.quantity i)
                (Inventory.reserved_quantity i + CartItem.quantity x))
           items (fun _ _ => eq_refl) s H).
Qed.

Lemma reduce_items items s :
  (forall x, In x items ->
     find (fun i => Inventory.product_id i =? CartItem.product_id x)
          (inventory (session s))
     <> None) ->
  for_each items OrderService.reduce_item s
  = (Return tt,
     set_session
       (set_inventory (reduce_all items (inventory (session s))) (session s))
       s).
Proof.
  intros H.
  exact (change_items _
           (fun x i =>
              Inventory.make (Inventory.id i) (Inventory.product_id i)
                (Inventory.quantity i - CartItem.quantity x)
                (Inventory.reserved_quantity i - CartItem.quantity x))
           items (fun _ _ => eq_refl) s H).
Qed.

Lemma reserve_all_stocked items inv x :
  find (fun i => Inventory.product_id i =? CartItem.product_id x) inv <> None ->
  find (fun i => Inventory.product_id i =? CartItem.product_id x)
       (reserve_all items inv)
  <> None.
Proof.
  unfold reserve_all. revert inv.
  induction items as [|y items IH]; intros inv H; cbn [fold_left]; [exact H|].
  apply IH. unfold reserve. apply find_update_first; [reflexivity|exact H].
Qed.

(** The lines of the order are written one by one, each with the next
    id. *)
Lemma add_lines order_id items : forall s,
  for_each items
    (fun cart_item =>
       add_order_item order_id (CartItem.product_id cart_item)
         (CartItem.quantity cart_item) (CartItem.price_snapshot cart_item)) s
  = (Return tt,
     state (committed s)
       (set_order_items
          (order_items (session s)
             ++ lines_of order_id (next_order_item_id s) items)
          (session s))
       (next_order_id s)
       (next_order_item_id s + Z.of_nat (length items))
       (next_payment_id s) (next_notification_id s) (gateway_calls s)
       (sent s) (draws s) (uuids s) (clock s) (smtp_faults s)).
Proof.
  unfold for_each.
  induction items as [|x items IH]; intros s; cbn [for_fold lines_of length].
  - destruct s as [c t n1 n2 n3 n4 gc e d u k f]. destruct t.
    unfold ret. cbn. now rewrite app_nil_r, Z.add_0_r.
  - unfold bind at 1. unfold add_order_item at 1. rewrite IH.
    destruct s as [c t n1 n2 n3 n4 gc e d u k f]. destruct t.
    cbn. rewrite <- app_assoc. cbn [app].
    do 2 f_equal. lia.
Qed.

(** ** The checkout, run *)

(** The equations of the monad and of the steps, for a run step by
    step. *)
Lemma bind_eq {A B} (m : M A) (k : A -> M B) s :
  bind m k s
  = match m s with
    | (Return a, s') => k a s'
    | (Throw e, s') => (Throw e, s')
    end.
Proof. reflexivity. Qed.

Lemma try_except_eq {A} (m : M A) (h : exn -> M A) s :
  try_except m h s
  = match m s with
    | (Return a, s') => (Return a, s')
    | (Throw e, s') => h e s'
    end.
Proof. reflexivity. Qed.

Lemma read_eq s : read s = (Return (session s), s).
Proof. reflexivity. Qed.

Lemma write_eq f s : write f s = (Return tt, set_session (f (session s)) s).
Proof. reflexivity. Qed.

Lemma flush_eq s : flush s = (Return tt, s).
Proof. reflexivity. Qed.

Lemma items_of_eq cart s :
  OrderService.items_of cart s
  = (Return
       (filter (fun i => CartItem.cart_id i =? Cart.id cart)
               (cart_items (session s))),
     s).
Proof. reflexivity. Qed.

Ltac simpl_state :=
  cbn [committed session next_order_id next_order_item_id next_payment_id
       next_notification_id gateway_calls sent draws uuids clock smtp_faults
       users carts cart_items inventory orders order_items payments
       notifications set_session set_inventory set_cart_items set_orders
       set_order_items set_payments set_notifications fst snd
       Order.id Order.user_id Order.status Order.total_amount
       Order.shipping_address Order.processing_duration_ms].

Ltac step_with eqn := rewrite bind_eq, eqn; cbv beta iota; simpl_state.

(** What [create_order_from_cart] does with a cart that has items which
    the stock covers. *)
Lemma create_order_runs user_id shipping_address payment_method s cart :
  find (fun c => Cart.user_id c =? user_id) (carts (session s)) = Some cart ->
  let t := session s in
  let items :=
    filter (fun i => CartItem.cart_id i =? Cart.id cart) (cart_items t) in
  items <> [] ->
  find (short (inventory t)) items = None ->
  (forall o, In o (orders t) -> Order.id o <> next_order_id s) ->
  let order_id := next_order_id s in
  let total := total_of items in
  let transaction_id :=
    ("txn_" ++ substring 0 12 (hd EmptyString (uuids s)))%string in
  let after_payment (success : bool) :=
    state (committed s) (committed s) (order_id + 1)
      (next_order_item_id s + Z.of_nat (length items))
      (if success then next_payment_id s + 1 else next_payment_id s)
      (next_notification_id s)
      (gateway_calls s ++ [gateway_call order_id total payment_method success])
      (sent s) (tl (draws s)) (tl (uuids s)) (tl (clock s)) (smtp_faults s) in
  OrderService.create_order_from_cart user_id shipping_address
    payment_method s
  = if hd true (draws s) then
      match find (fun u => User.id u =? user_id) (users t) with
      | None =>
          (Throw (AttributeError "'NoneType' object has no attribute 'email'"),
           after_payment true)
      | Some user =>
          let order :=
            Order.make order_id user_id PAID total shipping_address
              (Some (hd 0 (tl (clock s)) - hd 0 (clock s))) in
          let t' :=
            tables (users t) (carts t)
              (filter (fun i => negb (CartItem.cart_id i =? Cart.id cart))
                      (cart_items t))
              (ship_all items (inventory t))
              (orders t ++ [order])
              (order_items t ++ lines_of order_id (next_order_item_id s) items)
              (payments t
                 ++ [Payment.make (next_payment_id s) order_id total
                       "completed" payment_method transaction_id])
              (notifications t
                 ++ [Notification.make (next_notification_id s) user_id
                       "order_confirmation"
                       ("Your order #" ++ text_of (str_int order_id)
                          ++ " has been confirmed!")
                       0]) in
          (Return order,
           state t' t' (order_id + 1)
             (next_order_item_id s + Z.of_nat (length items))
             (next_payment_id s + 1) (next_notification_id s + 1)
             (gateway_calls s
                ++ [gateway_call order_id total payment_method true])
             (sent s
                ++ [email (User.email user)
                      ("Order Confirmation #" ++ text_of (str_int order_id))
                      (OrderConfirmation order_id total)
                      (negb (hd false (smtp_faults s)))])
             (tl (draws s)) (tl (uuids s)) (tl (tl (clock s)))
             (tl (smtp_faults s)))
      end
    else (Throw (ValueError "Payment failed"), after_payment false).
Proof.
  intros Hcart t items Hitems Hstock Hfresh.
  destruct s as [c t0 n1 n2 n3 n4 gc e d u k f].
  cbn [session next_order_id next_order_item_id next_payment_id
       next_notification_id gateway_calls sent draws uuids clock smtp_faults
       committed] in *.
  subst t. cbv zeta.
  assert (Hrows := stocked_items _ _ Hstock).
  unfold OrderService.create_order_from_cart.
  rewrite bind_eq. unfold time_time at 1. cbv beta iota. simpl_state.
  rewrite try_except_eq.
  step_with read_eq. rewrite Hcart.
  step_with items_of_eq. fold items.
  destruct items as [|x items'] eqn:Eitems; [contradiction|].
  rewrite <- Eitems in *. clear Hitems.
  step_with check_items. rewrite Hstock. cbv beta iota.
  rewrite bind_eq, reserve_items by exact Hrows. cbv beta iota. simpl_state.
  step_with flush_eq.
  rewrite bind_eq. unfold add_order at 1. cbv beta iota. simpl_state.
  step_with add_lines.
  step_with flush_eq.
  rewrite bind_eq. unfold PaymentService.process_payment at 1.
  cbv beta iota zeta. simpl_state.
  destruct (hd true d); cbn [negb]; cbv beta iota.
  - (* the payment succeeds *)
    rewrite bind_eq. unfold add_payment at 1. cbv beta iota. simpl_state.
    rewrite bind_eq. unfold save_order at 1. rewrite write_eq.
    cbv beta iota. simpl_state.
    step_with flush_eq.
    rewrite bind_eq, reduce_items
      by (intros y Hy; simpl_state; apply reserve_all_stocked, Hrows, Hy).
    cbv beta iota. simpl_state.
    step_with flush_eq.
    step_with read_eq.
    destruct (find (fun u0 => User.id u0 =? user_id) (users t0)) as [user|].
    + rewrite bind_eq. unfold EmailService.send_order_confirmation at 1.
      unfold EmailService.send_email at 1. cbv beta iota. simpl_state.
      rewrite bind_eq. unfold add_notification at 1. cbv beta iota.
      simpl_state.
      step_with flush_eq.
      step_with write_eq.
      step_with flush_eq.
      rewrite bind_eq. unfold time_time at 1. cbv beta iota. simpl_state.
      rewrite bind_eq. unfold save_order at 1. rewrite write_eq.
      cbv beta iota. simpl_state.
      rewrite bind_eq. unfold commit at 1. cbv beta iota. simpl_state.
      unfold ret.
      rewrite reduce_reserved.
      rewrite update_first_fresh;
        [|intros y Hy; apply Z.eqb_neq; now apply Hfresh
         |cbn [Order.id]; apply Z.eqb_refl].
      rewrite update_first_fresh;
        [|intros y Hy; apply Z.eqb_neq; now apply Hfresh
         |cbn [Order.id]; apply Z.eqb_refl].
      reflexivity.
    + unfold throw at 1. unfold bind, rollback, throw. simpl_state.
      reflexivity.
  - (* the payment fails *)
    unfold throw at 1. unfold bind, rollback, throw. simpl_state.
    reflexivity.
Qed.

(** The router, in terms of the service. *)
Lemma router_checkout_eq user_id shipping_address payment_method s :
  Router.checkout user_id shipping_address payment_method s
  = match
      OrderService.create_order_from_cart user_id shipping_address
        payment_method (snd (time_time s))
    with
    | (Return order, s') => (Return order, snd (time_time s'))
    | (Throw (ValueError msg), s') => (Throw (HTTPException 400 msg), s')
    | (Throw e, s') =>
        (Throw (HTTPException 500 ("Order creation failed: " ++ str_exn e)),
         s')
    end.
Proof.
  unfold Router.checkout. rewrite bind_eq. unfold time_time at 1.
  cbv beta iota. rewrite try_except_eq, bind_eq.
  match goal with
  | |- context [OrderService.create_order_from_cart ?a ?b ?c ?s1] =>
      change s1 with (snd (time_time s));
      destruct (OrderService.create_order_from_cart a b c
                  (snd (time_time s))) as [[order|e] s']
  end.
  - reflexivity.
  - destruct e; reflexivity.
Qed.

(** X19. When the payment gateway declines, the monolith undoes the
    order: the router answers 400 with [Payment failed], the reservations,
    the order and its lines are rolled back, the database and the session
    being as before the request, no e-mail is sent; what stays is the call
    of the gateway, made once, for the total of the cart and with the
    outcome failed. *)
Theorem monolith_failed_payment_is_rolled_back
    (user_id : Z) (shipping_address payment_method : string) (s : State)
    (cart : Cart.t) :
  session s = committed s ->
  find (fun c => Cart.user_id c =? user_id) (carts (session s)) = Some cart ->
  let items :=
    filter (fun i => CartItem.cart_id i =? Cart.id cart)
           (cart_items (session s)) in
  items <> [] ->
  find (short (inventory (session s))) items = None ->
  (forall o, In o (orders (session s)) -> Order.id o <> next_order_id s) ->
  hd true (draws s) = false ->
  let r := Router.checkout user_id shipping_address payment_method s in
  fst r = Throw (HTTPException 400 "Payment failed")
  /\ committed (snd r) = committed s
  /\ session (snd r) = session s
  /\ gateway_calls (snd r)
     = gateway_calls s
         ++ [gateway_call (next_order_id s) (total_of items) payment_method
               false]
  /\ sent (snd r) = sent s.
Proof.
  intros Hs Hcart items Hitems Hstock Hfresh Hdraw r.
  unfold r. rewrite router_checkout_eq.
  destruct s as [c t0 n1 n2 n3 n4 gc e d u k f].
  cbn [session committed next_order_id draws gateway_calls sent] in *.
  rewrite (create_order_runs user_id shipping_address payment_method _ cart);
    try assumption.
  cbn [time_time snd draws]. rewrite Hdraw. cbn. subst t0. repeat split.
Qed.

Lemma monolith_failed_payment_is_rolled_back_witness :
  let s := shop 5 false in
  let items :=
    filter (fun i => CartItem.cart_id i =? Cart.id (Cart.make 1 7))
           (cart_items (session s)) in
  let r := Router.checkout 7 "1 Main Street" "credit_card" s in
  fst r = Throw (HTTPException 400 "Payment failed")
  /\ committed (snd r) = committed s
  /\ session (snd r) = session s
  /\ gateway_calls (snd r)
     = gateway_calls s
         ++ [gateway_call (next_order_id s) (total_of items) "credit_card"
               false]
  /\ sent (snd r) = sent s.
Proof.
  refine (monolith_failed_payment_is_rolled_back 7 "1 Main Street"
            "credit_card" (shop 5 false) (Cart.make 1 7)
            eq_refl eq_refl _ eq_refl _ eq_refl).
  - discriminate.
  - intros o [].
Defined.

Lemma filter_out_then_in {A} (p : A -> bool) (l : list A) :
  filter p (filter (fun x => negb (p x)) l) = [].
Proof.
  induction l as [|a l IH]; cbn [filter]; [reflexivity|].
  destruct (p a) eqn:E; cbn [negb filter]; [exact IH|].
  now rewrite E.
Qed.

(** X20. A checkout of the monolith that goes through: for a cart with
    items that the stock covers, a payment that the gateway takes and a
    user that is there, [create_order_from_cart] returns the order, paid,
    with the total of the cart and the time it took; everything is
    committed; the table of orders has gained that order, the order items
    are the items of the cart, there is one completed payment of the
    total with the transaction id of the gateway, the quantities of the
    inventory have gone down by what was ordered with no reservation
    left, the cart is empty, and one confirmation was handed to the mail
    server, for the address of the user. *)
Theorem monolith_checkout_ships_the_cart
    (user_id : Z) (shipping_address payment_method : string) (s : State)
    (cart : Cart.t) (buyer : User.t) :
  find (fun c => Cart.user_id c =? user_id) (carts (session s)) = Some cart ->
  let t := session s in
  let items :=
    filter (fun i => CartItem.cart_id i =? Cart.id cart) (cart_items t) in
  items <> [] ->
  find (short (inventory t)) items = None ->
  (forall o, In o (orders t) -> Order.id o <> next_order_id s) ->
  hd true (draws s) = true ->
  find (fun u => User.id u =? user_id) (users t) = Some buyer ->
  let r :=
    OrderService.create_order_from_cart user_id shipping_address
      payment_method s in
  let order :=
    Order.make (next_order_id s) user_id PAID (total_of items)
      shipping_address (Some (hd 0 (tl (clock s)) - hd 0 (clock s))) in
  let t' := session (snd r) in
  fst r = Return order
  /\ committed (snd r) = t'
  /\ orders t' = orders t ++ [order]
  /\ order_items t'
     = order_items t
         ++ lines_of (next_order_id s) (next_order_item_id s) items
  /\ payments t'
     = payments t
         ++ [Payment.make (next_payment_id s) (next_order_id s)
               (total_of items) "completed" payment_method
               ("txn_" ++ substring 0 12 (hd EmptyString (uuids s)))]
  /\ inventory t' = ship_all items (inventory t)
  /\ cart_of user_id t' = []
  /\ gateway_calls (snd r)
     = gateway_calls s
         ++ [gateway_call (next_order_id s) (total_of items) payment_method
               true]
  /\ sent (snd r)
     = sent s
         ++ [email (User.email buyer)
               ("Order Confirmation #" ++ text_of (str_int (next_order_id s)))
               (OrderConfirmation (next_order_id s) (total_of items))
               (negb (hd false (smtp_faults s)))].
Proof.
  intros Hcart t items Hitems Hstock Hfresh Hdraw Hbuyer r order t'.
  unfold t', r.
  rewrite (create_order_runs user_id shipping_address payment_method s cart)
    by assumption.
  rewrite Hdraw. fold t. rewrite Hbuyer. cbv zeta. cbn [fst snd session
    committed orders order_items payments inventory gateway_calls sent].
  repeat (split; [reflexivity|]). split; [|split; reflexivity].
  unfold cart_of. cbn [carts cart_items]. fold t. unfold t at 1.
  rewrite Hcart. apply filter_out_then_in.
Qed.

Lemma monolith_checkout_ships_the_cart_witness :
  let s := shop 5 true in
  let t := session s in
  let items :=
    filter (fun i => CartItem.cart_id i =? 1) (cart_items t) in
  let r :=
    OrderService.create_order_from_cart 7 "1 Main Street" "credit_card" s in
  let order :=
    Order.make (next_order_id s) 7 PAID (total_of items)
      "1 Main Street" (Some (hd 0 (tl (clock s)) - hd 0 (clock s))) in
  let t' := session (snd r) in
  fst r = Return order
  /\ committed (snd r) = t'
  /\ orders t' = orders t ++ [order]
  /\ order_items t'
     = order_items t
         ++ lines_of (next_order_id s) (next_order_item_id s) items
  /\ payments t'
     = payments t
         ++ [Payment.make (next_payment_id s) (next_order_id s)
               (total_of items) "completed" "credit_card"
               ("txn_" ++ substring 0 12 (hd EmptyString (uuids s)))]
  /\ inventory t' = ship_all items (inventory t)
  /\ cart_of 7 t' = []
  /\ gateway_calls (snd r)
     = gateway_calls s
         ++ [gateway_call (next_order_id s) (total_of items) "credit_card"
               true]
  /\ sent (snd r)
     = sent s
         ++ [email "ann@example.com"
               ("Order Confirmation #" ++ text_of (str_int (next_order_id s)))
               (OrderConfirmation (next_order_id s) (total_of items))
               (negb (hd false (smtp_faults s)))].
Proof.
  refine (monolith_checkout_ships_the_cart 7 "1 Main Street" "credit_card"
            (shop 5 true) (Cart.make 1 7) (User.make 7 "ann@example.com")
            eq_refl _ eq_refl _ eq_refl eq_refl).
  - discriminate.
  - intros o [].
Defined.

(** The shop, after the checkout: the stock of the two products. *)
Example shop_after_checkout :
  inventory
    (committed
       (snd (OrderService.create_order_from_cart 7 "1 Main Street"
               "credit_card" (shop 5 true))))
  = [Inventory.make 1 1 8 0; Inventory.make 2 2 4 0].
Proof. reflexivity. Qed.

(** ** The stock after a checkout *)

Lemma stock_of_update product_id p f inv :
  (forall i, Inventory.product_id (f i) = Inventory.product_id i) ->
  stock_of product_id
    (update_first (fun i => Inventory.product_id i =? p) f inv)
  = if p =? product_id then option_map f (stock_of product_id inv)
    else stock_of product_id inv.
Proof.
  intros Hf. unfold stock_of.
  induction inv as [|a inv IH]; cbn [update_first find option_map].
  - now destruct (p =? product_id).
  - destruct (Inventory.product_id a =? p) eqn:Ep; cbn [find].
    + apply Z.eqb_eq in Ep. rewrite Hf, Ep.
      destruct (p =? product_id); reflexivity.
    + destruct (Inventory.product_id a =? product_id) eqn:Ea.
      * apply Z.eqb_eq in Ea. rewrite Ea in Ep. rewrite Z.eqb_sym in Ep.
        now rewrite Ep.
      * exact IH.
Qed.

(** What the shipping of some items leaves of the row of a product. *)
Lemma stock_of_ship_all product_id items : forall inv,
  stock_of product_id (ship_all items inv)
  = option_map
      (fun i =>
         Inventory.make (Inventory.id i) (Inventory.product_id i)
           (Inventory.quantity i - ordered product_id items)
           (Inventory.reserved_quantity i))
      (stock_of product_id inv).
Proof.
  unfold ship_all.
  induction items as [|x items IH]; intros inv; cbn [fold_left ordered fold_right].
  - destruct (stock_of product_id inv) as [[? ? ? ?]|]; cbn; [|reflexivity].
    now rewrite Z.sub_0_r.
  - rewrite IH. unfold ship. rewrite stock_of_update by reflexivity.
    fold (ordered product_id items).
    destruct (CartItem.product_id x =? product_id);
      destruct (stock_of product_id inv) as [i|]; cbn; try reflexivity.
    do 2 f_equal. lia.
Qed.

Lemma ordered_absent product_id items :
  ~ In product_id (map CartItem.product_id items) ->
  ordered product_id items = 0.
Proof.
  induction items as [|x items IH]; cbn [ordered fold_right map In];
    [reflexivity|].
  intros H. destruct (Z.eqb_spec (CartItem.product_id x) product_id) as [E|E].
  - exfalso. apply H. now left.
  - apply IH. intros Hin. apply H. now right.
Qed.

(** With one line for each product, what is ordered of a product is not
    more than what is available of it. *)
Lemma ordered_is_covered inv items :
  NoDup (map CartItem.product_id items) ->
  find (short inv) items = None ->
  forall product_id i,
    stock_of product_id inv = Some i -> 0 <= Inventory.available i ->
    (forall x, In x items -> 0 <= CartItem.quantity x) ->
    0 <= ordered product_id items <= Inventory.available i.
Proof.
  intros Hnd Hstock product_id i Hi Ha Hq.
  induction items as [|x items IH]; cbn [ordered fold_right]; [lia|].
  cbn [map] in Hnd. inversion Hnd as [|? ? Hx Hnd']; subst.
  cbn [find] in Hstock. destruct (short inv x) eqn:Ex; [discriminate|].
  fold (ordered product_id items).
  destruct (Z.eqb_spec (CartItem.product_id x) product_id) as [E|E].
  - rewrite E in Hx. rewrite (ordered_absent _ _ Hx).
    unfold short in Ex. unfold stock_of in Hi. rewrite E, Hi in Ex.
    apply Z.ltb_ge in Ex. specialize (Hq x (or_introl eq_refl)). lia.
  - apply IH; [exact Hnd'|exact Hstock|].
    intros y Hy. apply Hq. now right.
Qed.

(** X21. A checkout of the monolith that goes through does not sell what
    is not there.  For a cart with one line for each product and no
    negative quantity, the inventory row of every product is, after the
    checkout, the row before it with the quantity lowered by what the cart
    ordered of the product and the same reservation; what was available
    and not negative stays not negative. *)
Theorem monolith_checkout_never_oversells
    (user_id : Z) (shipping_address payment_method : string) (s : State)
    (cart : Cart.t) (buyer : User.t) :
  find (fun c => Cart.user_id c =? user_id) (carts (session s)) = Some cart ->
  let t := session s in
  let items :=
    filter (fun i => CartItem.cart_id i =? Cart.id cart) (cart_items t) in
  items <> [] ->
  find (short (inventory t)) items = None ->
  (forall o, In o (orders t) -> Order.id o <> next_order_id s) ->
  hd true (draws s) = true ->
  find (fun u => User.id u =? user_id) (users t) = Some buyer ->
  NoDup (map CartItem.product_id items) ->
  (forall x, In x items -> 0 <= CartItem.quantity x) ->
  let r :=
    OrderService.create_order_from_cart user_id shipping_address
      payment_method s in
  forall product_id before,
    stock_of product_id (inventory t) = Some before ->
    exists after,
      stock_of product_id (inventory (committed (snd r))) = Some after
      /\ Inventory.quantity after
         = Inventory.quantity before - ordered product_id items
      /\ Inventory.reserved_quantity after
         = Inventory.reserved_quantity before
      /\ (0 <= Inventory.available before ->
          0 <= Inventory.available after <= Inventory.available before).
Proof.
  intros Hcart t items Hitems Hstock Hfresh Hdraw Hbuyer Hnd Hq r
    product_id before Hb.
  unfold r.
  rewrite (create_order_runs user_id shipping_address payment_method s cart)
    by assumption.
  rewrite Hdraw. fold t. rewrite Hbuyer. cbv zeta.
  cbn [snd committed inventory]. fold items.
  rewrite stock_of_ship_all, Hb. cbn [option_map].
  eexists. split; [reflexivity|]. cbn [Inventory.quantity
    Inventory.reserved_quantity]. split; [reflexivity|].
  split; [reflexivity|]. intros Ha.
  pose proof (ordered_is_covered _ _ Hnd Hstock product_id before Hb Ha Hq).
  unfold Inventory.available in *. cbn [Inventory.quantity
    Inventory.reserved_quantity]. lia.
Qed.

Lemma monolith_checkout_never_oversells_witness :
  let s := shop 5 true in
  let t := session s in
  let items :=
    filter (fun i => CartItem.cart_id i =? 1) (cart_items t) in
  let r :=
    OrderService.create_order_from_cart 7 "1 Main Street" "credit_card" s in
  let before := Inventory.make 1 1 10 0 in
  exists after,
    stock_of 1 (inventory (committed (snd r))) = Some after
    /\ Inventory.quantity after
       = Inventory.quantity before - ordered 1 items
    /\ Inventory.reserved_quantity after
       = Inventory.reserved_quantity before
    /\ (0 <= Inventory.available before ->
        0 <= Inventory.available after <= Inventory.available before).
Proof.
  refine (monolith_checkout_never_oversells 7 "1 Main Street" "credit_card"
            (shop 5 true) (Cart.make 1 7) (User.make 7 "ann@example.com")
            eq_refl _ eq_refl _ eq_refl eq_refl _ _
            1 (Inventory.make 1 1 10 0) eq_refl).
  - discriminate.
  - intros o [].
  - repeat constructor; cbn; intuition discriminate.
  - intros x [<-|[<-|[]]]; cbn; lia.
Defined.

(* ------------------------------------------------------------------ *)
Import ProductServiceApp.
Local Open Scope catalog_scope.

(** *** The product service *)

Lemma catalog_find_id product_id l p :
  find (fun p => Product.id p =? product_id) l = Some p ->
  Product.id p = product_id /\ In p l.
Proof.
  intros H. apply find_some in H. destruct H as [Hin H].
  apply Z.eqb_eq in H. now split.
Qed.

(** The row of a product after a change of its stock. *)
Lemma catalog_update_stock_run product_id stock_change s :
  Routes.update_stock product_id stock_change s
  = match product_of product_id s with
    | None => (Throw not_found, s)
    | Some p =>
        if Product.stock p + stock_change <? 0 then
          (Throw (HTTPException 400
                    (str_exn (InsufficientStockException product_id
                                (Z.abs stock_change) (Product.stock p)))),
           s)
        else
          let p' :=
            Product.make (Product.id p) (Product.name p)
              (Product.description p) (Product.price p)
              (Product.stock p + stock_change) in
          (Return (ProductResponse.model_validate p'),
           db (map (fun q => if Product.id q =? Product.id p then p' else q)
                 (products s))
              (log s ++ [info ("Updated stock for " ++ Product.name p ++ ": "
                                 ++ text_of (str_int
                                      (Product.stock p + stock_change)))]))
    end.
Proof.
  unfold Routes.update_stock, ProductService.update_stock,
    ProductRepository.update_stock, ProductRepository.get_by_id,
    try_except, bind, rows, set_rows, logger, ret, throw, product_of,
    not_found.
  destruct (find _ (products s)) as [p|] eqn:E; cbn -[str_exn str_int].
  - destruct (Product.stock p + stock_change <? 0); cbn -[str_exn str_int].
    + now rewrite E.
    + reflexivity.
  - reflexivity.
Qed.

Lemma catalog_delete_run product_id s :
  Routes.delete_product product_id s
  = match product_of product_id s with
    | None => (Throw not_found, s)
    | Some p =>
        (Return tt,
         db (filter (fun q => negb (Product.id q =? Product.id p))
               (products s))
            (log s ++ [info ("Deleted product ID: "
                               ++ text_of (str_int product_id))]))
    end.
Proof.
  unfold Routes.delete_product, ProductService.delete_product,
    ProductRepository.delete, ProductRepository.get_by_id,
    try_except, bind, rows, set_rows, logger, ret, throw, product_of,
    not_found.
  destruct (find _ (products s)) as [p|]; reflexivity.
Qed.

Lemma catalog_get_product_run product_id s :
  Routes.get_product product_id s
  = match product_of product_id s with
    | None =>
        (Throw not_found,
         db (products s)
            (log s ++ [warning ("Product " ++ text_of (str_int product_id)
                                  ++ " not found")]))
    | Some p =>
        (Return (ProductResponse.model_validate p),
         db (products s)
            (log s ++ [info ("Retrieved product: " ++ Product.name p)]))
    end.
Proof.
  unfold Routes.get_product, ProductService.get_product_by_id,
    ProductRepository.get_by_id,
    try_except, bind, rows, set_rows, logger, ret, throw, product_of,
    not_found.
  destruct (find _ (products s)) as [p|]; reflexivity.
Qed.

(** The table after a request. *)
Lemma catalog_serve_products q s :
  products (serve q s)
  = match q with
    | GetProduct _ => products s
    | DeleteProduct product_id =>
        match product_of product_id s with
        | None => products s
        | Some p =>
            filter (fun q => negb (Product.id q =? Product.id p)) (products s)
        end
    | UpdateStock product_id stock_change =>
        match product_of product_id s with
        | None => products s
        | Some p =>
            if Product.stock p + stock_change <? 0 then products s
            else
              map (fun q =>
                     if Product.id q =? Product.id p then
                       Product.make (Product.id p) (Product.name p)
                         (Product.description p) (Product.price p)
                         (Product.stock p + stock_change)
                     else q)
                  (products s)
        end
    end.
Proof.
  destruct q as [product_id|product_id|product_id stock_change];
    unfold serve.
  - rewrite catalog_get_product_run.
    now destruct (product_of product_id s).
  - rewrite catalog_delete_run.
    now destruct (product_of product_id s).
  - rewrite catalog_update_stock_run.
    destruct (product_of product_id s) as [p|]; [|reflexivity].
    now destruct (Product.stock p + stock_change <? 0).
Qed.

(** A change of stock keeps the ids of the table. *)
Lemma catalog_map_ids (p p' : Product.t) l :
  Product.id p' = Product.id p ->
  map Product.id
    (map (fun q => if Product.id q =? Product.id p then p' else q) l)
  = map Product.id l.
Proof.
  intros H. rewrite map_map. apply map_ext_in. intros q _.
  destruct (Product.id q =? Product.id p) eqn:E; [|reflexivity].
  apply Z.eqb_eq in E. congruence.
Qed.

Lemma catalog_filter_ids (f : Product.t -> bool) l :
  NoDup (map Product.id l) -> NoDup (map Product.id (filter f l)).
Proof.
  induction l as [|a l IH]; cbn; intros H; [constructor|].
  inversion H as [|x xs Hn Hd]; subst.
  destruct (f a); cbn; [|now apply IH].
  constructor; [|now apply IH].
  intros Hin. apply Hn. apply in_map_iff in Hin.
  destruct Hin as [q [Hq Hin]]. apply filter_In in Hin.
  apply in_map_iff. exists q. tauto.
Qed.

Lemma catalog_serve_keeps q s :
  keyed s /\ in_stock s -> keyed (serve q s) /\ in_stock (serve q s).
Proof.
  unfold keyed, in_stock. intros [Hk Hs].
  rewrite catalog_serve_products.
  destruct q as [product_id|product_id|product_id stock_change].
  - now split.
  - destruct (product_of product_id s) as [p|]; [|now split].
    split; [now apply catalog_filter_ids|].
    apply Forall_forall. intros q Hq. apply filter_In in Hq.
    rewrite Forall_forall in Hs. now apply Hs.
  - destruct (product_of product_id s) as [p|]; [|now split].
    destruct (Product.stock p + stock_change <? 0) eqn:E; [now split|].
    apply Z.ltb_ge in E. split.
    + now rewrite catalog_map_ids.
    + apply Forall_forall. intros q Hq. apply in_map_iff in Hq.
      destruct Hq as [q0 [Hq0 Hin]]. rewrite Forall_forall in Hs.
      destruct (Product.id q0 =? Product.id p); subst q; [exact E|].
      now apply Hs.
Qed.

(** X22: no sequence of requests to read a product, to delete it and to
    change its stock makes a stock negative: a table whose ids are distinct
    and whose stocks are not negative stays so, whatever the requests and
    their answers are. *)
Theorem catalog_stock_never_negative (l : list Request) (s : Db) :
  keyed s -> in_stock s ->
  keyed (serve_all l s) /\ in_stock (serve_all l s).
Proof.
  revert s. induction l as [|q l IH]; intros s Hk Hs; cbn; [now split|].
  destruct (catalog_serve_keeps q s (conj Hk Hs)) as [Hk' Hs'].
  now apply IH.
Qed.

Lemma catalog_stock_never_negative_witness :
  keyed (serve_all [UpdateStock 1 (-4); UpdateStock 1 (-7); DeleteProduct 2]
           two_products)
  /\ in_stock
       (serve_all [UpdateStock 1 (-4); UpdateStock 1 (-7); DeleteProduct 2]
          two_products).
Proof.
  apply (catalog_stock_never_negative
           [UpdateStock 1 (-4); UpdateStock 1 (-7); DeleteProduct 2]
           two_products).
  - unfold keyed. cbn. repeat constructor; cbn; intuition discriminate.
  - unfold in_stock. cbn. repeat constructor; discriminate.
Defined.

(** X23: a change that would make the stock of a product negative is
    refused with status 400, the detail naming the product, the size of the
    change and the stock that is there; the table and the log stay as they
    were. *)
Theorem catalog_insufficient_stock_is_400
    (product_id stock_change : Z) (s : Db) (p : Product.t) :
  product_of product_id s = Some p ->
  Product.stock p + stock_change < 0 ->
  Routes.update_stock product_id stock_change s
  = (Throw (HTTPException 400
              ("Insufficient stock for product "
                 ++ text_of (str_int product_id)
                 ++ ". Requested: "
                 ++ text_of (str_int (Z.abs stock_change))
                 ++ ", Available: "
                 ++ text_of (str_int (Product.stock p)))),
     s).
Proof.
  intros Hp Hlt. rewrite catalog_update_stock_run, Hp.
  assert (E : (Product.stock p + stock_change <? 0) = true)
    by (now apply Z.ltb_lt).
  now rewrite E.
Qed.

Lemma catalog_insufficient_stock_is_400_witness :
  Routes.update_stock 1 (-11) two_products
  = (Throw (HTTPException 400
              "Insufficient stock for product 1. Requested: 11, Available: 10"),
     two_products).
Proof.
  apply (catalog_insufficient_stock_is_400 1 (-11) two_products
           (Product.make 1 "Gaming Laptop"
              (Some "High-performance laptop"%string)
              (finite false 129999 (-2)) 10)).
  - reflexivity.
  - cbn. lia.
Defined.

(** The product of an id in a table where a row has changed. *)
Lemma catalog_find_map (p p' : Product.t) other l :
  Product.id p' = Product.id p ->
  find (fun q => Product.id q =? other)
    (map (fun q => if Product.id q =? Product.id p then p' else q) l)
  = match find (fun q => Product.id q =? other) l with
    | Some q => Some (if Product.id q =? Product.id p then p' else q)
    | None => None
    end.
Proof.
  intros H. induction l as [|a l IH]; cbn; [reflexivity|].
  destruct (Product.id a =? Product.id p) eqn:E.
  - assert (Ha : Product.id p' = Product.id a)
      by (apply Z.eqb_eq in E; congruence).
    rewrite Ha.
    destruct (Product.id a =? other); [|exact IH].
    now rewrite E.
  - destruct (Product.id a =? other); [|exact IH].
    now rewrite E.
Qed.

(** The product of an id in a table where the rows of an id are gone. *)
Lemma catalog_find_filter gone other (l : list Product.t) :
  find (fun q => Product.id q =? other)
    (filter (fun q => negb (Product.id q =? gone)) l)
  = if other =? gone then None
    else find (fun q => Product.id q =? other) l.
Proof.
  induction l as [|a l IH]; cbn; [now destruct (other =? gone)|].
  destruct (Product.id a =? gone) eqn:E; cbn.
  - rewrite IH. destruct (other =? gone) eqn:E'; [reflexivity|].
    destruct (Product.id a =? other) eqn:E''; [|reflexivity].
    apply Z.eqb_eq in E, E''. apply Z.eqb_neq in E'. lia.
  - destruct (Product.id a =? other) eqn:E''; [|exact IH].
    destruct (other =? gone) eqn:E'; [|reflexivity].
    apply Z.eqb_eq in E', E''. apply Z.eqb_neq in E. lia.
Qed.

(** X24: a change of stock that the stock covers answers the product with
    its new stock and its other fields as they were; the product is read
    back so afterwards, and every other product is as it was. *)
Theorem catalog_stock_update_is_read_back
    (product_id stock_change : Z) (s : Db) (p : Product.t) :
  product_of product_id s = Some p ->
  0 <= Product.stock p + stock_change ->
  exists s',
    Routes.update_stock product_id stock_change s
    = (Return (ProductResponse.make product_id (Product.name p)
                 (Product.description p) (Product.price p)
                 (Product.stock p + stock_change)),
       s')
    /\ fst (Routes.get_product product_id s')
       = Return (ProductResponse.make product_id (Product.name p)
                   (Product.description p) (Product.price p)
                   (Product.stock p + stock_change))
    /\ forall other, other <> product_id ->
         product_of other s' = product_of other s.
Proof.
  intros Hp Hle.
  destruct (catalog_find_id _ _ _ Hp) as [Hid _]. subst product_id.
  rewrite catalog_update_stock_run, Hp.
  assert (E : (Product.stock p + stock_change <? 0) = false)
    by (now apply Z.ltb_ge).
  rewrite E. cbv zeta.
  eexists. split; [reflexivity|split].
  - rewrite catalog_get_product_run. unfold product_of in *.
    cbn [products]. rewrite catalog_find_map by reflexivity.
    now rewrite Hp, Z.eqb_refl.
  - intros other Hne. unfold product_of. cbn [products].
    rewrite catalog_find_map by reflexivity.
    destruct (find (fun q => Product.id q =? other) (products s))
      as [q|] eqn:Eq; [|reflexivity].
    destruct (catalog_find_id _ _ _ Eq) as [Hq _].
    assert (E' : (Product.id q =? Product.id p) = false)
      by (apply Z.eqb_neq; lia).
    now rewrite E'.
Qed.

Lemma catalog_stock_update_is_read_back_witness :
  exists s',
    Routes.update_stock 2 (-50) two_products
    = (Return (ProductResponse.make 2 "Wireless Mouse" None
                 (finite false 4999 (-2)) (50 + -50)),
       s')
    /\ fst (Routes.get_product 2 s')
       = Return (ProductResponse.make 2 "Wireless Mouse" None
                   (finite false 4999 (-2)) (50 + -50))
    /\ forall other, other <> 2 ->
         product_of other s' = product_of other two_products.
Proof.
  apply (catalog_stock_update_is_read_back 2 (-50) two_products
           (Product.make 2 "Wireless Mouse" None
              (finite false 4999 (-2)) 50)).
  - reflexivity.
  - cbn. lia.
Defined.

(** X25: two changes of the stock of a product that the stock covers one
    after the other leave the table that the one change by their sum
    leaves. *)
Theorem catalog_stock_changes_add_up
    (product_id first second : Z) (s : Db) (p : Product.t) :
  product_of product_id s = Some p ->
  0 <= Product.stock p + first ->
  0 <= Product.stock p + first + second ->
  products (serve_all [UpdateStock product_id first;
                       UpdateStock product_id second] s)
  = products (serve (UpdateStock product_id (first + second)) s).
Proof.
  intros Hp H1 H2. cbn [serve_all fold_left].
  destruct (catalog_find_id _ _ _ Hp) as [Hid _].
  set (s1 := serve (UpdateStock product_id first) s).
  assert (Hs1 : products s1
                = map (fun q =>
                         if Product.id q =? Product.id p then
                           Product.make (Product.id p) (Product.name p)
                             (Product.description p) (Product.price p)
                             (Product.stock p + first)
                         else q)
                    (products s)).
  { unfold s1. rewrite catalog_serve_products, Hp.
    assert (E : (Product.stock p + first <? 0) = false) by (now apply Z.ltb_ge).
    now rewrite E. }
  assert (Hp1 : product_of product_id s1
                = Some (Product.make (Product.id p) (Product.name p)
                          (Product.description p) (Product.price p)
                          (Product.stock p + first))).
  { unfold product_of in *. rewrite Hs1.
    rewrite catalog_find_map by reflexivity.
    now rewrite Hp, Hid, Z.eqb_refl. }
  rewrite !catalog_serve_products, Hp1, Hp. cbn [Product.stock Product.id
    Product.name Product.description Product.price].
  assert (E2 : (Product.stock p + first + second <? 0) = false)
    by (now apply Z.ltb_ge).
  assert (E12 : (Product.stock p + (first + second) <? 0) = false)
    by (apply Z.ltb_ge; lia).
  rewrite E2, E12, Hs1, map_map. apply map_ext. intros q.
  destruct (Product.id q =? Product.id p) eqn:E; cbn [Product.id].
  - rewrite Z.eqb_refl. f_equal. lia.
  - now rewrite E.
Qed.

Lemma catalog_stock_changes_add_up_witness :
  products (serve_all [UpdateStock 1 (-4); UpdateStock 1 3] two_products)
  = products (serve (UpdateStock 1 (-4 + 3)) two_products).
Proof.
  apply (catalog_stock_changes_add_up 1 (-4) 3 two_products
           (Product.make 1 "Gaming Laptop"
              (Some "High-performance laptop"%string)
              (finite false 129999 (-2)) 10)).
  - reflexivity.
  - cbn. lia.
  - cbn. lia.
Defined.

(** X26: deleting a product that is there answers without an error and
    takes that product away and no other: reading it, changing its stock
    and deleting it once more are answered with 404, and every other product
    is as it was. *)
Theorem catalog_delete_removes_one_product
    (product_id : Z) (s : Db) (p : Product.t) :
  product_of product_id s = Some p ->
  exists s',
    Routes.delete_product product_id s = (Return tt, s')
    /\ fst (Routes.get_product product_id s') = Throw not_found
    /\ (forall stock_change,
          Routes.update_stock product_id stock_change s'
          = (Throw not_found, s'))
    /\ Routes.delete_product product_id s' = (Throw not_found, s')
    /\ forall other, other <> product_id ->
         product_of other s' = product_of other s.
Proof.
  intros Hp. rewrite catalog_delete_run, Hp.
  destruct (catalog_find_id _ _ _ Hp) as [Hid _].
  eexists. split; [reflexivity|].
  match goal with
  | |- context [Routes.get_product _ ?s'] =>
      assert (Hgone : product_of product_id s' = None)
  end.
  { unfold product_of. cbn [products]. rewrite catalog_find_filter.
    now rewrite Hid, Z.eqb_refl. }
  repeat split.
  - now rewrite catalog_get_product_run, Hgone.
  - intros stock_change. now rewrite catalog_update_stock_run, Hgone.
  - now rewrite catalog_delete_run, Hgone.
  - intros other Hne. unfold product_of. cbn [products].
    rewrite catalog_find_filter, Hid.
    assert (E : (other =? product_id) = false) by now apply Z.eqb_neq.
    now rewrite E.
Qed.

Lemma catalog_delete_removes_one_product_witness :
  exists s',
    Routes.delete_product 2 two_products = (Return tt, s')
    /\ fst (Routes.get_product 2 s') = Throw not_found
    /\ (forall stock_change,
          Routes.update_stock 2 stock_change s' = (Throw not_found, s'))
    /\ Routes.delete_product 2 s' = (Throw not_found, s')
    /\ forall other, other <> 2 ->
         product_of other s' = product_of other two_products.
Proof.
  apply (catalog_delete_removes_one_product 2 two_products
           (Product.make 2 "Wireless Mouse" None
              (finite false 4999 (-2)) 50)).
  reflexivity.
Defined.

(** X27: for an id that no product has, the three routes answer 404 with
    the detail "Product not found" and leave the table as it is; only the
    read leaves a warning in the log. *)
Theorem catalog_unknown_product_is_404
    (product_id stock_change : Z) (s : Db) :
  product_of product_id s = None ->
  Routes.get_product product_id s
  = (Throw (HTTPException 404 "Product not found"),
     db (products s)
        (log s ++ [warning ("Product " ++ text_of (str_int product_id)
                              ++ " not found")]))
  /\ Routes.update_stock product_id stock_change s
     = (Throw (HTTPException 404 "Product not found"), s)
  /\ Routes.delete_product product_id s
     = (Throw (HTTPException 404 "Product not found"), s).
Proof.
  intros Hp.
  rewrite catalog_get_product_run, catalog_update_stock_run,
    catalog_delete_run, Hp.
  now repeat split.
Qed.

Lemma catalog_unknown_product_is_404_witness :
  Routes.get_product 999 two_products
  = (Throw (HTTPException 404 "Product not found"),
     db (products two_products)
        (log two_products ++ [warning "Product 999 not found"]))
  /\ Routes.update_stock 999 5 two_products
     = (Throw (HTTPException 404 "Product not found"), two_products)
  /\ Routes.delete_product 999 two_products
     = (Throw (HTTPException 404 "Product not found"), two_products).
Proof.
  apply (catalog_unknown_product_is_404 999 5 two_products).
  reflexivity.
Defined.
